(** * get_daily_papers: crawler manager, crawlers, fetcher and paper store

    A shallow embedding of [main.py] (CrawlerManager), [src/crawlers/base.py]
    (BaseCrawler, DBLPCrawler), [src/crawlers/conference_crawlers.py] (the site
    crawlers) and [src/models/database.py] (DatabaseManager), followed by the
    properties of the deduplicator, the upsert, the query, the statistics,
    the retrying fetcher, the crawlers and the crawl log.

    Python values are typed: a title is a string or None, a year is an
    integer or None. Integers are unbounded, as in Python; where one is
    bound to a statement of SQLite, or handed to [time.sleep], the range
    that the callee accepts is checked as the callee checks it. *)

From stdpp Require Import gmap strings list sorting pretty.

Local Open Scope Z_scope.

(** ** Python values, dictionaries and exceptions *)

(** The exceptions that the modelled code can raise or catch. *)
Inductive exn :=
  | KeyError (key : string)
  | RequestException (msg : string)
  | HTTPError (status : Z)
  | ValueError (msg : string)
  | TypeError (msg : string)
  | OverflowError (msg : string)
  | IntegrityError (msg : string)
  | OtherException (msg : string).

(** [requests.HTTPError] is a subclass of [requests.RequestException]. *)
Definition is_RequestException (e : exn) : bool :=
  match e with
  | RequestException _ | HTTPError _ => true
  | KeyError _ | ValueError _ | TypeError _ | OverflowError _ | IntegrityError _
  | OtherException _ => false
  end.

(** Outcome of a Python call: a returned value or a raised exception. *)
Inductive result (A : Type) :=
  | Return (a : A)
  | Raise (e : exn).
Arguments Return {A} a.
Arguments Raise {A} e.

#[global] Instance result_ret : MRet result := @Return.
#[global] Instance result_bind : MBind result := λ A B f m,
  match m with
  | Return a => f a
  | Raise e => Raise e
  end.

(** One key of a paper dictionary: the key is absent, or it is bound to
    [None] or to a value of the type the crawlers store under it. *)
Inductive entry (A : Type) :=
  | Missing
  | Bound (v : option A).
Arguments Missing {A}.
Arguments Bound {A} v.

(** [d[key]]: raises [KeyError] on an absent key. *)
Definition getitem {A} (key : string) (e : entry A) : result (option A) :=
  match e with
  | Missing => Raise (KeyError key)
  | Bound v => Return v
  end.

(** [d.get(key)]: [None] on an absent key. *)
Definition get {A} (e : entry A) : option A :=
  match e with
  | Missing => None
  | Bound v => v
  end.

(** The dictionaries built by the crawlers, over the eight keys the
    program reads. *)
Record PaperData := {
  title : entry string;
  authors : entry string;
  conference : entry string;
  year : entry Z;
  abstract : entry string;
  pdf_url : entry string;
  paper_url : entry string;
  doi : entry string;
}.

(** ** CrawlerManager._deduplicate_papers *)

(** The tuple [(paper["title"], paper["conference"], paper["year"])]. *)
Definition dedup_key : Type := option string * option string * option Z.

Definition paper_key (paper : PaperData) : result dedup_key :=
  t ← getitem "title" (title paper);
  c ← getitem "conference" (conference paper);
  y ← getitem "year" (year paper);
  mret (t, c, y).

(** The [for paper in papers] loop, with the set [seen] and the list
    [unique] as loop state. *)
Fixpoint dedup_loop (papers : list PaperData) (seen : gset dedup_key)
    (unique : list PaperData) : result (list PaperData) :=
  match papers with
  | [] => Return unique
  | paper :: rest =>
      key ← paper_key paper;
      if decide (key ∈ seen)
      then dedup_loop rest seen unique
      else dedup_loop rest ({[key]} ∪ seen) (unique ++ [paper])
  end.

Definition _deduplicate_papers (papers : list PaperData) : result (list PaperData) :=
  dedup_loop papers ∅ [].

(** ** Integers as SQLite stores them *)

(** A value of an [INTEGER] column is a 64-bit signed integer. *)
Definition INT64_MIN : Z := -9223372036854775808.
Definition INT64_MAX : Z := 9223372036854775807.

Definition fits_int64 (n : Z) : bool := (INT64_MIN <=? n) && (n <=? INT64_MAX).

Record int64 := {
  int64_value :> Z;
  int64_range : Is_true (fits_int64 int64_value);
}.

(** A number that is known to be in range, as a column value. *)
Class InInt64 (n : Z) := in_int64 : Is_true (fits_int64 n).
#[global] Hint Extern 0 (InInt64 _) => exact I : typeclass_instances.

Definition to_int64 (n : Z) `{!InInt64 n} : int64 :=
  {| int64_value := n; int64_range := in_int64 |}.

(** The exception of the module [sqlite3] for a Python int beyond 64
    bits. *)
Definition int_too_large : exn :=
  OverflowError "Python int too large to convert to SQLite INTEGER".

(** Binding a Python int to a placeholder of a statement. *)
Definition bind_int (n : Z) : result int64 :=
  match decide (Is_true (fits_int64 n)) with
  | left H => Return {| int64_value := n; int64_range := H |}
  | right _ => Raise int_too_large
  end.

(** Binding an int or [None], which becomes NULL. *)
Definition bind_optional_int (v : option Z) : result (option int64) :=
  match v with
  | Some n => y ← bind_int n; mret (Some y)
  | None => mret None
  end.

(** ** DatabaseManager: the two tables *)

(** Timestamps are kept abstract: a point on the time line. *)
Definition timestamp : Type := Z.

(** What one statement reads from the clocks: Python's [datetime.now()]
    and SQLite's [CURRENT_TIMESTAMP]. *)
Record clock_reading := {
  datetime_now : timestamp;
  CURRENT_TIMESTAMP : timestamp;
}.

(** A row of table [papers]; the [NOT NULL] columns hold plain values. *)
Record paper_row := {
  row_id : Z;
  row_title : string;
  row_authors : option string;
  row_conference : string;
  row_year : int64;
  row_abstract : option string;
  row_pdf_url : option string;
  row_paper_url : option string;
  row_doi : option string;
  row_downloaded : bool;
  row_local_path : option string;
  row_created_at : timestamp;
  row_updated_at : timestamp;
}.

(** A row of table [crawl_history]. *)
Record crawl_row := {
  h_id : Z;
  h_conference : string;
  h_year : int64;
  h_papers_count : Z;
  h_status : string;
  h_error_message : option string;
  h_created_at : timestamp;
}.

(** The database file: both tables in rowid order, and for each the
    largest rowid handed out so far ([AUTOINCREMENT]). *)
Record database := {
  papers : list paper_row;
  papers_seq : Z;
  crawl_history : list crawl_row;
  crawl_history_seq : Z;
}.

(** [init_database] on a fresh file: [CREATE TABLE IF NOT EXISTS] twice. *)
Definition init_database : database :=
  {| papers := []; papers_seq := 0; crawl_history := []; crawl_history_seq := 0 |}.

(** The rowid [AUTOINCREMENT] picks: above every rowid used before. *)
Definition next_rowid (seq : Z) (ids : list Z) : Z :=
  1 + foldr Z.max seq ids.

(** The columns of [UNIQUE(title, conference, year)]. *)
Definition natural_key : Type := string * string * Z.

Definition row_key (row : paper_row) : natural_key :=
  (row_title row, row_conference row, int64_value (row_year row)).

(** The Python values handed to the nine placeholders of the [INSERT]. *)
Record insert_values := {
  v_title : option string;
  v_authors : option string;
  v_conference : option string;
  v_year : option Z;
  v_abstract : option string;
  v_pdf_url : option string;
  v_paper_url : option string;
  v_doi : option string;
  v_updated_at : timestamp;
}.

Definition bind_values (paper_data : PaperData) (now : timestamp) : insert_values :=
  {| v_title := get (title paper_data);
     v_authors := get (authors paper_data);
     v_conference := get (conference paper_data);
     v_year := get (year paper_data);
     v_abstract := get (abstract paper_data);
     v_pdf_url := get (pdf_url paper_data);
     v_paper_url := get (paper_url paper_data);
     v_doi := get (doi paper_data);
     v_updated_at := now |}.

(** [DO UPDATE SET authors = excluded.authors, ...] on the conflicting row. *)
Definition do_update (excluded : insert_values) (row : paper_row) : paper_row :=
  {| row_id := row_id row;
     row_title := row_title row;
     row_authors := v_authors excluded;
     row_conference := row_conference row;
     row_year := row_year row;
     row_abstract := v_abstract excluded;
     row_pdf_url := v_pdf_url excluded;
     row_paper_url := v_paper_url excluded;
     row_doi := v_doi excluded;
     row_downloaded := row_downloaded row;
     row_local_path := row_local_path row;
     row_created_at := row_created_at row;
     row_updated_at := v_updated_at excluded |}.

(** The row a plain [INSERT] adds: the columns that are not listed take
    their defaults. *)
Definition new_row (rowid : Z) (t c : string) (y : int64) (vals : insert_values)
    (current_timestamp : timestamp) : paper_row :=
  {| row_id := rowid;
     row_title := t;
     row_authors := v_authors vals;
     row_conference := c;
     row_year := y;
     row_abstract := v_abstract vals;
     row_pdf_url := v_pdf_url vals;
     row_paper_url := v_paper_url vals;
     row_doi := v_doi vals;
     row_downloaded := false;
     row_local_path := None;
     row_created_at := current_timestamp;
     row_updated_at := v_updated_at vals |}.

Definition has_key (k : natural_key) (row : paper_row) : bool :=
  bool_decide (row_key row = k).

(** The table after [DO UPDATE]: the rows with the conflicting key are
    rewritten, the others stay. *)
Definition updated_rows (k : natural_key) (excluded : insert_values)
    (rows : list paper_row) : list paper_row :=
  (λ row, if has_key k row then do_update excluded row else row) <$> rows.

(** The table [papers] after the upsert: on a conflict the [DO UPDATE],
    else a new row with the next rowid. *)
Definition upserted_rows (t c : string) (y : int64) (vals : insert_values)
    (current_timestamp : timestamp) (db : database) : list paper_row :=
  if existsb (has_key (t, c, int64_value y)) (papers db)
  then updated_rows (t, c, int64_value y) vals (papers db)
  else papers db ++
       [new_row (next_rowid (papers_seq db) (row_id <$> papers db)) t c y vals
          current_timestamp].

(** [cursor.execute] of the statement [INSERT INTO papers ... ON
    CONFLICT(title, conference, year) DO UPDATE SET ...]: the parameters are
    bound first, where a year outside the 64-bit integers raises; then the
    statement runs, and a [NOT NULL] column bound to NULL aborts it. *)
Definition execute_upsert (vals : insert_values) (current_timestamp : timestamp)
    (db : database) : result database :=
  year_ ← bind_optional_int (v_year vals);
  match v_title vals, v_conference vals, year_ with
  | Some t, Some c, Some y =>
      Return {| papers := upserted_rows t c y vals current_timestamp db;
                papers_seq := next_rowid (papers_seq db) (row_id <$> papers db);
                crawl_history := crawl_history db;
                crawl_history_seq := crawl_history_seq db |}
  | None, _, _ => Raise (IntegrityError "NOT NULL constraint failed: papers.title")
  | _, None, _ => Raise (IntegrityError "NOT NULL constraint failed: papers.conference")
  | _, _, None => Raise (IntegrityError "NOT NULL constraint failed: papers.year")
  end.

(** [insert_paper]: commit and [True] when the statement ran, [False]
    (nothing committed) when it raised. *)
Definition insert_paper (clk : clock_reading) (paper_data : PaperData)
    (db : database) : bool * database :=
  match execute_upsert (bind_values paper_data (datetime_now clk))
          (CURRENT_TIMESTAMP clk) db with
  | Return db' => (true, db')
  | Raise _ => (false, db)
  end.

(** [insert_papers_batch]: the [i]-th call of [insert_paper] reads the
    clocks at [clock i]. *)
Fixpoint batch_loop (clock : nat → clock_reading) (papers_ : list PaperData)
    (db : database) (success_count : Z) : Z * database :=
  match papers_ with
  | [] => (success_count, db)
  | paper :: rest =>
      let '(ok, db') := insert_paper (clock 0%nat) paper db in
      batch_loop (λ i, clock (S i)) rest db'
        (if ok then success_count + 1 else success_count)
  end.

Definition insert_papers_batch (clock : nat → clock_reading)
    (papers_ : list PaperData) (db : database) : Z * database :=
  batch_loop clock papers_ db 0.

(** [paper_exists]: [SELECT COUNT( * ) ... WHERE title = ? AND ...] is
    positive; the year is bound to the statement, and nothing catches the
    [OverflowError] of a year that does not fit. *)
Definition paper_exists (t c : string) (y : Z) (db : database) : result bool :=
  _ ← bind_int y;
  mret (bool_decide
          (0 < Z.of_nat (length (filter (λ row, row_key row = (t, c, y)) (papers db))))).

(** [log_crawl_history]: one [INSERT INTO crawl_history], outside any
    [try]. The year is bound to the statement and must fit 64 bits; the
    column [conference] is [NOT NULL]. When the statement raises, nothing
    is committed. The count is bound as it is: the program passes 0 or
    a number of list elements, which fits. *)
Definition conference_is_null : exn :=
  IntegrityError "NOT NULL constraint failed: crawl_history.conference".

Definition log_crawl_history (clk : clock_reading) (conference_ : option string)
    (year_ : Z) (papers_count : Z) (status : string) (error_message : option string)
    (db : database) : result database :=
  y ← bind_int year_;
  match conference_ with
  | None => Raise conference_is_null
  | Some c =>
      let rowid := next_rowid (crawl_history_seq db) (h_id <$> crawl_history db) in
      Return
        {| papers := papers db; papers_seq := papers_seq db;
           crawl_history := crawl_history db ++
             [{| h_id := rowid; h_conference := c; h_year := y;
                 h_papers_count := papers_count; h_status := status;
                 h_error_message := error_message;
                 h_created_at := CURRENT_TIMESTAMP clk |}];
           crawl_history_seq := rowid |}
  end.

(** The store after a statement: when it raised, nothing was committed. *)
Definition store_after (r : result database) (db : database) : database :=
  match r with
  | Return db' => db'
  | Raise _ => db
  end.

(** ** DatabaseManager.get_papers *)

(** Python truth value of an optional string and of an optional int. *)
Definition truthy_str (o : option string) : bool :=
  match o with
  | Some s => negb (bool_decide (s = EmptyString))
  | None => false
  end.

Definition truthy_int (o : option Z) : bool :=
  match o with
  | Some n => negb (n =? 0)
  | None => false
  end.

(** The statement [get_papers] assembles: the conjuncts appended to
    [WHERE 1=1], whose values are bound as parameters, and the [LIMIT]
    clause, whose number is written into the text of the statement. *)
Record select_papers := {
  where_conference : option string;
  where_year : option Z;
  limit_clause : option Z;
}.

Definition build_query (conference_ : option string) (year_ : option Z)
    (limit : option Z) : select_papers :=
  {| where_conference := if truthy_str conference_ then conference_ else None;
     where_year := if truthy_int year_ then year_ else None;
     limit_clause := if truthy_int limit then limit else None |}.

Definition matches (q : select_papers) (row : paper_row) : bool :=
  match where_conference q with
  | Some c => bool_decide (row_conference row = c)
  | None => true
  end &&
  match where_year q with
  | Some y => bool_decide (int64_value (row_year row) = y)
  | None => true
  end.

(** [a] may come before [b] under [ORDER BY created_at DESC]. *)
Definition newer_first (a b : paper_row) : Prop :=
  row_created_at b ≤ row_created_at a.

#[global] Instance newer_first_dec a b : Decision (newer_first a b).
Proof. unfold newer_first. apply _. Defined.

#[global] Instance newer_first_total : Total newer_first.
Proof. intros a b. unfold newer_first. lia. Qed.

#[global] Instance newer_first_trans : Transitive newer_first.
Proof. intros a b c. unfold newer_first. lia. Qed.

(** SQL leaves the order of rows with equal [created_at] open. The
    engine picks, for each statement, some arrangement of the selected rows
    that is sorted by [created_at], newest first. *)
Record sqlite_engine := {
  order_by_created_at_desc : select_papers → list paper_row → list paper_row;
  order_by_permutation q rows : order_by_created_at_desc q rows ≡ₚ rows;
  order_by_sorted q rows : StronglySorted newer_first (order_by_created_at_desc q rows);
}.

(** An engine that sorts with a stable merge sort. *)
Definition merge_sort_engine : sqlite_engine :=
  {| order_by_created_at_desc := λ _ rows, merge_sort newer_first rows;
     order_by_permutation := λ _ rows, merge_sort_Permutation newer_first rows;
     order_by_sorted := λ _ rows, StronglySorted_merge_sort newer_first rows |}.

(** [LIMIT n], with [n] as a literal of the statement: a negative [n]
    means no limit, and a literal outside the 64-bit integers is no
    integer to SQLite, which then stops with "datatype mismatch". *)
Definition datatype_mismatch : exn := IntegrityError "datatype mismatch".

Definition apply_limit {A} (limit : option Z) (rows : list A) : result (list A) :=
  match limit with
  | Some n =>
      if fits_int64 n
      then Return (if n <? 0 then rows else take (Z.to_nat n) rows)
      else Raise datatype_mismatch
  | None => Return rows
  end.

(** [cursor.execute(query, params)] and [fetchall]: the year is bound
    first, then the statement runs. *)
Definition execute_select (engine : sqlite_engine) (q : select_papers) (db : database)
    : result (list paper_row) :=
  _ ← bind_optional_int (where_year q);
  apply_limit (limit_clause q)
    (order_by_created_at_desc engine q
       (filter (λ row, matches q row = true) (papers db))).

Definition get_papers (engine : sqlite_engine) (conference_ : option string)
    (year_ : option Z) (limit : option Z) (db : database) : result (list paper_row) :=
  execute_select engine (build_query conference_ year_ limit) db.

(** The ids of the rows that a query returns. *)
Definition row_ids (r : result (list paper_row)) : result (list Z) :=
  match r with
  | Return rows => Return (row_id <$> rows)
  | Raise e => Raise e
  end.

(** ** DatabaseManager.get_statistics *)

Record statistics := {
  total_papers : Z;
  by_conference : gmap string Z;
  last_update : option timestamp;
}.

(** [SELECT COUNT( * ) FROM papers]. *)
Definition count_rows {A} (rows : list A) : Z := Z.of_nat (length rows).

(** [SELECT conference, COUNT( * ) FROM papers GROUP BY conference]. *)
Definition group_by_conference (rows : list paper_row) : list (string * Z) :=
  (λ c, (c, count_rows (filter (λ row, row_conference row = c) rows)))
    <$> remove_dups (row_conference <$> rows).

(** [SELECT MAX(created_at) FROM papers]: NULL over no rows. *)
Definition max_created_at (rows : list paper_row) : option timestamp :=
  foldr (λ row acc, Some (match acc with
                          | Some m => Z.max (row_created_at row) m
                          | None => row_created_at row
                          end)) None rows.

Definition get_statistics (db : database) : statistics :=
  {| total_papers := count_rows (papers db);
     by_conference := list_to_map (group_by_conference (papers db));
     last_update := max_created_at (papers db) |}.

(** ** BaseCrawler.fetch_page *)

(** What the network saw, in order: calls of [requests.get] and of
    [time.sleep]. *)
Inductive event :=
  | EvGet (url : string)
  | EvSleep (seconds : Z).

(** The number of calls of [requests.get] so far and the events so far. *)
Record network := {
  sent : nat;
  trace : list event;
}.

(** What a call of [requests.get] does: it raises, a request exception
    of the transport or any other exception (such as the [ValueError] for a
    timeout that is not positive), or it returns a response with its status
    code and body. *)
Inductive http_result :=
  | Raises (e : exn)
  | Response (status_code : Z) (text : string).

(** A failure of the transport. *)
Definition TransportFailure (msg : string) : http_result :=
  Raises (RequestException msg).

(** The longest sleep, in seconds: CPython turns the length into a 64-bit
    count of nanoseconds. *)
Definition SLEEP_MAX : Z := 9223372036.

(** [time.sleep(seconds)]: a length beyond the range is an
    [OverflowError], a negative length in range a [ValueError]. *)
Definition sleep_too_long : exn :=
  OverflowError "timestamp too large to convert to C _PyTime_t".

Definition sleep_negative : exn := ValueError "sleep length must be non-negative".

Definition time_sleep (seconds : Z) (n : network) : result unit * network :=
  if (seconds <? - SLEEP_MAX) || (SLEEP_MAX <? seconds)
  then (Raise sleep_too_long, n)
  else if seconds <? 0
  then (Raise sleep_negative, n)
  else (Return (), {| sent := sent n; trace := trace n ++ [EvSleep seconds] |}).

(** [range(n)]. *)
Definition range (n : Z) : list Z := Z.of_nat <$> seq 0 (Z.to_nat n).

Section Fetcher.
(** The remote side and the library: what the [i]-th call of
    [requests.get] does, for each URL. *)
Variable transport : nat → string → http_result.
(** [self.retry_times] and [self.delay]. *)
Variable retry_times : Z.
Variable delay : Z.

Definition requests_get (url : string) (n : network) : http_result * network :=
  (transport (sent n) url,
   {| sent := S (sent n); trace := trace n ++ [EvGet url] |}).

(** [response.raise_for_status()]: 4xx and 5xx raise [HTTPError]. *)
Definition raise_for_status (status_code : Z) : result unit :=
  if (400 <=? status_code) && (status_code <? 600)
  then Raise (HTTPError status_code)
  else Return ().

(** The body of the [try] block. *)
Definition try_fetch (url : string) (n : network) : result string * network :=
  match requests_get url n with
  | (Raises e, n1) => (Raise e, n1)
  | (Response status_code text, n1) =>
      match raise_for_status status_code with
      | Raise e => (Raise e, n1)
      | Return _ =>
          match time_sleep delay n1 with
          | (Raise e, n2) => (Raise e, n2)
          | (Return _, n2) => (Return text, n2)
          end
      end
  end.

(** The [for attempt in range(self.retry_times)] loop with its
    [except requests.RequestException] handler. *)
Fixpoint fetch_loop (url : string) (attempts : list Z) (n : network)
    : result string * network :=
  match attempts with
  | [] => (Return EmptyString, n)
  | attempt :: rest =>
      match try_fetch url n with
      | (Return text, n1) => (Return text, n1)
      | (Raise e, n1) =>
          if is_RequestException e then
            if attempt <? retry_times - 1 then
              match time_sleep (2 ^ attempt) n1 with
              | (Raise e', n2) => (Raise e', n2)
              | (Return _, n2) => fetch_loop url rest n2
              end
            else (Raise e, n1)
          else (Raise e, n1)
      end
  end.

Definition fetch_page (url : string) (n : network) : result string * network :=
  fetch_loop url (range retry_times) n.
End Fetcher.

(** ** CrawlerManager *)

(** A crawler object: [crawl(year)] uses the network and returns the
    papers it found, or raises. *)
Definition crawler : Type := Z → network → result (list PaperData) * network.

Record CrawlerManager := {
  crawlers : gmap string (list crawler);
}.

(** Everything [crawl_conference] acts on: the database file, the network
    and the number of clock readings taken so far. *)
Record world := {
  db : database;
  net : network;
  ticks : nat;
}.

(** The [for crawler in crawlers] loop: an exception of a crawler is
    logged and the loop goes on. *)
Fixpoint run_crawlers (cs : list crawler) (year_ : Z) (all_papers : list PaperData)
    (n : network) : list PaperData * network :=
  match cs with
  | [] => (all_papers, n)
  | crawler_ :: rest =>
      match crawler_ year_ n with
      | (Return papers_, n1) => run_crawlers rest year_ (all_papers ++ papers_) n1
      | (Raise _, n1) => run_crawlers rest year_ all_papers n1
      end
  end.

Section Manager.
(** The clocks: what the [i]-th reading yields. *)
Variable clock : nat → clock_reading.

(** [crawl_conference]. The name is a string or, out of a configuration
    with [name: null], [None]. An exception of the deduplicator or of
    [log_crawl_history] leaves the function; the upserts made before it
    stay. *)
Definition crawl_conference (self : CrawlerManager) (conference_name : option string)
    (year_ : Z) (w : world) : result unit * world :=
  let cs := default [] (conference_name ≫= λ c, crawlers self !! c) in
  let '(all_papers, n1) := run_crawlers cs year_ [] (net w) in
  match _deduplicate_papers all_papers with
  | Raise e => (Raise e, {| db := db w; net := n1; ticks := ticks w |})
  | Return unique_papers =>
      match unique_papers with
      | _ :: _ =>
          let '(saved_count, db1) :=
            insert_papers_batch (λ i, clock (ticks w + i)%nat) unique_papers (db w) in
          let t := (ticks w + length unique_papers)%nat in
          match log_crawl_history (clock t) conference_name year_ saved_count
                  "success" None db1 with
          | Return db2 => (Return (), {| db := db2; net := n1; ticks := S t |})
          | Raise e => (Raise e, {| db := db1; net := n1; ticks := t |})
          end
      | [] =>
          match log_crawl_history (clock (ticks w)) conference_name year_ 0
                  "empty" None (db w) with
          | Return db2 => (Return (), {| db := db2; net := n1; ticks := S (ticks w) |})
          | Raise e => (Raise e, {| db := db w; net := n1; ticks := ticks w |})
          end
      end
  end.
End Manager.

(** ** CrawlerManager.crawl_all *)

(** The value under the key [years] of an entry: a sequence of integers
    or, by mistake, a single integer. *)
Inductive years_value :=
  | YearsScalar (year_ : Z)
  | YearsList (years_ : list Z).

(** One entry of the list [conferences] of the configuration file: a
    mapping in which each of the keys [name], [enabled] and [years] may be
    absent, null, or bound to a value. *)
Record conference_config := {
  name : entry string;
  enabled : entry bool;
  years : entry years_value;
}.

(** [conf.get("enabled", True)] as a truth value: null counts as false. *)
Definition is_enabled (conf : conference_config) : bool :=
  match enabled conf with
  | Missing => true
  | Bound v => default false v
  end.

(** What [for year in conf.get("years", [])] iterates over: null and a
    single integer cannot be iterated. *)
Definition iterate_years (conf : conference_config) : result (list Z) :=
  match years conf with
  | Missing => Return []
  | Bound None => Raise (TypeError "'NoneType' object is not iterable")
  | Bound (Some (YearsScalar _)) => Raise (TypeError "'int' object is not iterable")
  | Bound (Some (YearsList years_)) => Return years_
  end.

Section ManagerAll.
(** The clocks: what the [i]-th reading yields. *)
Variable clock : nat → clock_reading.

(** The [for year in years] loop: an exception out of [crawl_conference]
    is logged and the loop goes on. *)
Fixpoint crawl_years (self : CrawlerManager) (name_ : option string)
    (years_ : list Z) (w : world) : world :=
  match years_ with
  | [] => w
  | year_ :: rest =>
      crawl_years self name_ rest (crawl_conference clock self name_ year_ w).2
  end.

(** The [for conf in conferences] loop; [conf["name"]] is read and the
    iteration over the years is started outside the [try]. *)
Fixpoint crawl_all_loop (self : CrawlerManager) (conferences : list conference_config)
    (w : world) : result unit * world :=
  match conferences with
  | [] => (Return (), w)
  | conf :: rest =>
      if negb (is_enabled conf)
      then crawl_all_loop self rest w
      else
        match getitem "name" (name conf) with
        | Raise e => (Raise e, w)
        | Return name_ =>
            match iterate_years conf with
            | Raise e => (Raise e, w)
            | Return years_ =>
                crawl_all_loop self rest (crawl_years self name_ years_ w)
            end
        end
  end.

(** [crawl_all], given the key [conferences] of the configuration: absent
    (the default is the empty list), null, or a list of entries. *)
Definition crawl_all (self : CrawlerManager)
    (conferences : entry (list conference_config)) (w : world) : result unit * world :=
  match conferences with
  | Missing => (Return (), w)
  | Bound None => (Raise (TypeError "'NoneType' object is not iterable"), w)
  | Bound (Some entries) => crawl_all_loop self entries w
  end.
End ManagerAll.

(** ** BaseCrawler.__init__ and the crawler classes *)

(** The attributes of a crawler object. *)
Record BaseCrawler := {
  self_conference_name : string;
  self_timeout : Z;
  self_retry_times : Z;
  self_delay : Z;
}.

(** [BaseCrawler.__init__]: [config or {}], then each setting with its
    default. *)
Definition BaseCrawler_init (conference_name : string)
    (config : option (gmap string Z)) : BaseCrawler :=
  let config_ := default ∅ config in
  {| self_conference_name := conference_name;
     self_timeout := default 30 (config_ !! "request_timeout");
     self_retry_times := default 3 (config_ !! "retry_times");
     self_delay := default 1 (config_ !! "delay_between_requests") |}.

(** [needle in s] on strings. *)
Fixpoint contains (needle s : string) : bool :=
  String.prefix needle s
  || match s with
     | EmptyString => false
     | String _ rest => contains needle rest
     end.

(** [s.lower()], on the ASCII letters. *)
Definition ascii_lower (a : Ascii.ascii) : Ascii.ascii :=
  let code := Ascii.N_of_ascii a in
  if ((65 <=? code) && (code <=? 90))%N then Ascii.ascii_of_N (code + 32) else a.

Fixpoint lower (s : string) : string :=
  match s with
  | EmptyString => EmptyString
  | String a rest => String (ascii_lower a) (lower rest)
  end.

(** The arguments of [find] and [find_all] that the crawlers use: a tag
    name alone, with a class, with an [itemprop], or with a test of the
    [href] attribute. *)
Inductive selector :=
  | by_tag (tag : string)
  | by_class (tag class_ : string)
  | by_itemprop (tag itemprop : string)
  | by_href (tag : string) (test : option string → bool).

(** [lambda x: x and needle in x]. *)
Definition href_contains (needle : string) : option string → bool :=
  λ x, match x with
       | Some href => negb (bool_decide (href = EmptyString)) && contains needle href
       | None => false
       end.

(** [lambda x: x and needle in str(x).lower()]. *)
Definition href_lower_contains (needle : string) : option string → bool :=
  λ x, match x with
       | Some href =>
           negb (bool_decide (href = EmptyString)) && contains needle (lower href)
       | None => false
       end.

(** The part of BeautifulSoup that the crawlers call: the parser, the
    search below an element, the stripped text of an element and the value
    of an attribute. *)
Record html_library := {
  element : Type;
  parse_html : string → element;
  find_all : selector → element → list element;
  get_text : element → string;
  attr : string → element → option string;
}.

(** [tag.find(...)]: the first match, or [None]. *)
Definition find (bs : html_library) (sel : selector) (e : element bs)
    : option (element bs) :=
  head (find_all bs sel e).

(** The dictionary literal that every crawler returns. *)
Definition paper_dict (title_ authors_ conference_ : option string) (year_ : Z)
    (abstract_ pdf_url_ paper_url_ doi_ : option string) : PaperData :=
  {| title := Bound title_; authors := Bound authors_;
     conference := Bound conference_; year := Bound (Some year_);
     abstract := Bound abstract_; pdf_url := Bound pdf_url_;
     paper_url := Bound paper_url_; doi := Bound doi_ |}.

Section Crawlers.
Variable bs : html_library.
Variable transport : nat → string → http_result.

(** [DBLPCrawler.crawl]: the URL chosen by the conference name. *)
Definition dblp_url (conference_name : string) (year_ : Z) : option string :=
  if decide (conference_name = "NDSS")
  then Some ("https://dblp.org/db/conf/ndss/ndss" +:+ pretty year_ +:+ ".html")
  else if decide (conference_name = "USENIX Security")
  then Some ("https://dblp.org/db/conf/uss/uss" +:+ pretty year_ +:+ ".html")
  else if decide (conference_name = "CCS")
  then Some ("https://dblp.org/db/conf/ccs/ccs" +:+ pretty year_ +:+ ".html")
  else if decide (conference_name = "S&P")
  then Some ("https://dblp.org/db/conf/sp/sp" +:+ pretty year_ +:+ ".html")
  else None.

(** The loop over [ee_tags] that looks for a PDF link. *)
Fixpoint first_pdf_href (ee_tags : list (element bs)) : option string :=
  match ee_tags with
  | [] => None
  | ee_tag :: rest =>
      let href := default EmptyString (attr bs "href" ee_tag) in
      if contains ".pdf" href then Some href else first_pdf_href rest
  end.

(** [DBLPCrawler._parse_entry]. *)
Definition dblp_parse_entry (self : BaseCrawler) (entry : element bs) (year_ : Z)
    : option PaperData :=
  let title_tag := find bs (by_class "span" "title") entry in
  let title_ := get_text bs <$> title_tag in
  if negb (truthy_str title_) then None
  else
    let author_tags := find_all bs (by_itemprop "span" "author") entry in
    let authors_ :=
      omap (λ author_tag,
              get_text bs <$> find bs (by_itemprop "span" "name") author_tag)
        author_tags in
    let ee_tags := find_all bs (by_class "a" "ee") entry in
    let pdf_url_ := first_pdf_href ee_tags in
    let paper_url_ := head ee_tags ≫= attr bs "href" in
    let doi_tag := find bs (by_href "a" (href_contains "doi.org")) entry in
    let doi_ := doi_tag ≫= attr bs "href" in
    Some (paper_dict title_ (Some (String.concat ", " authors_))
            (Some (self_conference_name self)) year_ None pdf_url_ paper_url_ doi_).

(** The body shared by the crawlers: fetch the page, parse every item
    found on it and keep the records; any exception is logged and the
    papers gathered so far, none, are returned. *)
Definition crawl_page (self : BaseCrawler) (url : string) (items : selector)
    (parse_item : element bs → option PaperData) : network → result (list PaperData) * network :=
  λ n,
    match fetch_page transport (self_retry_times self) (self_delay self) url n with
    | (Return html, n1) =>
        (Return (omap parse_item (find_all bs items (parse_html bs html))), n1)
    | (Raise _, n1) => (Return [], n1)
    end.

(** [DBLPCrawler.crawl]. *)
Definition DBLPCrawler_crawl (self : BaseCrawler) : crawler :=
  λ year_ n,
    match dblp_url (self_conference_name self) year_ with
    | None => (Return [], n)
    | Some url =>
        crawl_page self url (by_class "li" "entry")
          (λ entry, dblp_parse_entry self entry year_) n
    end.

(** [NDSSCrawler._parse_paper] and [NDSSCrawler.crawl]. *)
Definition ndss_parse_paper (item : element bs) (year_ : Z) : option PaperData :=
  let title_ := get_text bs <$> find bs (by_tag "h4") item in
  let authors_ := get_text bs <$> find bs (by_class "p" "authors") item in
  let pdf_link := find bs (by_href "a" (href_contains ".pdf")) item in
  let pdf_url_ := pdf_link ≫= attr bs "href" in
  if truthy_str title_
  then Some (paper_dict title_ authors_ (Some "NDSS") year_ None pdf_url_ None None)
  else None.

Definition ndss_url (year_ : Z) : string :=
  "https://www.ndss-symposium.org/ndss" +:+ pretty year_ +:+ "/accepted-papers/".

Definition NDSSCrawler_crawl (self : BaseCrawler) : crawler :=
  λ year_ n,
    crawl_page self (ndss_url year_) (by_class "div" "paper")
      (λ item, ndss_parse_paper item year_) n.

(** [USENIXSecurityCrawler._parse_paper] and [USENIXSecurityCrawler.crawl]. *)
Definition usenix_parse_paper (item : element bs) (year_ : Z) : option PaperData :=
  let title_tag :=
    match find bs (by_tag "h4") item with
    | Some tag => Some tag
    | None => find bs (by_tag "h3") item
    end in
  let title_ := get_text bs <$> title_tag in
  let authors_ :=
    get_text bs <$> find bs (by_class "div" "field-name-field-person-public-name") item in
  let abstract_ := get_text bs <$> find bs (by_class "div" "field-name-body") item in
  let pdf_link := find bs (by_href "a" (href_lower_contains "presentation")) item in
  let paper_url_ :=
    match pdf_link ≫= attr bs "href" with
    | Some href =>
        if bool_decide (href = EmptyString) then None
        else Some ("https://www.usenix.org" +:+ href)
    | None => None
    end in
  if truthy_str title_
  then Some (paper_dict title_ authors_ (Some "USENIX Security") year_ abstract_
               None paper_url_ None)
  else None.

Definition usenix_url (year_ : Z) : string :=
  "https://www.usenix.org/conference/usenixsecurity" +:+ pretty (year_ `mod` 100)
    +:+ "/technical-sessions".

Definition USENIXSecurityCrawler_crawl (self : BaseCrawler) : crawler :=
  λ year_ n,
    crawl_page self (usenix_url year_) (by_class "div" "views-row")
      (λ item, usenix_parse_paper item year_) n.

(** [CCSCrawler.crawl]: nothing but a log line. *)
Definition CCSCrawler_crawl (self : BaseCrawler) : crawler :=
  λ year_ n, (Return [], n).

(** [SPCrawler._parse_paper] and [SPCrawler.crawl]. *)
Definition sp_parse_paper (item : element bs) (year_ : Z) : option PaperData :=
  let title_ := get_text bs <$> find bs (by_class "span" "title") item in
  let authors_ := get_text bs <$> find bs (by_class "span" "authors") item in
  let pdf_link := find bs (by_href "a" (href_contains ".pdf")) item in
  let pdf_url_ := pdf_link ≫= attr bs "href" in
  if truthy_str title_
  then Some (paper_dict title_ authors_ (Some "S&P") year_ None pdf_url_ None None)
  else None.

Definition sp_url (year_ : Z) : string :=
  "https://www.ieee-security.org/TC/SP" +:+ pretty year_ +:+ "/program-papers.html".

Definition SPCrawler_crawl (self : BaseCrawler) : crawler :=
  λ year_ n,
    crawl_page self (sp_url year_) (by_class "div" "paper")
      (λ item, sp_parse_paper item year_) n.

End Crawlers.

(** ** Specification-side definitions *)

(** A paper record in the sense of the data model: the three key fields
    are present in the dictionary. *)
Definition has_key_fields (paper : PaperData) : Prop :=
  title paper ≠ Missing ∧ conference paper ≠ Missing ∧ year paper ≠ Missing.

(** The key (title, conference, year) of a paper record. *)
Definition key_of (paper : PaperData) : dedup_key :=
  (get (title paper), get (conference paper), get (year paper)).

(** The subsequence of first occurrences: a record is kept exactly when
    its key does not occur among the records before it. *)
Fixpoint first_occurrences_after (before papers_ : list PaperData) : list PaperData :=
  match papers_ with
  | [] => []
  | paper :: rest =>
      (if decide (key_of paper ∈ key_of <$> before) then [] else [paper])
        ++ first_occurrences_after (before ++ [paper]) rest
  end.

Definition first_occurrences (papers_ : list PaperData) : list PaperData :=
  first_occurrences_after [] papers_.

(** A record that the [NOT NULL] columns accept: title, conference and
    year are bound to values. *)
Definition storable (paper : PaperData) : Prop :=
  is_Some (get (title paper)) ∧ is_Some (get (conference paper))
  ∧ is_Some (get (year paper)).

#[global] Instance entry_eq_dec {A} `{EqDecision A} : EqDecision (entry A).
Proof. solve_decision. Defined.

#[global] Instance has_key_fields_dec paper : Decision (has_key_fields paper).
Proof. unfold has_key_fields. apply _. Defined.

#[global] Instance storable_dec paper : Decision (storable paper).
Proof. unfold storable. apply _. Defined.

(** The constraint [UNIQUE(title, conference, year)] on table [papers]. *)
Definition papers_unique (db : database) : Prop :=
  NoDup (row_key <$> papers db).

(** A dictionary as the DBLP crawler builds it. *)
Definition dblp_paper (t a c : string) (y : Z) : PaperData :=
  {| title := Bound (Some t); authors := Bound (Some a);
     conference := Bound (Some c); year := Bound (Some y);
     abstract := Bound None; pdf_url := Bound None;
     paper_url := Bound None; doi := Bound None |}.

(** Three crawled records, the third repeating the key of the first. *)
Definition sample_papers : list PaperData :=
  [dblp_paper "X" "A" "CCS" 2023; dblp_paper "Y" "A" "CCS" 2023;
   dblp_paper "X" "B" "CCS" 2023].

(** A stored row, as left by an upsert and a later download step. *)
Definition stored_row (rowid : Z) (t a c : string) (y : Z) `{!InInt64 y}
    (local : option string) (created : timestamp) : paper_row :=
  {| row_id := rowid; row_title := t; row_authors := Some a;
     row_conference := c; row_year := to_int64 y; row_abstract := None;
     row_pdf_url := None; row_paper_url := None; row_doi := None;
     row_downloaded := bool_decide (local ≠ None); row_local_path := local;
     row_created_at := created; row_updated_at := created |}.

(** A store with two papers, the older one downloaded, the newer one
    carrying year 0 and an empty conference name. *)
Definition sample_db : database :=
  {| papers := [stored_row 1 "X" "A" "CCS" 2023 (Some "papers/x.pdf") 10;
                stored_row 2 "Y" "A" EmptyString 0 None 20];
     papers_seq := 2; crawl_history := []; crawl_history_seq := 0 |}.

Definition sample_clock : clock_reading :=
  {| datetime_now := 100; CURRENT_TIMESTAMP := 90 |}.

(** A dictionary whose title is bound to [None]. *)
Definition untitled_paper : PaperData :=
  {| title := Bound None; authors := Bound (Some "A");
     conference := Bound (Some "CCS"); year := Bound (Some 2023);
     abstract := Bound None; pdf_url := Bound None;
     paper_url := Bound None; doi := Bound None |}.

(** The request error with which an attempt fails, the one that the
    handler catches: a request exception out of [requests.get], or the
    [HTTPError] of [raise_for_status]. *)
Definition attempt_error (r : http_result) : option exn :=
  match r with
  | Raises e => if is_RequestException e then Some e else None
  | Response status_code _ =>
      match raise_for_status status_code with
      | Raise e => Some e
      | Return _ => None
      end
  end.

(** The body of an attempt that did not fail. *)
Definition attempt_body (r : http_result) : option string :=
  match r with
  | Raises _ => None
  | Response status_code text =>
      match raise_for_status status_code with
      | Raise _ => None
      | Return _ => Some text
      end
  end.

(** The events of the failed attempts [a], ..., [a + k - 1], each with
    the sleep of [2 ^ attempt] seconds that follows it. *)
Definition backoff_events (url : string) (a k : nat) : list event :=
  flat_map (λ i, [EvGet url; EvSleep (2 ^ Z.of_nat i)]) (seq a k).

(** The exception of [time.sleep] for a length, when it has one. *)
Definition sleep_error (seconds : Z) : option exn :=
  if (seconds <? - SLEEP_MAX) || (SLEEP_MAX <? seconds) then Some sleep_too_long
  else if seconds <? 0 then Some sleep_negative
  else None.

(** The network after [j] failed attempts, each followed by its backoff
    sleep, and one more call of [requests.get]. *)
Definition after_attempts (url : string) (n : network) (j : nat) : network :=
  {| sent := sent n + S j; trace := trace n ++ backoff_events url 0 j ++ [EvGet url] |}.

(** The same, followed by the politeness sleep. *)
Definition after_success (url : string) (delay : Z) (n : network) (j : nat) : network :=
  {| sent := sent n + S j;
     trace := trace n ++ backoff_events url 0 j ++ [EvGet url; EvSleep delay] |}.




(** A network on which nothing happened yet. *)
Definition idle_network : network := {| sent := 0; trace := [] |}.

(** A remote side that refuses every connection. *)
Definition unreachable : nat → string → http_result :=
  λ _ _, TransportFailure "connection refused".

(** A remote side that answers 503 twice and then serves the page. *)
Definition flaky : nat → string → http_result :=
  λ i _, if (i <? 2)%nat then Response 503 "Service Unavailable" else Response 200 "<html/>".

(** The registry built by [CrawlerManager.__init__], given the crawler
    objects: the DBLP crawler of each conference and the three site
    crawlers. *)
Definition CrawlerManager_init (dblp : string → crawler)
    (ndss usenix sp : crawler) : CrawlerManager :=
  {| crawlers :=
       <["NDSS" := [dblp "NDSS"; ndss]]>
       (<["USENIX Security" := [dblp "USENIX Security"; usenix]]>
       (<["CCS" := [dblp "CCS"]]>
       (<["S&P" := [dblp "S&P"; sp]]> ∅))) |}.

(** The papers that the registered crawlers of a conference return. *)
Definition crawled_papers (self : CrawlerManager) (conference_name : string)
    (year_ : Z) (n : network) : list PaperData :=
  (run_crawlers (default [] (crawlers self !! conference_name)) year_ [] n).1.



(** A crawler that uses no network and returns the given papers. *)
Definition offline_crawler (found : list PaperData) : crawler :=
  λ _ n, (Return found, n).

(** A manager with the four conferences of the program registered. *)
Definition sample_manager : CrawlerManager :=
  CrawlerManager_init (λ c, offline_crawler [dblp_paper "X" "A" c 2023])
    (offline_crawler []) (offline_crawler []) (offline_crawler []).

Definition sample_clocks : nat → clock_reading :=
  λ i, {| datetime_now := Z.of_nat i; CURRENT_TIMESTAMP := Z.of_nat i |}.

Definition sample_world : world :=
  {| db := init_database; net := idle_network; ticks := 0 |}.

(** The natural key under which the store files a record, when it takes
    it: title, conference and year are bound to values and the year fits
    64 bits. *)
Definition stored_key (paper : PaperData) : option natural_key :=
  match get (title paper), get (conference paper), get (year paper) with
  | Some t, Some c, Some y => if fits_int64 y then Some (t, c, y) else None
  | _, _, _ => None
  end.

(** A record that the upsert accepts. *)
Definition accepted (paper : PaperData) : Prop := is_Some (stored_key paper).

#[global] Instance accepted_dec paper : Decision (accepted paper).
Proof. unfold accepted. apply _. Defined.

(** The primary keys of both tables are pairwise distinct and the
    [UNIQUE] constraint of [papers] holds. *)
Definition store_wf (db : database) : Prop :=
  papers_unique db
  ∧ NoDup (row_id <$> papers db)
  ∧ NoDup (h_id <$> crawl_history db).

(** The distinct keys among [ks] that table [papers] does not hold yet. *)
Definition new_keys (ks : list natural_key) (db : database) : gset natural_key :=
  list_to_set ks ∖ list_to_set (row_key <$> papers db).

(** The sum of the per-conference counts of the statistics. *)
Definition sum_counts (counts : gmap string Z) : Z :=
  foldr (λ kv acc, kv.2 + acc) 0 (map_to_list counts).

(** The URLs requested by a run of events, in order. *)
Definition requested (evs : list event) : list string :=
  omap (λ ev, match ev with EvGet url => Some url | EvSleep _ => None end) evs.



(** The (name, year) pairs that [crawl_all] hands to [crawl_conference]:
    those of the enabled entries, in order, up to the entry that stops
    it. *)
Fixpoint scheduled_pairs (conferences : list conference_config)
    : list (option string * Z) :=
  match conferences with
  | [] => []
  | conf :: rest =>
      if negb (is_enabled conf) then scheduled_pairs rest
      else
        match getitem "name" (name conf), iterate_years conf with
        | Return name_, Return years_ =>
            ((λ year_, (name_, year_)) <$> years_) ++ scheduled_pairs rest
        | _, _ => []
        end
  end.

(** The pair under which an attempt can be logged: the name is a string
    and the year fits 64 bits. *)
Definition loggable (pair : option string * Z) : option (string * Z) :=
  match pair with
  | (Some conference_name, year_) =>
      if fits_int64 year_ then Some (conference_name, year_) else None
  | (None, _) => None
  end.

(** The conference and year a crawl attempt was logged for. *)
Definition attempt_pair (row : crawl_row) : string * Z :=
  (h_conference row, int64_value (h_year row)).

(** A configuration like the one shipped: three conferences, one disabled. *)
Definition sample_conferences : list conference_config :=
  [{| name := Bound (Some "CCS"); enabled := Bound (Some true);
      years := Bound (Some (YearsList [2022; 2023])) |};
   {| name := Bound (Some "NDSS"); enabled := Bound (Some false);
      years := Bound (Some (YearsList [2023])) |};
   {| name := Bound (Some "S&P"); enabled := Missing;
      years := Bound (Some (YearsList [2023])) |}].

(** A configuration with a year beyond 64 bits, an entry whose name is
    null, and an entry whose years are a single integer. *)
Definition odd_conferences : list conference_config :=
  [{| name := Bound (Some "CCS"); enabled := Missing;
      years := Bound (Some (YearsList [2023; 9223372036854775808])) |};
   {| name := Bound None; enabled := Missing;
      years := Bound (Some (YearsList [2023])) |};
   {| name := Bound (Some "NDSS"); enabled := Missing;
      years := Bound (Some (YearsScalar 2023)) |};
   {| name := Bound (Some "S&P"); enabled := Missing;
      years := Bound (Some (YearsList [2023])) |}].

(** The store [db'] extends the store [db]: the crawl log has only grown
    at its end, every paper key is still there, and well-formedness is
    kept. *)
Definition store_extends (db db' : database) : Prop :=
  crawl_history db `prefix_of` crawl_history db'
  ∧ (∀ t c y, paper_exists t c y db = Return true → paper_exists t c y db' = Return true)
  ∧ total_papers (get_statistics db) ≤ total_papers (get_statistics db')
  ∧ (store_wf db → store_wf db').

(** Every list of records that the crawler returns for a year consists
    of records with the property [P] of that year. *)
Definition returns_records (P : Z → PaperData → Prop) (crawler_ : crawler) : Prop :=
  ∀ (year_ : Z) (n : network),
    match (crawler_ year_ n).1 with
    | Return found => Forall (P year_) found
    | Raise _ => True
    end.

(** A crawler that found one record without the key "year". *)
Definition yearless_manager : CrawlerManager :=
  {| crawlers :=
       <["CCS" := [offline_crawler
                     [{| title := Bound (Some "X"); authors := Bound (Some "A");
                         conference := Bound (Some "CCS"); year := Missing;
                         abstract := Bound None; pdf_url := Bound None;
                         paper_url := Bound None; doi := Bound None |}]]]> ∅ |}.

(** The row holds the record: it is filed under the record's key and
    its authors, abstract, pdf_url, paper_url and doi are the record's. *)
Definition holds_record (row : paper_row) (paper : PaperData) : Prop :=
  stored_key paper = Some (row_key row)
  ∧ row_authors row = get (authors paper)
  ∧ row_abstract row = get (abstract paper)
  ∧ row_pdf_url row = get (pdf_url paper)
  ∧ row_paper_url row = get (paper_url paper)
  ∧ row_doi row = get (doi paper).

(** The registry that [CrawlerManager.__init__] builds from the section
    [crawler] of the configuration. *)
Definition registered_crawlers (bs : html_library)
    (transport : nat → string → http_result)
    (crawler_config : option (gmap string Z)) : CrawlerManager :=
  CrawlerManager_init
    (λ c, DBLPCrawler_crawl bs transport (BaseCrawler_init c crawler_config))
    (NDSSCrawler_crawl bs transport (BaseCrawler_init "NDSS" crawler_config))
    (USENIXSecurityCrawler_crawl bs transport
       (BaseCrawler_init "USENIX Security" crawler_config))
    (SPCrawler_crawl bs transport (BaseCrawler_init "S&P" crawler_config)).

(** A record as the crawlers build it for a conference and a year: all
    eight keys are present, the title is a non-empty string, and the
    conference and the year are the given ones. *)
Definition crawled_record (conference_name : string) (year_ : Z)
    (paper : PaperData) : Prop :=
  (∃ t, t ≠ EmptyString ∧ title paper = Bound (Some t))
  ∧ conference paper = Bound (Some conference_name)
  ∧ year paper = Bound (Some year_)
  ∧ authors paper ≠ Missing ∧ abstract paper ≠ Missing ∧ pdf_url paper ≠ Missing
  ∧ paper_url paper ≠ Missing ∧ doi paper ≠ Missing.

(** A stand-in for the HTML library: a page lists two items, each item
    shows its own name as title and links to a PDF of that name. *)
Definition sample_html : html_library :=
  {| element := string;
     parse_html := λ html, html;
     find_all := λ sel e,
       match sel with
       | by_class "li" "entry" | by_class "div" "paper" | by_class "div" "views-row" =>
           ["Paper One"; "Paper Two"]
       | by_class "span" "title" | by_tag "h4" => [e]
       | by_class "a" "ee" | by_href "a" _ => ["/papers/" +:+ e +:+ ".pdf"]
       | _ => []
       end;
     get_text := λ e, e;
     attr := λ attr_name e, if bool_decide (attr_name = "href") then Some e else None |}.

(** A remote side that serves every page at once. *)
Definition reachable : nat → string → http_result :=
  λ _ _, Response 200 "<html/>".


(** The entries of a DBLP page that carry a title. *)
Definition titled (bs : html_library) (entry : element bs) : Prop :=
  truthy_str (get_text bs <$> find bs (by_class "span" "title") entry) = true.

#[global] Instance titled_dec bs entry : Decision (titled bs entry).
Proof. unfold titled. apply _. Defined.

(** The names of the authors of a DBLP entry: the text of the name
    element of each author element that has one, in page order. *)
Definition author_names (bs : html_library) (entry : element bs) : list string :=
  omap (λ author_tag, get_text bs <$> find bs (by_itemprop "span" "name") author_tag)
    (find_all bs (by_itemprop "span" "author") entry).


(** * Properties of the deduplicator *)

(** A filter keeps a list whose elements all pass it. *)
Lemma filter_Forall_id {A} (P : A → Prop) `{∀ x, Decision (P x)} (l : list A) :
  Forall P l → filter P l = l.
Proof.
  induction 1 as [|x l Hx _ IH]; [done|].
  rewrite filter_cons_True by done. by rewrite IH.
Qed.

Section Deduplicator.
Implicit Types (paper : PaperData) (before unique : list PaperData).
Implicit Types (seen : gset dedup_key).

Lemma paper_key_Return paper :
  has_key_fields paper → paper_key paper = Return (key_of paper).
Proof.
  intros (Ht & Hc & Hy). unfold paper_key, key_of.
  destruct (title paper), (conference paper), (year paper); done.
Qed.

Lemma paper_key_Return_inv paper k :
  paper_key paper = Return k → has_key_fields paper ∧ k = key_of paper.
Proof.
  unfold paper_key, key_of, has_key_fields.
  destruct (title paper), (conference paper), (year paper); simpl; try done.
  intros [= <-]. done.
Qed.

(** The loop invariant: [seen] holds the keys of the records read so
    far, and [unique] grows by the first occurrences. *)
Lemma dedup_loop_first_occurrences papers_ : ∀ before seen unique,
  Forall has_key_fields papers_ →
  (∀ k, k ∈ seen ↔ k ∈ key_of <$> before) →
  dedup_loop papers_ seen unique
  = Return (unique ++ first_occurrences_after before papers_).
Proof.
  induction papers_ as [|paper rest IH]; intros before seen unique Hall Hseen.
  - simpl. by rewrite app_nil_r.
  - apply Forall_cons in Hall as [Hp Hrest]. simpl.
    rewrite (paper_key_Return _ Hp). simpl.
    destruct (decide (key_of paper ∈ seen)) as [Hin|Hnin].
    + rewrite decide_True by (by apply Hseen). simpl.
      apply IH; [done|]. intros k. rewrite fmap_app, elem_of_app, <- Hseen.
      simpl. rewrite list_elem_of_singleton.
      split; [by left | by intros [?| ->]].
    + rewrite decide_False by (by rewrite <- Hseen).
      rewrite (IH (before ++ [paper]) _ (unique ++ [paper])); [|done|].
      * by rewrite <- app_assoc.
      * intros k. rewrite fmap_app, elem_of_app, elem_of_union, <- Hseen.
        simpl. rewrite list_elem_of_singleton, elem_of_singleton. tauto.
Qed.

(** The loop returns only when every record carries the key fields. *)
Lemma dedup_loop_Return_inv papers_ : ∀ seen unique out,
  dedup_loop papers_ seen unique = Return out → Forall has_key_fields papers_.
Proof.
  induction papers_ as [|paper rest IH]; intros seen unique out; simpl.
  - constructor.
  - destruct (paper_key paper) as [k|e] eqn:Hk; simpl; [|done].
    apply paper_key_Return_inv in Hk as [Hp _].
    destruct (decide (k ∈ seen)); intros H%IH; by constructor.
Qed.

Lemma first_occurrences_after_sublist papers_ : ∀ before,
  first_occurrences_after before papers_ `sublist_of` papers_.
Proof.
  induction papers_ as [|paper rest IH]; intros before; simpl; [constructor|].
  destruct (decide _); simpl.
  - by apply sublist_cons.
  - by apply sublist_skip.
Qed.

Lemma first_occurrences_after_fresh papers_ : ∀ before paper,
  paper ∈ first_occurrences_after before papers_ →
  key_of paper ∉ key_of <$> before.
Proof.
  induction papers_ as [|p rest IH]; intros before paper; simpl.
  - by intros ?%elem_of_nil.
  - rewrite elem_of_app. intros [Hin|Hin].
    + destruct (decide _) as [|Hn]; [by apply elem_of_nil in Hin|].
      by apply list_elem_of_singleton in Hin as ->.
    + apply IH in Hin. rewrite fmap_app, elem_of_app in Hin. tauto.
Qed.

Lemma first_occurrences_after_NoDup papers_ : ∀ before,
  NoDup (key_of <$> first_occurrences_after before papers_).
Proof.
  induction papers_ as [|p rest IH]; intros before; simpl; [constructor|].
  destruct (decide _) as [|Hn]; simpl; [apply IH|].
  constructor; [|apply IH].
  intros (q & Hq & Hin)%list_elem_of_fmap.
  apply first_occurrences_after_fresh in Hin. apply Hin.
  rewrite fmap_app, elem_of_app. right. simpl. rewrite <- Hq. by left.
Qed.

(** No key is lost: each key of the input is among the earlier keys
    or among the keys kept. *)
Lemma first_occurrences_after_covers papers_ : ∀ before paper,
  paper ∈ papers_ →
  key_of paper ∈ key_of <$> before ∨
  key_of paper ∈ key_of <$> first_occurrences_after before papers_.
Proof.
  induction papers_ as [|p rest IH]; intros before paper; simpl.
  - by intros ?%elem_of_nil.
  - rewrite fmap_app, elem_of_app. intros [->|Hin]%elem_of_cons.
    + destruct (decide _); [by left|]. right. left. simpl. by left.
    + destruct (IH (before ++ [p]) paper Hin) as [Hb|Hk]; [|by right; right].
      rewrite fmap_app, elem_of_app in Hb. destruct Hb as [Hb|Hb]; [by left|].
      simpl in Hb. apply list_elem_of_singleton in Hb.
      destruct (decide _) as [Hd|Hd].
      * left. by rewrite Hb.
      * right. left. simpl. rewrite Hb. by left.
Qed.

(** A list whose keys are pairwise distinct and new is kept whole. *)
Lemma first_occurrences_after_id papers_ : ∀ before,
  NoDup (key_of <$> papers_) →
  (∀ paper, paper ∈ papers_ → key_of paper ∉ key_of <$> before) →
  first_occurrences_after before papers_ = papers_.
Proof.
  induction papers_ as [|p rest IH]; intros before Hnd Hfresh; simpl; [done|].
  simpl in Hnd. apply NoDup_cons in Hnd as [Hp Hnd].
  rewrite decide_False by (apply Hfresh; by left). simpl. f_equal.
  apply IH; [done|]. intros q Hq.
  rewrite fmap_app, elem_of_app. intros [Hb|Hb].
  - by apply (Hfresh q); [right|].
  - simpl in Hb. apply list_elem_of_singleton in Hb.
    apply Hp. rewrite <- Hb. by apply list_elem_of_fmap_2.
Qed.

Lemma Forall_sublist_preserved (P : PaperData → Prop) (l k : list PaperData) :
  l `sublist_of` k → Forall P k → Forall P l.
Proof.
  intros Hsub Hk. apply Forall_forall. intros x Hx.
  rewrite Forall_forall in Hk. apply Hk. by eapply sublist_subseteq.
Qed.

(** On paper records the deduplicator returns, and what it returns is
    the subsequence of first occurrences. *)
Lemma dedup_returns_first_occurrences (papers_ : list PaperData) :
  Forall has_key_fields papers_ →
  _deduplicate_papers papers_ = Return (first_occurrences papers_)
  ∧ first_occurrences papers_ `sublist_of` papers_
  ∧ NoDup (key_of <$> first_occurrences papers_).
Proof.
  intros Hall. split_and!.
  - unfold _deduplicate_papers.
    rewrite (dedup_loop_first_occurrences papers_ [] ∅ []); [done..|].
    intros k. simpl. rewrite elem_of_nil. set_solver.
  - apply first_occurrences_after_sublist.
  - apply first_occurrences_after_NoDup.
Qed.

(** The deduplicator returns exactly on the lists of paper records; on a
    dictionary that lacks a key field, [paper[...]] raises. *)
Lemma deduplicate_Return_iff (papers_ : list PaperData) :
  (∃ unique, _deduplicate_papers papers_ = Return unique)
  ↔ Forall has_key_fields papers_.
Proof.
  split.
  - intros [unique Hret]. by eapply dedup_loop_Return_inv.
  - intros Hall. exists (first_occurrences papers_).
    by apply dedup_returns_first_occurrences.
Qed.
End Deduplicator.

(** C4. On every sequence of paper records the deduplicator returns the
    subsequence of the first occurrences of each key (title, conference,
    year), in input order; so the output is no longer than the input and
    no key occurs twice in it (and no key of the input is lost). *)
Theorem deduplicate_first_occurrences (papers_ : list PaperData) :
  Forall has_key_fields papers_ →
  ∃ unique,
    _deduplicate_papers papers_ = Return unique
    ∧ unique = first_occurrences papers_
    ∧ unique `sublist_of` papers_
    ∧ (length unique ≤ length papers_)%nat
    ∧ NoDup (key_of <$> unique)
    ∧ (∀ paper, paper ∈ papers_ → key_of paper ∈ key_of <$> unique).
Proof.
  intros Hall.
  destruct (dedup_returns_first_occurrences papers_ Hall) as (Hret & Hsub & Hnd).
  exists (first_occurrences papers_). split_and!; try done.
  - by apply sublist_length.
  - intros paper Hin.
    destruct (first_occurrences_after_covers papers_ [] paper Hin) as [Hb|Hk]; [|done].
    simpl in Hb. by apply elem_of_nil in Hb.
Qed.

Lemma deduplicate_first_occurrences_witness :
  Forall has_key_fields sample_papers
  ∧ ∃ unique,
      _deduplicate_papers sample_papers = Return unique
      ∧ unique = first_occurrences sample_papers
      ∧ unique `sublist_of` sample_papers
      ∧ (length unique ≤ length sample_papers)%nat
      ∧ NoDup (key_of <$> unique)
      ∧ (∀ paper, paper ∈ sample_papers → key_of paper ∈ key_of <$> unique).
Proof.
  assert (H : Forall has_key_fields sample_papers)
    by (repeat constructor; discriminate).
  split; [exact H | apply (deduplicate_first_occurrences sample_papers H)].
Defined.

(** The deduplicator on the sample: the repeated key is dropped. *)
Example deduplicate_sample :
  _deduplicate_papers sample_papers
  = Return [dblp_paper "X" "A" "CCS" 2023; dblp_paper "Y" "A" "CCS" 2023].
Proof. vm_compute. reflexivity. Qed.

(** C5. The deduplicator is idempotent: on every sequence of paper
    records it returns a sequence that it maps to itself. *)
Theorem deduplicate_idempotent (papers_ : list PaperData) :
  Forall has_key_fields papers_ →
  ∃ unique,
    _deduplicate_papers papers_ = Return unique
    ∧ _deduplicate_papers unique = Return unique.
Proof.
  intros Hall.
  destruct (dedup_returns_first_occurrences papers_ Hall)
    as (Hret & Hsub & Hnd).
  exists (first_occurrences papers_). split; [done|].
  unfold _deduplicate_papers.
  rewrite (dedup_loop_first_occurrences _ [] ∅ []).
  - simpl. f_equal. apply first_occurrences_after_id; [done|].
    intros paper _. simpl. apply not_elem_of_nil.
  - eapply Forall_sublist_preserved; done.
  - intros k. simpl. rewrite elem_of_nil. set_solver.
Qed.

Lemma deduplicate_idempotent_witness :
  Forall has_key_fields sample_papers
  ∧ ∃ unique,
      _deduplicate_papers sample_papers = Return unique
      ∧ _deduplicate_papers unique = Return unique.
Proof.
  assert (H : Forall has_key_fields sample_papers)
    by (repeat constructor; discriminate).
  split; [exact H | apply (deduplicate_idempotent sample_papers H)].
Defined.

(** * Properties of the paper store *)

Section Storage.
Implicit Types (db : database) (row : paper_row) (rows : list paper_row).
Implicit Types (k : natural_key) (vals : insert_values) (clk : clock_reading).
Implicit Types (paper : PaperData).

Lemma fits_int64_spec (n : Z) : fits_int64 n = true ↔ INT64_MIN ≤ n ≤ INT64_MAX.
Proof. unfold fits_int64. by rewrite andb_true_iff, !Z.leb_le. Qed.

(** Two column values with the same number are the same value. *)
Lemma int64_eq (a b : int64) : int64_value a = int64_value b → a = b.
Proof.
  destruct a as [a Ha], b as [b Hb]. simpl. intros ->. f_equal. apply proof_irrel.
Qed.

Lemma int64_fits (y : int64) : fits_int64 y = true.
Proof. apply Is_true_true_1, int64_range. Qed.

Lemma bind_int_value (y : int64) : bind_int y = Return y.
Proof.
  unfold bind_int. destruct (decide _) as [H|H].
  - f_equal. by apply int64_eq.
  - destruct H. apply int64_range.
Qed.

Lemma bind_int_fits (n : Z) :
  fits_int64 n = true → ∃ y : int64, int64_value y = n ∧ bind_int n = Return y.
Proof.
  intros H%Is_true_true_2. exists {| int64_value := n; int64_range := H |}.
  split; [done|]. apply (bind_int_value {| int64_value := n; int64_range := H |}).
Qed.

Lemma bind_int_overflow (n : Z) :
  fits_int64 n = false → bind_int n = Raise int_too_large.
Proof.
  intros H. unfold bind_int. destruct (decide _) as [Hfits|_]; [|done].
  pose proof (Is_true_true_1 _ Hfits). congruence.
Qed.

Lemma bind_int_Return (n : Z) (y : int64) :
  bind_int n = Return y → int64_value y = n ∧ fits_int64 n = true.
Proof.
  destruct (fits_int64 n) eqn:Hfits.
  - destruct (bind_int_fits n Hfits) as (y' & Hy' & ->). by intros [= <-].
  - by rewrite bind_int_overflow.
Qed.

Lemma stored_key_Some paper t c y :
  stored_key paper = Some (t, c, y)
  ↔ get (title paper) = Some t ∧ get (conference paper) = Some c
    ∧ get (year paper) = Some y ∧ fits_int64 y = true.
Proof.
  unfold stored_key.
  destruct (get (title paper)), (get (conference paper)), (get (year paper)) as [y'|];
    try (split; [done | intros (? & ? & ? & ?); congruence]).
  destruct (fits_int64 y') eqn:Hfits.
  - split; [by intros [= -> -> ->] | intros (? & ? & ? & ?); congruence].
  - split; [done | intros (? & ? & ? & ?); congruence].
Qed.

(** A record is accepted when its key fields are not null and its year
    fits 64 bits. *)
Lemma accepted_storable paper :
  accepted paper ↔ storable paper ∧ ∀ y, get (year paper) = Some y → fits_int64 y = true.
Proof.
  unfold accepted, storable. split.
  - intros [[[t c] y] (Ht & Hc & Hy & Hfits)%stored_key_Some].
    rewrite Ht, Hc, Hy. split; [eauto|]. by intros ? [= <-].
  - intros (([t Ht] & [c Hc] & [y Hy]) & Hfits). exists (t, c, y).
    apply stored_key_Some. auto.
Qed.

Lemma has_key_true k row : has_key k row = true ↔ row_key row = k.
Proof. unfold has_key. by rewrite bool_decide_eq_true. Qed.

Lemma existsb_has_key k rows :
  existsb (has_key k) rows = true ↔ k ∈ row_key <$> rows.
Proof.
  induction rows as [|row rows IH]; simpl.
  - rewrite elem_of_nil. split; [discriminate | tauto].
  - rewrite orb_true_iff, elem_of_cons, IH, has_key_true. split; intros [?|?]; auto.
Qed.

Lemma do_update_key vals row : row_key (do_update vals row) = row_key row.
Proof. reflexivity. Qed.

Lemma updated_rows_keys k vals rows :
  row_key <$> updated_rows k vals rows = row_key <$> rows.
Proof.
  unfold updated_rows. rewrite <- list_fmap_compose. apply list_fmap_ext.
  intros i row _. simpl. by destruct (has_key k row).
Qed.

Lemma updated_rows_length k vals rows :
  length (updated_rows k vals rows) = length rows.
Proof. unfold updated_rows. apply length_fmap. Qed.

(** Under the [UNIQUE] constraint the update touches one position. *)
Lemma updated_rows_insert vals rows i row :
  NoDup (row_key <$> rows) →
  rows !! i = Some row →
  updated_rows (row_key row) vals rows = <[i := do_update vals row]> rows.
Proof.
  intros Hnd Hi. apply list_eq. intros j. unfold updated_rows.
  rewrite list_lookup_fmap.
  destruct (decide (i = j)) as [<-|Hne].
  - rewrite list_lookup_insert_eq by (by eapply lookup_lt_Some).
    rewrite Hi. simpl. by rewrite (proj2 (has_key_true _ _)).
  - rewrite list_lookup_insert_ne by done.
    destruct (rows !! j) as [r|] eqn:Hj; simpl; [|done].
    destruct (has_key (row_key row) r) eqn:Hk; [|done].
    apply has_key_true in Hk. exfalso. apply Hne.
    eapply (NoDup_lookup _ i j (row_key row)); [done|..];
      rewrite list_lookup_fmap.
    + by rewrite Hi.
    + rewrite Hj. simpl. by rewrite Hk.
Qed.

Lemma filter_key_absent k rows :
  k ∉ row_key <$> rows → filter (λ row, row_key row = k) rows = [].
Proof.
  induction rows as [|row rows IH]; simpl; [done|].
  rewrite not_elem_of_cons. intros [Hne Hnotin].
  rewrite filter_cons_False by done. by apply IH.
Qed.

(** Under the [UNIQUE] constraint a key that occurs, occurs once. *)
Lemma filter_key_once k rows :
  NoDup (row_key <$> rows) →
  k ∈ row_key <$> rows →
  length (filter (λ row, row_key row = k) rows) = 1%nat.
Proof.
  induction rows as [|row rows IH]; simpl.
  - by intros _ ?%elem_of_nil.
  - intros [Hnotin Hnd]%NoDup_cons Hin.
    destruct (decide (row_key row = k)) as [Heq|Hne].
    + rewrite filter_cons_True by done. simpl. f_equal.
      rewrite filter_key_absent; [done|]. by rewrite <- Heq.
    + rewrite filter_cons_False by done. apply IH; [done|].
      apply elem_of_cons in Hin as [Heq|Hin]; [by subst|done].
Qed.

(** The upsert of an accepted record: the statement runs, on the row
    with its key or as a plain insert. *)
Lemma insert_paper_accepted clk paper db t c y :
  stored_key paper = Some (t, c, y) →
  ∃ (y64 : int64) db',
    int64_value y64 = y
    ∧ insert_paper clk paper db = (true, db')
    ∧ papers db' = upserted_rows t c y64 (bind_values paper (datetime_now clk))
                     (CURRENT_TIMESTAMP clk) db
    ∧ crawl_history db' = crawl_history db
    ∧ crawl_history_seq db' = crawl_history_seq db.
Proof.
  intros (Ht & Hc & Hy & Hfits)%stored_key_Some.
  destruct (bind_int_fits y Hfits) as (y64 & Hval & Hbind).
  exists y64. unfold insert_paper, execute_upsert. simpl.
  rewrite Ht, Hc, Hy. simpl. rewrite Hbind. simpl.
  eexists. split; [done|]. split; [reflexivity|]. done.
Qed.

(** The upsert of any other record: the statement raises, at the binding
    of the year or at a [NOT NULL] column, and nothing is committed. *)
Lemma insert_paper_not_accepted clk paper db :
  stored_key paper = None → insert_paper clk paper db = (false, db).
Proof.
  unfold stored_key, insert_paper, execute_upsert. simpl.
  destruct (get (year paper)) as [y|]; simpl.
  - destruct (fits_int64 y) eqn:Hfits.
    + destruct (bind_int_fits y Hfits) as (y64 & _ & ->). simpl.
      by destruct (get (title paper)), (get (conference paper)).
    + by rewrite bind_int_overflow.
  - by destruct (get (title paper)), (get (conference paper)).
Qed.

(** After the upsert the key is in the table. *)
Lemma upserted_rows_has_key t c (y : int64) vals ts db :
  (t, c, int64_value y) ∈ row_key <$> upserted_rows t c y vals ts db.
Proof.
  unfold upserted_rows.
  destruct (existsb _ _) eqn:Hex.
  - rewrite updated_rows_keys. by apply existsb_has_key.
  - rewrite fmap_app, elem_of_app. right. simpl. by left.
Qed.

Lemma upserted_rows_length_present t c (y : int64) vals ts db :
  (t, c, int64_value y) ∈ row_key <$> papers db →
  length (upserted_rows t c y vals ts db) = length (papers db).
Proof.
  intros Hin. unfold upserted_rows.
  rewrite (proj2 (existsb_has_key _ _) Hin). apply updated_rows_length.
Qed.

(** The upsert keeps the [UNIQUE] constraint. *)
Lemma upserted_rows_unique t c (y : int64) vals ts db :
  papers_unique db → NoDup (row_key <$> upserted_rows t c y vals ts db).
Proof.
  unfold papers_unique, upserted_rows. intros Hnd.
  destruct (existsb _ _) eqn:Hex.
  - by rewrite updated_rows_keys.
  - rewrite fmap_app. apply NoDup_app. split_and!; [done| |].
    + intros k Hk. simpl. rewrite list_elem_of_singleton. intros ->.
      apply existsb_has_key in Hk. unfold row_key in Hk. simpl in Hk. congruence.
    + simpl. apply NoDup_singleton.
Qed.

Lemma insert_paper_unique clk paper db :
  papers_unique db → papers_unique (insert_paper clk paper db).2.
Proof.
  intros Hnd. destruct (stored_key paper) as [[[t c] y]|] eqn:Hkey.
  - destruct (insert_paper_accepted clk paper db t c y Hkey)
      as (y64 & db' & _ & -> & Hrows & _).
    simpl. unfold papers_unique. rewrite Hrows. by apply upserted_rows_unique.
  - by rewrite insert_paper_not_accepted.
Qed.

Lemma init_database_unique : papers_unique init_database.
Proof. constructor. Qed.
End Storage.

(** C2. In a store that meets the UNIQUE constraint, the upsert of a record
    whose (title, conference, year) equals the key of a stored row rewrites
    that row alone: authors, abstract, pdf_url, paper_url, doi and
    updated_at take the new values, while id, created_at, downloaded and
    local_path (and the key) stay; afterwards one row carries the key. *)
Theorem upsert_collision_updates_row (clk : clock_reading) (paper_data : PaperData)
    (db : database) (i : nat) (row : paper_row) :
  papers_unique db →
  papers db !! i = Some row →
  get (title paper_data) = Some (row_title row) →
  get (conference paper_data) = Some (row_conference row) →
  get (year paper_data) = Some (int64_value (row_year row)) →
  ∃ db' row',
    insert_paper clk paper_data db = (true, db')
    ∧ papers db' = <[i := row']> (papers db)
    ∧ (row_authors row' = get (authors paper_data)
       ∧ row_abstract row' = get (abstract paper_data)
       ∧ row_pdf_url row' = get (pdf_url paper_data)
       ∧ row_paper_url row' = get (paper_url paper_data)
       ∧ row_doi row' = get (doi paper_data)
       ∧ row_updated_at row' = datetime_now clk)
    ∧ (row_id row' = row_id row
       ∧ row_created_at row' = row_created_at row
       ∧ row_downloaded row' = row_downloaded row
       ∧ row_local_path row' = row_local_path row
       ∧ row_key row' = row_key row)
    ∧ length (filter (λ r, row_key r = row_key row) (papers db')) = 1%nat.
Proof.
  intros Hnd Hi Ht Hc Hy.
  assert (Hkey : stored_key paper_data = Some (row_key row)).
  { apply stored_key_Some. split_and!; [done..|]. apply int64_fits. }
  destruct (insert_paper_accepted clk paper_data db _ _ _ Hkey)
    as (y64 & db' & Hval & Hrun & Hrows & _).
  apply int64_eq in Hval. subst y64.
  assert (Hin : row_key row ∈ row_key <$> papers db).
  { apply list_elem_of_fmap_2. by eapply list_elem_of_lookup_2. }
  exists db', (do_update (bind_values paper_data (datetime_now clk)) row).
  split; [done|].
  assert (Hupd : papers db'
                 = updated_rows (row_key row)
                     (bind_values paper_data (datetime_now clk)) (papers db)).
  { rewrite Hrows. unfold upserted_rows. fold (row_key row).
    by rewrite (proj2 (existsb_has_key _ _) Hin). }
  split_and!; try done.
  - rewrite Hupd. by apply updated_rows_insert.
  - apply filter_key_once.
    + rewrite Hupd, updated_rows_keys. done.
    + rewrite Hupd, updated_rows_keys. done.
Qed.

Lemma upsert_collision_updates_row_witness :
  ∃ db' row',
    insert_paper sample_clock (dblp_paper "X" "B" "CCS" 2023) sample_db = (true, db')
    ∧ papers db' = <[0%nat := row']> (papers sample_db)
    ∧ row_authors row' = Some "B"
    ∧ row_updated_at row' = 100
    ∧ row_id row' = 1
    ∧ row_created_at row' = 10
    ∧ row_downloaded row' = true
    ∧ row_local_path row' = Some "papers/x.pdf"
    ∧ length (filter (λ r, row_key r = ("X", "CCS", 2023)) (papers db')) = 1%nat.
Proof.
  destruct (upsert_collision_updates_row sample_clock (dblp_paper "X" "B" "CCS" 2023)
              sample_db 0 (stored_row 1 "X" "A" "CCS" 2023 (Some "papers/x.pdf") 10))
    as (db' & row' & Hrun & Hrows & (Ha & _ & _ & _ & _ & Hu) & (Hid & Hcr & Hdl & Hlp & _) & Hone).
  - unfold papers_unique. apply (bool_decide_unpack _). vm_compute. exact I.
  - reflexivity.
  - reflexivity.
  - reflexivity.
  - reflexivity.
  - exists db', row'. split_and!; done.
Defined.

(** C3. Upserting a record twice in a row leaves total_papers after the
    second call as it was after the first, and the second call returns what
    the first returned: true exactly when the store accepts the record, that
    is when title, conference and year are not null and the year fits 64
    bits. Then the first call has stored a row under the record's key, and
    the second upsert meets that row (a duplicate key) and returns true. The
    upsert is a total function into the booleans: nothing is raised. *)
Theorem upsert_twice_idempotent (clk1 clk2 : clock_reading) (r : PaperData)
    (db : database) :
  let first := insert_paper clk1 r db in
  let second := insert_paper clk2 r first.2 in
  total_papers (get_statistics second.2) = total_papers (get_statistics first.2)
  ∧ second.1 = first.1
  ∧ (first.1 = true ↔ accepted r)
  ∧ (accepted r →
     first.1 = true ∧ second.1 = true
     ∧ ∃ row, row ∈ papers first.2
              ∧ (Some (row_title row), Some (row_conference row),
                 Some (int64_value (row_year row)))
                = key_of r).
Proof.
  intros first second. subst first second.
  destruct (stored_key r) as [[[t c] y]|] eqn:Hkey.
  - assert (Hacc : accepted r) by (unfold accepted; rewrite Hkey; eauto).
    destruct (insert_paper_accepted clk1 r db t c y Hkey)
      as (y64 & db1 & Hval & -> & Hrows1 & _). simpl.
    destruct (insert_paper_accepted clk2 r db1 t c y Hkey)
      as (y64' & db2 & Hval' & -> & Hrows2 & _). simpl.
    assert (y64' = y64) as -> by (apply int64_eq; congruence).
    assert (Hin : (t, c, int64_value y64) ∈ row_key <$> papers db1).
    { rewrite Hrows1. apply upserted_rows_has_key. }
    split_and!; [|done|done|].
    + unfold get_statistics, count_rows. simpl. f_equal.
      rewrite Hrows2. by apply upserted_rows_length_present.
    + intros _. split_and!; try done.
      apply list_elem_of_fmap in Hin as (row & Hk & Hrow).
      exists row. split; [done|].
      apply stored_key_Some in Hkey as (Ht & Hc & Hy & _).
      unfold key_of. rewrite Ht, Hc, Hy.
      unfold row_key in Hk. congruence.
  - assert (Hacc : ¬ accepted r).
    { unfold accepted. rewrite Hkey. by intros [? [=]]. }
    rewrite (insert_paper_not_accepted clk1 r db Hkey). simpl.
    rewrite (insert_paper_not_accepted clk2 r db Hkey). simpl.
    split_and!; [done|done| |done]. split; [done|]. intros H. by destruct Hacc.
Qed.

Lemma upsert_twice_idempotent_witness :
  let r := dblp_paper "Z" "A" "CCS" 2024 in
  let first := insert_paper sample_clock r sample_db in
  let second := insert_paper sample_clock r first.2 in
  accepted r
  ∧ total_papers (get_statistics second.2) = total_papers (get_statistics first.2)
  ∧ first.1 = true ∧ second.1 = true.
Proof.
  intros r first second.
  assert (Hs : accepted r) by (unfold accepted; vm_compute; eauto).
  destruct (upsert_twice_idempotent sample_clock sample_clock r sample_db)
    as (Htotal & _ & _ & Hok).
  destruct (Hok Hs) as (H1 & H2 & _).
  split_and!; done.
Defined.

(** A record whose year is 2 ^ 63 is turned down both times: the binding
    of the year raises, [insert_paper] returns false and stores nothing. *)
Example upsert_twice_year_overflow :
  let r := dblp_paper "Z" "A" "CCS" (2 ^ 63) in
  let first := insert_paper sample_clock r sample_db in
  let second := insert_paper sample_clock r first.2 in
  first = (false, sample_db) ∧ second = (false, sample_db).
Proof. vm_compute. done. Qed.

(** The collision example of the specification: after authors "A" then
    authors "B" under one key, one row is stored and it has authors "B". *)
Example upsert_collision_example :
  let db1 := (insert_paper sample_clock (dblp_paper "X" "A" "CCS" 2023) init_database).2 in
  let db2 := (insert_paper sample_clock (dblp_paper "X" "B" "CCS" 2023) db1).2 in
  row_authors <$> papers db2 = [Some "B"]
  ∧ total_papers (get_statistics db2) = 1.
Proof. vm_compute. done. Qed.

(** The round trip of the specification: a record upserted under
    ("X", "CCS", 2023) comes back from the query on that conference and
    year with the fields it was stored with. *)
Example upsert_then_query :
  let db1 := (insert_paper sample_clock (dblp_paper "X" "A" "CCS" 2023) init_database).2 in
  ∃ rows,
    get_papers merge_sort_engine (Some "CCS") (Some 2023) None db1 = Return rows
    ∧ (λ row, (row_title row, row_authors row, row_conference row,
               int64_value (row_year row))) <$> rows
      = [("X", Some "A", "CCS", 2023)].
Proof. eexists. split; [reflexivity|]. vm_compute. done. Qed.

(** C10. Whatever the store, the upsert of a record whose title is absent
    or bound to None returns false (it does not raise) and leaves the
    store as it was. *)
Theorem upsert_without_title (clk : clock_reading) (paper_data : PaperData)
    (db : database) :
  title paper_data = Missing ∨ title paper_data = Bound None →
  insert_paper clk paper_data db = (false, db).
Proof.
  intros Htitle. apply insert_paper_not_accepted.
  unfold stored_key. by destruct Htitle as [-> | ->].
Qed.

Lemma upsert_without_title_witness :
  (title untitled_paper = Missing ∨ title untitled_paper = Bound None)
  ∧ insert_paper sample_clock untitled_paper sample_db = (false, sample_db).
Proof.
  assert (H : title untitled_paper = Missing ∨ title untitled_paper = Bound None)
    by (right; reflexivity).
  split; [exact H | apply (upsert_without_title _ _ _ H)].
Defined.

(** C8. On a store without papers, the statistics are total_papers = 0,
    no per-conference counts and no last_update. *)
Theorem statistics_of_empty_store (db : database) :
  papers db = [] →
  get_statistics db
  = {| total_papers := 0; by_conference := ∅; last_update := None |}.
Proof. intros Hempty. unfold get_statistics. rewrite Hempty. reflexivity. Qed.

Lemma statistics_of_empty_store_witness :
  papers init_database = []
  ∧ get_statistics init_database
    = {| total_papers := 0; by_conference := ∅; last_update := None |}.
Proof.
  split; [reflexivity | apply (statistics_of_empty_store init_database); reflexivity].
Defined.

(** * Properties of the query *)

Section Query.
Variable engine : sqlite_engine.
Implicit Types (db : database) (rows : list paper_row).

(** Without a [WHERE] conjunct and a [LIMIT], every row is returned,
    newest first. *)
Lemma get_papers_unfiltered db :
  ∃ rows,
    get_papers engine None None None db = Return rows
    ∧ rows ≡ₚ papers db
    ∧ StronglySorted newer_first rows.
Proof.
  unfold get_papers, execute_select. simpl. eexists. split; [done|]. split.
  - rewrite order_by_permutation. by rewrite filter_Forall_id by (by apply Forall_forall).
  - apply order_by_sorted.
Qed.
End Query.

(** C9. Falsy filter values count as absent filters: in every store, and
    whichever order the engine gives to rows of equal creation time,
    [get_papers] with the empty string as conference or with year = 0
    returns what it returns with that filter left out; with no other filter
    that is every row, newest first by creation time. *)
Theorem get_papers_falsy_filters (engine : sqlite_engine) (db : database) :
  (∀ year_ limit,
     get_papers engine (Some EmptyString) year_ limit db
     = get_papers engine None year_ limit db)
  ∧ (∀ conference_ limit,
       get_papers engine conference_ (Some 0) limit db
       = get_papers engine conference_ None limit db)
  ∧ get_papers engine (Some EmptyString) None None db
    = get_papers engine None None None db
  ∧ get_papers engine None (Some 0) None db = get_papers engine None None None db
  ∧ ∃ rows,
      get_papers engine None None None db = Return rows
      ∧ rows ≡ₚ papers db
      ∧ StronglySorted newer_first rows.
Proof.
  split_and!; try reflexivity; apply get_papers_unfiltered.
Qed.

(** In the sample store [year = 0] returns both rows, newest first, and
    not just the row whose year is 0; likewise for the empty conference. *)
Example get_papers_year_zero :
  row_ids (get_papers merge_sort_engine None (Some 0) None sample_db)
  = Return [2; 1]
  ∧ row_id <$> filter (λ row, int64_value (row_year row) = 0) (papers sample_db) = [2]
  ∧ row_ids (get_papers merge_sort_engine (Some EmptyString) None None sample_db)
    = Return [2; 1]
  ∧ row_id <$> filter (λ row, row_conference row = EmptyString) (papers sample_db) = [2]
  ∧ row_ids (get_papers merge_sort_engine (Some "CCS") (Some 2023) None sample_db)
    = Return [1].
Proof. vm_compute. done. Qed.

(** * Properties of the fetcher *)

Section FetcherProperties.
Variable transport : nat → string → http_result.
Variables retry_times delay : Z.
Variable url : string.

Lemma attempt_error_RequestException r e :
  attempt_error r = Some e → is_RequestException e = true.
Proof.
  destruct r as [e'|status_code text]; simpl.
  - destruct (is_RequestException e') eqn:H; [by intros [= <-]|done].
  - unfold raise_for_status. destruct (_ && _); [|done]. by intros [= <-].
Qed.

(** An attempt fails with a request error, or it passes, or it stops
    with another exception out of [requests.get]. *)
Lemma attempt_kinds (r : http_result) :
  (∃ e, attempt_error r = Some e ∧ attempt_body r = None)
  ∨ (∃ text, attempt_body r = Some text ∧ attempt_error r = None)
  ∨ (∃ e, r = Raises e ∧ is_RequestException e = false
          ∧ attempt_error r = None ∧ attempt_body r = None).
Proof.
  destruct r as [e|status_code text]; simpl.
  - destruct (is_RequestException e) eqn:H.
    + left. by exists e.
    + right. right. by exists e.
  - destruct (raise_for_status status_code) as [[]|e].
    + right. left. by exists text.
    + left. by exists e.
Qed.

Lemma try_fetch_error n e :
  attempt_error (transport (sent n) url) = Some e →
  try_fetch transport delay url n
  = (Raise e, {| sent := S (sent n); trace := trace n ++ [EvGet url] |}).
Proof.
  unfold try_fetch, requests_get, attempt_error.
  destruct (transport (sent n) url) as [e'|status_code text].
  - destruct (is_RequestException e'); [by intros [= <-]|done].
  - destruct (raise_for_status status_code); [done|]. by intros [= <-].
Qed.

Lemma try_fetch_raises n e :
  transport (sent n) url = Raises e →
  try_fetch transport delay url n
  = (Raise e, {| sent := S (sent n); trace := trace n ++ [EvGet url] |}).
Proof. unfold try_fetch, requests_get. by intros ->. Qed.

Lemma time_sleep_spec (seconds : Z) n :
  time_sleep seconds n
  = match sleep_error seconds with
    | Some e => (Raise e, n)
    | None => (Return (), {| sent := sent n; trace := trace n ++ [EvSleep seconds] |})
    end.
Proof.
  unfold time_sleep, sleep_error. destruct (_ || _); [done|]. by destruct (_ <? 0).
Qed.

Lemma sleep_error_None (seconds : Z) :
  sleep_error seconds = None ↔ 0 ≤ seconds ≤ SLEEP_MAX.
Proof.
  unfold sleep_error, SLEEP_MAX.
  destruct (seconds <? _) eqn:H1; destruct (_ <? seconds) eqn:H2;
    destruct (seconds <? 0) eqn:H3; simpl;
    try apply Z.ltb_lt in H1; try apply Z.ltb_ge in H1;
    try apply Z.ltb_lt in H2; try apply Z.ltb_ge in H2;
    try apply Z.ltb_lt in H3; try apply Z.ltb_ge in H3;
    split; try done; lia.
Qed.

Lemma sleep_error_negative (seconds : Z) :
  - SLEEP_MAX ≤ seconds < 0 → sleep_error seconds = Some sleep_negative.
Proof.
  unfold sleep_error, SLEEP_MAX. intros H.
  rewrite (proj2 (Z.ltb_ge seconds _)) by lia.
  rewrite (proj2 (Z.ltb_ge _ seconds)) by lia. simpl.
  by rewrite (proj2 (Z.ltb_lt seconds 0)) by lia.
Qed.

Lemma sleep_error_too_long (seconds : Z) :
  seconds < - SLEEP_MAX ∨ SLEEP_MAX < seconds →
  sleep_error seconds = Some sleep_too_long.
Proof.
  unfold sleep_error, SLEEP_MAX. intros [H|H].
  - by rewrite (proj2 (Z.ltb_lt seconds _)) by lia.
  - rewrite (proj2 (Z.ltb_lt _ seconds)) by lia. by rewrite orb_true_r.
Qed.

Lemma try_fetch_body n text :
  attempt_body (transport (sent n) url) = Some text →
  try_fetch transport delay url n
  = match sleep_error delay with
    | Some e => (Raise e, {| sent := S (sent n); trace := trace n ++ [EvGet url] |})
    | None => (Return text,
               {| sent := S (sent n); trace := trace n ++ [EvGet url; EvSleep delay] |})
    end.
Proof.
  unfold try_fetch, requests_get, attempt_body.
  destruct (transport (sent n) url) as [e|status_code body]; [done|].
  destruct (raise_for_status status_code); [|done]. intros [= <-].
  rewrite time_sleep_spec. destruct (sleep_error delay); [done|].
  simpl. by rewrite <- app_assoc.
Qed.

(** The backoff of [2 ^ a] seconds is a sleep in range up to attempt 33. *)
Lemma backoff_in_range (a : nat) : (a ≤ 33)%nat → sleep_error (2 ^ Z.of_nat a) = None.
Proof.
  intros Ha. apply sleep_error_None. split; [apply Z.pow_nonneg; lia|].
  transitivity (2 ^ 33); [apply Z.pow_le_mono_r; lia|]. by vm_compute.
Qed.

Lemma backoff_too_long (a : nat) :
  (34 ≤ a)%nat → sleep_error (2 ^ Z.of_nat a) = Some sleep_too_long.
Proof.
  intros Ha. apply sleep_error_too_long. right.
  apply Z.lt_le_trans with (2 ^ 34); [by vm_compute|].
  apply Z.pow_le_mono_r; lia.
Qed.

Lemma backoff_events_S a k :
  backoff_events url a (S k)
  = [EvGet url; EvSleep (2 ^ Z.of_nat a)] ++ backoff_events url (S a) k.
Proof. reflexivity. Qed.

Lemma backoff_events_snoc a k :
  backoff_events url a (S k)
  = backoff_events url a k ++ [EvGet url; EvSleep (2 ^ Z.of_nat (a + k))].
Proof.
  unfold backoff_events. by rewrite seq_S, flat_map_app.
Qed.

Lemma sleep_error_not_request (seconds : Z) e :
  sleep_error seconds = Some e → is_RequestException e = false.
Proof.
  unfold sleep_error. destruct (_ || _); [by intros [= <-]|].
  destruct (_ <? 0); [by intros [= <-]|done].
Qed.

(** One turn of the loop on an attempt that passes. *)
Lemma fetch_loop_body (attempt : Z) rest n text :
  attempt_body (transport (sent n) url) = Some text →
  fetch_loop transport retry_times delay url (attempt :: rest) n
  = match sleep_error delay with
    | Some e => (Raise e, {| sent := S (sent n); trace := trace n ++ [EvGet url] |})
    | None => (Return text,
               {| sent := S (sent n); trace := trace n ++ [EvGet url; EvSleep delay] |})
    end.
Proof.
  intros Hbody. cbn [fetch_loop]. rewrite (try_fetch_body n text Hbody).
  destruct (sleep_error delay) as [e|] eqn:He; [|done].
  by rewrite (sleep_error_not_request _ _ He).
Qed.

(** On an attempt that stops with an exception that is no request error. *)
Lemma fetch_loop_abort (attempt : Z) rest n e :
  transport (sent n) url = Raises e →
  is_RequestException e = false →
  fetch_loop transport retry_times delay url (attempt :: rest) n
  = (Raise e, {| sent := S (sent n); trace := trace n ++ [EvGet url] |}).
Proof.
  intros Hr He. cbn [fetch_loop]. by rewrite (try_fetch_raises n e Hr), He.
Qed.

(** On the last attempt, when it fails. *)
Lemma fetch_loop_last (attempt : Z) rest n e :
  attempt_error (transport (sent n) url) = Some e →
  retry_times - 1 ≤ attempt →
  fetch_loop transport retry_times delay url (attempt :: rest) n
  = (Raise e, {| sent := S (sent n); trace := trace n ++ [EvGet url] |}).
Proof.
  intros He Hlast. cbn [fetch_loop]. rewrite (try_fetch_error n e He).
  rewrite (attempt_error_RequestException _ _ He).
  by rewrite (proj2 (Z.ltb_ge _ _)) by lia.
Qed.

(** On an earlier attempt, when it fails: the backoff sleep, then the
    next turn. *)
Lemma fetch_loop_retry (attempt : Z) rest n e :
  attempt_error (transport (sent n) url) = Some e →
  attempt < retry_times - 1 →
  fetch_loop transport retry_times delay url (attempt :: rest) n
  = match sleep_error (2 ^ attempt) with
    | Some e' => (Raise e', {| sent := S (sent n); trace := trace n ++ [EvGet url] |})
    | None =>
        fetch_loop transport retry_times delay url rest
          {| sent := S (sent n);
             trace := trace n ++ [EvGet url; EvSleep (2 ^ attempt)] |}
    end.
Proof.
  intros He Hearlier. cbn [fetch_loop]. rewrite (try_fetch_error n e He).
  rewrite (attempt_error_RequestException _ _ He).
  rewrite (proj2 (Z.ltb_lt _ _)) by lia.
  rewrite time_sleep_spec. destruct (sleep_error (2 ^ attempt)); [done|].
  cbn [sent trace]. by rewrite <- app_assoc.
Qed.

(** The turns of the loop on [j] attempts that fail, none of them the
    last, each with a backoff sleep in range. *)
Lemma fetch_loop_backoff (s0 : nat) : ∀ (j len a : nat) n,
  (j ≤ len)%nat →
  sent n = (s0 + a)%nat →
  (∀ i : nat, (a ≤ i < a + j)%nat →
     is_Some (attempt_error (transport (s0 + i)%nat url))
     ∧ Z.of_nat i < retry_times - 1 ∧ (i ≤ 33)%nat) →
  fetch_loop transport retry_times delay url (Z.of_nat <$> seq a len) n
  = fetch_loop transport retry_times delay url (Z.of_nat <$> seq (a + j) (len - j))
      {| sent := sent n + j; trace := trace n ++ backoff_events url a j |}.
Proof.
  induction j as [|j IH]; intros len a n Hlen Hsent Hfail.
  - rewrite !Nat.add_0_r, Nat.sub_0_r. unfold backoff_events. simpl.
    rewrite app_nil_r. by destruct n.
  - destruct len as [|len]; [lia|].
    destruct (Hfail a) as ([e He] & Hearlier & Hrange); [lia|].
    rewrite <- Hsent in He.
    change (Z.of_nat <$> seq a (S len))
      with (Z.of_nat a :: (Z.of_nat <$> seq (S a) len)).
    rewrite (fetch_loop_retry _ _ n e He Hearlier), (backoff_in_range a Hrange).
    rewrite (IH len (S a)); [|lia|simpl; lia|].
    + cbn [sent trace]. rewrite backoff_events_S, <- !app_assoc.
      replace (S a + j)%nat with (a + S j)%nat by lia.
      replace (S (sent n) + j)%nat with (sent n + S j)%nat by lia.
      done.
    + intros i Hi. apply Hfail. lia.
Qed.

(** Among the numbers from [a] on there is a first one without the
    property [P], when some number [a + len] lacks it. *)
Lemma first_without (P : nat → Prop) `{∀ i, Decision (P i)} : ∀ (len a : nat),
  ¬ P (a + len)%nat →
  ∃ j : nat, (a ≤ j ≤ a + len)%nat ∧ ¬ P j ∧ ∀ i : nat, (a ≤ i < j)%nat → P i.
Proof.
  induction len as [|len IH]; intros a Hlast.
  - exists a. rewrite Nat.add_0_r in Hlast. split_and!; [lia|lia|done|]. intros i Hi. lia.
  - destruct (decide (P a)) as [Ha|Ha].
    + destruct (IH (S a)) as (j & Hj & Hnot & Hbefore).
      { by replace (S a + len)%nat with (a + S len)%nat by lia. }
      exists j. split_and!; [lia|lia|done|]. intros i Hi.
      destruct (decide (i = a)) as [->|Hne]; [done|]. apply Hbefore. lia.
    + exists a. split_and!; [lia|lia|done|]. intros i Hi. lia.
Qed.

(** With [retry_times <= 0] the loop body never runs. *)
Lemma fetch_page_no_attempt n :
  retry_times ≤ 0 → fetch_page transport retry_times delay url n = (Return EmptyString, n).
Proof.
  intros Hle. unfold fetch_page, range.
  by replace (Z.to_nat retry_times) with 0%nat by lia.
Qed.

(** The run up to attempt [j], when the attempts before it fail. *)
Lemma fetch_page_peel n (j : nat) :
  Z.of_nat j < retry_times → (j ≤ 34)%nat →
  (∀ i : nat, (i < j)%nat → is_Some (attempt_error (transport (sent n + i)%nat url))) →
  fetch_page transport retry_times delay url n
  = fetch_loop transport retry_times delay url
      (Z.of_nat j :: (Z.of_nat <$> seq (S j) (Z.to_nat retry_times - j - 1)))
      {| sent := sent n + j; trace := trace n ++ backoff_events url 0 j |}.
Proof.
  intros Hj Hj34 Hfail. unfold fetch_page, range.
  rewrite (fetch_loop_backoff (sent n) j (Z.to_nat retry_times) 0 n); [|lia|lia|].
  - destruct (Z.to_nat retry_times - j)%nat as [|m] eqn:Hm; [lia|].
    simpl. by rewrite Nat.sub_0_r.
  - intros i Hi. split_and!; [apply Hfail; lia|lia|lia].
Qed.

Lemma after_attempts_eq n (j : nat) :
  {| sent := S (sent n + j); trace := (trace n ++ backoff_events url 0 j) ++ [EvGet url] |}
  = after_attempts url n j.
Proof. unfold after_attempts. f_equal; [lia|by rewrite <- app_assoc]. Qed.

Lemma after_success_eq n (j : nat) :
  {| sent := S (sent n + j);
     trace := (trace n ++ backoff_events url 0 j) ++ [EvGet url; EvSleep delay] |}
  = after_success url delay n j.
Proof. unfold after_success. f_equal; [lia|by rewrite <- app_assoc]. Qed.

(** How a run of [fetch_page] with [retry_times >= 1] goes: [j] attempts
    fail and are followed by their backoff sleeps; then attempt [j] passes
    and the politeness sleep follows, or [requests.get] raises something
    else than a request error, or attempt [j] is the last and fails, or it
    fails and its backoff of [2 ^ 34] seconds is too long a sleep. *)
Lemma fetch_page_cases n :
  1 ≤ retry_times →
  ∃ j : nat,
    Z.of_nat j < retry_times ∧ (j ≤ 34)%nat
    ∧ (∀ i : nat, (i < j)%nat →
         is_Some (attempt_error (transport (sent n + i)%nat url)))
    ∧ ((∃ text,
          attempt_body (transport (sent n + j)%nat url) = Some text
          ∧ fetch_page transport retry_times delay url n
            = match sleep_error delay with
              | Some e => (Raise e, after_attempts url n j)
              | None => (Return text, after_success url delay n j)
              end)
       ∨ (∃ e,
            transport (sent n + j)%nat url = Raises e
            ∧ is_RequestException e = false
            ∧ fetch_page transport retry_times delay url n
              = (Raise e, after_attempts url n j))
       ∨ (∃ e,
            attempt_error (transport (sent n + j)%nat url) = Some e
            ∧ Z.of_nat j = retry_times - 1
            ∧ fetch_page transport retry_times delay url n
              = (Raise e, after_attempts url n j))
       ∨ (∃ e,
            attempt_error (transport (sent n + j)%nat url) = Some e
            ∧ Z.of_nat j < retry_times - 1 ∧ j = 34%nat
            ∧ fetch_page transport retry_times delay url n
              = (Raise sleep_too_long, after_attempts url n j))).
Proof.
  intros Hretry. set (R := Z.to_nat retry_times).
  pose (P := λ i : nat,
          is_Some (attempt_error (transport (sent n + i)%nat url))
          ∧ Z.of_nat i < retry_times - 1 ∧ (i ≤ 33)%nat).
  destruct (first_without P (R - 1) 0) as (j & Hj & Hnot & Hbefore).
  { unfold P. intros (_ & Hlt & _). lia. }
  exists j. split; [lia|].
  assert (Hj34 : (j ≤ 34)%nat).
  { destruct (decide (j ≤ 34)%nat) as [|Hgt]; [done|].
    destruct (Hbefore 34%nat) as (_ & _ & H33); lia. }
  split; [done|]. split; [intros i Hi; apply Hbefore; lia|].
  assert (Hpeel := fetch_page_peel n j). rewrite Hpeel; [|lia|done|]; clear Hpeel.
  2:{ intros i Hi. apply Hbefore. lia. }
  pose proof (after_attempts_eq n j) as Hafter.
  destruct (attempt_kinds (transport (sent n + j)%nat url))
    as [(e & He & _)|[(text & Hbody & _)|(e & Hr & Hnr & _)]].
  - destruct (decide (Z.of_nat j < retry_times - 1)) as [Hlt|Hge].
    + right. right. right. exists e.
      assert (j = 34%nat) as ->.
      { destruct (decide (j ≤ 33)%nat) as [Hle|]; [|lia].
        exfalso. apply Hnot. unfold P. rewrite He. eauto. }
      split_and!; [done|done|done|].
      rewrite (fetch_loop_retry _ _ _ e); [|done|done].
      rewrite backoff_too_long by lia. cbn [sent trace]. by rewrite Hafter.
    + right. right. left. exists e. split_and!; [done|lia|].
      rewrite (fetch_loop_last _ _ _ e); [|done|lia].
      cbn [sent trace]. by rewrite Hafter.
  - left. exists text. split; [done|].
    rewrite (fetch_loop_body _ _ _ text) by done. cbn [sent trace].
    destruct (sleep_error delay); [by rewrite Hafter|].
    by rewrite after_success_eq.
  - right. left. exists e. split_and!; [done|done|].
    rewrite (fetch_loop_abort _ _ _ e) by done. cbn [sent trace].
    by rewrite Hafter.
Qed.

(** When every attempt fails, [fetch_page] raises. *)
Lemma fetch_page_all_fail_raises n :
  1 ≤ retry_times →
  (∀ i : nat, Z.of_nat i < retry_times →
     is_Some (attempt_error (transport (sent n + i)%nat url))) →
  ∃ e, (fetch_page transport retry_times delay url n).1 = Raise e.
Proof.
  intros Hretry Hfail.
  destruct (fetch_page_cases n Hretry)
    as (j & Hj & _ & _ & [(text & Hbody & _)|[(e & Hr & Hnr & _)
                          |[(e & _ & _ & ->)|(e & _ & _ & _ & ->)]]]); eauto.
  - destruct (Hfail j Hj) as [e He].
    destruct (attempt_kinds (transport (sent n + j)%nat url))
      as [(? & _ & Hb)|[(? & _ & Hn)|(? & _ & _ & Hn & _)]]; congruence.
  - destruct (Hfail j Hj) as [e' He]. rewrite Hr in He. simpl in He.
    by rewrite Hnr in He.
Qed.
End FetcherProperties.




(** The retry test of the specification, run: two failures and a success
    give the body after sleeps of 1, 2 and [delay] seconds; a transport
    that always fails gives the error after three requests. *)
Example fetch_page_flaky :
  fetch_page flaky 3 1 "u" idle_network
  = (Return "<html/>",
     {| sent := 3;
        trace := [EvGet "u"; EvSleep 1; EvGet "u"; EvSleep 2; EvGet "u"; EvSleep 1] |}).
Proof. vm_compute. reflexivity. Qed.

Example fetch_page_unreachable :
  fetch_page unreachable 3 1 "u" idle_network
  = (Raise (RequestException "connection refused"),
     {| sent := 3;
        trace := [EvGet "u"; EvSleep 1; EvGet "u"; EvSleep 2; EvGet "u"] |}).
Proof. vm_compute. reflexivity. Qed.

(** A delay of 10 ^ 30 seconds: the page is served at once, and the
    politeness sleep raises [OverflowError]. *)
Example fetch_page_long_delay :
  fetch_page reachable 3 (10 ^ 30) "u" idle_network
  = (Raise sleep_too_long, {| sent := 1; trace := [EvGet "u"] |}).
Proof. vm_compute. reflexivity. Qed.

(** * Properties of the crawl log *)

Section ManagerProperties.
Variable clock : nat → clock_reading.
Implicit Types (self : CrawlerManager) (w : world) (db : database).

(** Whether [insert_paper] succeeds depends on the record alone, and
    it leaves table [crawl_history] alone. *)
Lemma insert_paper_outcome clk (paper : PaperData) db :
  (insert_paper clk paper db).1 = bool_decide (accepted paper)
  ∧ crawl_history (insert_paper clk paper db).2 = crawl_history db
  ∧ crawl_history_seq (insert_paper clk paper db).2 = crawl_history_seq db.
Proof.
  destruct (stored_key paper) as [[[t c] y]|] eqn:Hkey.
  - rewrite bool_decide_eq_true_2 by (unfold accepted; rewrite Hkey; eauto).
    destruct (insert_paper_accepted clk paper db t c y Hkey)
      as (y64 & db' & _ & -> & _ & Hh & Hseq). done.
  - rewrite bool_decide_eq_false_2
      by (unfold accepted; rewrite Hkey; by intros [? [=]]).
    by rewrite insert_paper_not_accepted.
Qed.

(** [insert_papers_batch] counts the accepted records. *)
Lemma batch_loop_count (found : list PaperData) : ∀ clk db success_count,
  (batch_loop clk found db success_count).1
  = success_count + count_rows (filter accepted found)
  ∧ crawl_history (batch_loop clk found db success_count).2 = crawl_history db
  ∧ crawl_history_seq (batch_loop clk found db success_count).2
    = crawl_history_seq db.
Proof.
  induction found as [|paper rest IH]; intros clk db success_count.
  - unfold count_rows. simpl. split_and!; [lia|done|done].
  - simpl.
    destruct (insert_paper_outcome (clk 0%nat) paper db) as (Hok & Hh & Hseq).
    destruct (insert_paper (clk 0%nat) paper db) as [ok db'].
    simpl in Hok, Hh, Hseq. subst ok.
    destruct (IH (λ i, clk (S i)) db'
                (if bool_decide (accepted paper) then success_count + 1
                 else success_count)) as (Hn & Hh' & Hseq').
    rewrite Hn, Hh', Hseq', Hh, Hseq. split_and!; [|done|done].
    unfold count_rows. destruct (decide (accepted paper)) as [Hs|Hns].
    + rewrite bool_decide_eq_true_2, filter_cons_True by done. simpl length. lia.
    + rewrite bool_decide_eq_false_2, filter_cons_False by done. lia.
Qed.

(** [log_crawl_history] for a name and a year that fits: one row more. *)
Lemma log_crawl_history_fits clk (conference_name : string) (year_ count : Z)
    (status : string) (error_message : option string) db :
  fits_int64 year_ = true →
  ∃ (y64 : int64) db',
    int64_value y64 = year_
    ∧ log_crawl_history clk (Some conference_name) year_ count status error_message db
      = Return db'
    ∧ papers db' = papers db
    ∧ papers_seq db' = papers_seq db
    ∧ crawl_history db'
      = crawl_history db
        ++ [{| h_id := next_rowid (crawl_history_seq db) (h_id <$> crawl_history db);
               h_conference := conference_name; h_year := y64;
               h_papers_count := count; h_status := status;
               h_error_message := error_message;
               h_created_at := CURRENT_TIMESTAMP clk |}].
Proof.
  intros Hfits. destruct (bind_int_fits year_ Hfits) as (y64 & Hval & Hbind).
  exists y64. unfold log_crawl_history. rewrite Hbind. simpl.
  eexists. split; [done|]. split; [reflexivity|]. done.
Qed.

(** For a year that does not fit the binding raises; nothing is logged. *)
Lemma log_crawl_history_overflow clk (conference_ : option string) (year_ count : Z)
    (status : string) (error_message : option string) db :
  fits_int64 year_ = false →
  log_crawl_history clk conference_ year_ count status error_message db
  = Raise int_too_large.
Proof. intros Hfits. unfold log_crawl_history. by rewrite bind_int_overflow. Qed.

(** Without a name the statement fails at the [NOT NULL] column, when
    the binding of the year has not raised before. *)
Lemma log_crawl_history_null clk (year_ count : Z) (status : string)
    (error_message : option string) db :
  log_crawl_history clk None year_ count status error_message db
  = Raise (if fits_int64 year_ then conference_is_null else int_too_large).
Proof.
  unfold log_crawl_history. destruct (fits_int64 year_) eqn:Hfits.
  - by destruct (bind_int_fits year_ Hfits) as (y64 & _ & ->).
  - by rewrite bind_int_overflow.
Qed.

(** The only writes of [log_crawl_history] are to table [crawl_history],
    at its end. *)
Lemma log_crawl_history_Return clk (conference_ : option string) (year_ count : Z)
    (status : string) (error_message : option string) db db' :
  log_crawl_history clk conference_ year_ count status error_message db = Return db' →
  ∃ (conference_name : string) (y64 : int64),
    conference_ = Some conference_name
    ∧ int64_value y64 = year_
    ∧ papers db' = papers db
    ∧ papers_seq db' = papers_seq db
    ∧ crawl_history db'
      = crawl_history db
        ++ [{| h_id := next_rowid (crawl_history_seq db) (h_id <$> crawl_history db);
               h_conference := conference_name; h_year := y64;
               h_papers_count := count; h_status := status;
               h_error_message := error_message;
               h_created_at := CURRENT_TIMESTAMP clk |}].
Proof.
  destruct conference_ as [conference_name|].
  - destruct (fits_int64 year_) eqn:Hfits.
    + destruct (log_crawl_history_fits clk conference_name year_ count status
                  error_message db Hfits) as (y64 & db1 & Hval & -> & Hp & Hs & Hh).
      intros [= <-]. by exists conference_name, y64.
    + by rewrite log_crawl_history_overflow.
  - by rewrite log_crawl_history_null.
Qed.

Lemma crawl_conference_crawled self (conference_name : string) year_ w :
  crawl_conference clock self (Some conference_name) year_ w
  = let cs := default [] (crawlers self !! conference_name) in
    let n1 := (run_crawlers cs year_ [] (net w)).2 in
    match _deduplicate_papers (crawled_papers self conference_name year_ (net w)) with
    | Raise e => (Raise e, {| db := db w; net := n1; ticks := ticks w |})
    | Return unique_papers =>
        match unique_papers with
        | _ :: _ =>
            let batch :=
              insert_papers_batch (λ i, clock (ticks w + i)%nat) unique_papers (db w) in
            let t := (ticks w + length unique_papers)%nat in
            match log_crawl_history (clock t) (Some conference_name) year_ batch.1
                    "success" None batch.2 with
            | Return db2 => (Return (), {| db := db2; net := n1; ticks := S t |})
            | Raise e => (Raise e, {| db := batch.2; net := n1; ticks := t |})
            end
        | [] =>
            match log_crawl_history (clock (ticks w)) (Some conference_name) year_ 0
                    "empty" None (db w) with
            | Return db2 => (Return (), {| db := db2; net := n1; ticks := S (ticks w) |})
            | Raise e => (Raise e, {| db := db w; net := n1; ticks := ticks w |})
            end
        end
    end.
Proof.
  unfold crawl_conference, crawled_papers. cbn [mbind option_bind].
  destruct (run_crawlers _ _ _ _) as [all_papers n1]. simpl.
  destruct (_deduplicate_papers all_papers) as [[|paper unique]|e]; [done| |done].
  by destruct (insert_papers_batch _ _ _).
Qed.

(** With [None] for a name no crawler runs and the log refuses the row:
    the call raises and changes nothing. *)
Lemma crawl_conference_null_name self year_ w :
  crawl_conference clock self None year_ w
  = (Raise (if fits_int64 year_ then conference_is_null else int_too_large), w).
Proof.
  unfold crawl_conference. simpl. rewrite log_crawl_history_null. by destruct w.
Qed.
End ManagerProperties.




(** The row logged for the sample manager, and the call for a year
    beyond 64 bits. *)
Example crawl_conference_logged_rows :
  (λ row, (h_conference row, int64_value (h_year row), h_papers_count row, h_status row))
    <$> crawl_history
          (db (crawl_conference sample_clocks sample_manager (Some "CCS") 2023
                 sample_world).2)
  = [("CCS", 2023, 1, "success")]
  ∧ crawl_conference sample_clocks sample_manager (Some "ICSE") (2 ^ 63) sample_world
    = (Raise int_too_large, sample_world).
Proof. vm_compute. done. Qed.

(** * Further properties of the paper store *)

#[local] Set Warnings "-clear-no-such-hyp".

Section StorageMore.
Implicit Types (db : database) (row : paper_row) (rows : list paper_row).
Implicit Types (k : natural_key) (vals : insert_values) (clk : clock_reading).
Implicit Types (paper : PaperData).

(** The key of a stored row has a year that fits 64 bits. *)
Lemma row_key_fits t c y rows : (t, c, y) ∈ row_key <$> rows → fits_int64 y = true.
Proof.
  intros (row & [= _ _ ->] & _)%list_elem_of_fmap. apply int64_fits.
Qed.

(** [paper_exists] raises at the binding of the year, or tells whether
    the key is in the table. *)
Lemma paper_exists_bound t c y db :
  paper_exists t c y db
  = if fits_int64 y
    then Return (bool_decide ((t, c, y) ∈ row_key <$> papers db))
    else Raise int_too_large.
Proof.
  unfold paper_exists. destruct (fits_int64 y) eqn:Hfits.
  - destruct (bind_int_fits y Hfits) as (y64 & _ & ->). simpl. f_equal.
    apply bool_decide_ext. split.
    + intros Hpos. destruct (decide ((t, c, y) ∈ row_key <$> papers db)); [done|].
      rewrite filter_key_absent in Hpos by done. simpl in Hpos. lia.
    + intros (row & Hk & Hrow)%list_elem_of_fmap.
      assert (Hin : row ∈ filter (λ r, row_key r = (t, c, y)) (papers db))
        by (by apply list_elem_of_filter).
      destruct (filter _ _); [by apply elem_of_nil in Hin|]. simpl. lia.
  - by rewrite bind_int_overflow.
Qed.

Lemma paper_exists_iff t c y db :
  paper_exists t c y db = Return true ↔ (t, c, y) ∈ row_key <$> papers db.
Proof.
  rewrite paper_exists_bound. split.
  - destruct (fits_int64 y); [|done]. intros [= H]. by apply bool_decide_eq_true in H.
  - intros Hin. rewrite (row_key_fits _ _ _ _ Hin). f_equal.
    by apply bool_decide_eq_true.
Qed.

Lemma paper_exists_false t c y db :
  paper_exists t c y db = Return false
  ↔ fits_int64 y = true ∧ (t, c, y) ∉ row_key <$> papers db.
Proof.
  rewrite paper_exists_bound. destruct (fits_int64 y).
  - split.
    + intros [= H]. by apply bool_decide_eq_false in H.
    + intros [_ H]. f_equal. by apply bool_decide_eq_false.
  - split; [done|]. by intros [? _].
Qed.

(** [paper_exists] depends on the keys in the table only. *)
Lemma paper_exists_keys t c y db db' :
  ((t, c, y) ∈ row_key <$> papers db' ↔ (t, c, y) ∈ row_key <$> papers db) →
  paper_exists t c y db' = paper_exists t c y db.
Proof.
  intros Hiff. rewrite !paper_exists_bound. destruct (fits_int64 y); [|done].
  f_equal. by apply bool_decide_ext.
Qed.

Lemma upserted_rows_keys t c (y : int64) vals ts db :
  row_key <$> upserted_rows t c y vals ts db
  = if decide ((t, c, int64_value y) ∈ row_key <$> papers db)
    then row_key <$> papers db
    else (row_key <$> papers db) ++ [(t, c, int64_value y)].
Proof.
  unfold upserted_rows. destruct (decide _) as [Hin|Hnotin].
  - rewrite (proj2 (existsb_has_key _ _) Hin). apply updated_rows_keys.
  - destruct (existsb _ _) eqn:Hex; [by apply existsb_has_key in Hex|].
    by rewrite fmap_app.
Qed.

Lemma next_rowid_above (seq : Z) (ids : list Z) :
  seq < next_rowid seq ids ∧ ∀ i, i ∈ ids → i < next_rowid seq ids.
Proof.
  unfold next_rowid. induction ids as [|j ids [IH1 IH2]]; simpl.
  - split; [lia|]. by intros i ?%elem_of_nil.
  - split; [lia|]. intros i [->|Hin]%elem_of_cons; [lia|].
    specialize (IH2 i Hin). lia.
Qed.

Lemma updated_rows_lookup k vals rows i row :
  rows !! i = Some row →
  updated_rows k vals rows !! i
  = Some (if has_key k row then do_update vals row else row).
Proof. intros Hi. unfold updated_rows. by rewrite list_lookup_fmap, Hi. Qed.
End StorageMore.

(** X1. Insert and look up: the upsert of a record with non-null title,
    conference and year, the year within the 64-bit integers, returns true;
    afterwards [paper_exists] holds for its key, a stored row carries the
    record's values under that key, and [paper_exists] is unchanged for
    every other key. *)
Theorem insert_paper_round_trip (clk : clock_reading) (paper_data : PaperData)
    (db : database) (t c : string) (y : Z) :
  stored_key paper_data = Some (t, c, y) →
  let db' := (insert_paper clk paper_data db).2 in
  (insert_paper clk paper_data db).1 = true
  ∧ paper_exists t c y db' = Return true
  ∧ (∃ row, row ∈ papers db'
       ∧ row_key row = (t, c, y)
       ∧ row_authors row = get (authors paper_data)
       ∧ row_abstract row = get (abstract paper_data)
       ∧ row_pdf_url row = get (pdf_url paper_data)
       ∧ row_paper_url row = get (paper_url paper_data)
       ∧ row_doi row = get (doi paper_data)
       ∧ row_updated_at row = datetime_now clk)
  ∧ (∀ t' c' y', (t', c', y') ≠ (t, c, y) →
       paper_exists t' c' y' db' = paper_exists t' c' y' db).
Proof.
  intros Hkey db'. subst db'.
  destruct (insert_paper_accepted clk paper_data db t c y Hkey)
    as (y64 & db' & <- & -> & Hrows & _). simpl.
  split; [done|]. split; [|split].
  - apply paper_exists_iff. rewrite Hrows. apply upserted_rows_has_key.
  - rewrite Hrows. unfold upserted_rows.
    destruct (existsb _ _) eqn:Hex.
    + apply existsb_has_key, list_elem_of_fmap in Hex as (row & Hk & Hrow).
      exists (do_update (bind_values paper_data (datetime_now clk)) row).
      split; [|by rewrite do_update_key].
      unfold updated_rows. apply list_elem_of_fmap.
      exists row. split; [|done]. by rewrite (proj2 (has_key_true _ _)).
    + eexists. split; [apply elem_of_app; right; by left|]. done.
  - intros t' c' y' Hne. apply paper_exists_keys.
    rewrite Hrows, upserted_rows_keys.
    destruct (decide _); [done|].
    rewrite elem_of_app, list_elem_of_singleton.
    split; [intros [?|?]; [done|congruence] | by left].
Qed.

Lemma insert_paper_round_trip_witness :
  let db' := (insert_paper sample_clock (dblp_paper "Z" "A" "CCS" 2024) sample_db).2 in
  stored_key (dblp_paper "Z" "A" "CCS" 2024) = Some ("Z", "CCS", 2024)
  ∧ paper_exists "Z" "CCS" 2024 sample_db = Return false
  ∧ paper_exists "Z" "CCS" 2024 db' = Return true.
Proof.
  intros db'.
  assert (H : stored_key (dblp_paper "Z" "A" "CCS" 2024) = Some ("Z", "CCS", 2024))
    by reflexivity.
  destruct (insert_paper_round_trip sample_clock _ sample_db _ _ _ H)
    as (_ & Hex & _).
  split_and!; [exact H | reflexivity | exact Hex].
Defined.

(** X2. A record that the store accepts (title, conference and year not
    null, the year a 64-bit integer) and whose key the store does not hold
    yet is appended as one new row: its rowid exceeds every rowid in the
    table, [downloaded] is false, [local_path] is NULL, [created_at] is the
    database clock and [updated_at] the Python clock; the rows before it are
    untouched and total_papers grows by one. *)
Theorem insert_paper_new_key (clk : clock_reading) (paper_data : PaperData)
    (db : database) (t c : string) (y : Z) :
  stored_key paper_data = Some (t, c, y) →
  paper_exists t c y db = Return false →
  ∃ row,
    papers (insert_paper clk paper_data db).2 = papers db ++ [row]
    ∧ row_key row = (t, c, y)
    ∧ (∀ old, old ∈ papers db → row_id old < row_id row)
    ∧ row_downloaded row = false
    ∧ row_local_path row = None
    ∧ row_created_at row = CURRENT_TIMESTAMP clk
    ∧ row_updated_at row = datetime_now clk
    ∧ total_papers (get_statistics (insert_paper clk paper_data db).2)
      = total_papers (get_statistics db) + 1.
Proof.
  intros Hkey [_ Hnew]%paper_exists_false.
  destruct (insert_paper_accepted clk paper_data db t c y Hkey)
    as (y64 & db' & <- & -> & Hrows & _). simpl.
  assert (Hex : existsb (has_key (t, c, int64_value y64)) (papers db) = false).
  { destruct (existsb _ _) eqn:Hex; [|done]. by apply existsb_has_key in Hex. }
  unfold upserted_rows in Hrows. rewrite Hex in Hrows.
  eexists. split; [exact Hrows|]. split_and!; try done.
  - intros old Hold. simpl.
    apply next_rowid_above. by apply list_elem_of_fmap_2.
  - unfold get_statistics, count_rows. simpl. rewrite Hrows, length_app. simpl. lia.
Qed.

Lemma insert_paper_new_key_witness :
  stored_key (dblp_paper "Z" "A" "CCS" 2024) = Some ("Z", "CCS", 2024)
  ∧ paper_exists "Z" "CCS" 2024 sample_db = Return false
  ∧ ∃ row,
      papers (insert_paper sample_clock (dblp_paper "Z" "A" "CCS" 2024) sample_db).2
      = papers sample_db ++ [row]
      ∧ row_downloaded row = false.
Proof.
  assert (H1 : stored_key (dblp_paper "Z" "A" "CCS" 2024) = Some ("Z", "CCS", 2024))
    by reflexivity.
  assert (H2 : paper_exists "Z" "CCS" 2024 sample_db = Return false) by reflexivity.
  split_and!; [exact H1 | exact H2 |].
  destruct (insert_paper_new_key sample_clock _ sample_db _ _ _ H1 H2)
    as (row & Hrows & _ & _ & Hdl & _).
  exists row. split; done.
Defined.

(** X3. No upsert removes or renumbers a row: whatever the record, each
    stored row stays at its position with its id, key, created_at,
    downloaded and local_path, and a row whose key differs from the
    record's key is left exactly as it was. *)
Theorem insert_paper_keeps_rows (clk : clock_reading) (paper_data : PaperData)
    (db : database) (i : nat) (row : paper_row) :
  papers db !! i = Some row →
  ∃ row',
    papers (insert_paper clk paper_data db).2 !! i = Some row'
    ∧ row_id row' = row_id row
    ∧ row_key row' = row_key row
    ∧ row_created_at row' = row_created_at row
    ∧ row_downloaded row' = row_downloaded row
    ∧ row_local_path row' = row_local_path row
    ∧ (stored_key paper_data ≠ Some (row_key row) → row' = row).
Proof.
  intros Hi. destruct (stored_key paper_data) as [[[t c] y]|] eqn:Hkey.
  - destruct (insert_paper_accepted clk paper_data db t c y Hkey)
      as (y64 & db' & <- & -> & Hrows & _). simpl. rewrite Hrows.
    unfold upserted_rows.
    destruct (existsb _ _).
    + rewrite (updated_rows_lookup _ _ _ _ _ Hi).
      destruct (has_key (t, c, int64_value y64) row) eqn:Hk.
      * eexists. split; [done|]. split_and!; try done.
        apply has_key_true in Hk. rewrite Hk. done.
      * exists row. split_and!; done.
    + exists row. split_and!; try done. by apply lookup_app_l_Some.
  - rewrite insert_paper_not_accepted by done. exists row. split_and!; done.
Qed.

Lemma insert_paper_keeps_rows_witness :
  papers sample_db !! 0%nat
  = Some (stored_row 1 "X" "A" "CCS" 2023 (Some "papers/x.pdf") 10)
  ∧ ∃ row',
      papers (insert_paper sample_clock (dblp_paper "X" "B" "CCS" 2023) sample_db).2
        !! 0%nat = Some row'
      ∧ row_id row' = 1
      ∧ row_local_path row' = Some "papers/x.pdf".
Proof.
  assert (H : papers sample_db !! 0%nat
              = Some (stored_row 1 "X" "A" "CCS" 2023 (Some "papers/x.pdf") 10))
    by reflexivity.
  split; [exact H|].
  destruct (insert_paper_keeps_rows sample_clock (dblp_paper "X" "B" "CCS" 2023)
              sample_db 0 _ H) as (row' & Hrow & Hid & _ & _ & _ & Hlp & _).
  exists row'. split_and!; done.
Defined.

(** The invariants of the well-formed store under one upsert. *)
Lemma insert_paper_wf (clk : clock_reading) (paper_data : PaperData) (db : database) :
  store_wf db → store_wf (insert_paper clk paper_data db).2.
Proof.
  intros (Huniq & Hids & Hhist). unfold store_wf.
  split; [by apply insert_paper_unique|].
  destruct (stored_key paper_data) as [[[t c] y]|] eqn:Hkey.
  - destruct (insert_paper_accepted clk paper_data db t c y Hkey)
      as (y64 & db' & _ & -> & Hrows & Hh & _). simpl. rewrite Hh. split; [|done].
    rewrite Hrows. unfold upserted_rows. destruct (existsb _ _).
    + unfold updated_rows. rewrite <- list_fmap_compose.
      erewrite list_fmap_ext; [exact Hids|].
      intros i row _. simpl. by destruct (has_key _ row).
    + rewrite fmap_app. apply NoDup_app. split_and!; [done| |apply NoDup_singleton].
      intros i Hi. simpl. rewrite list_elem_of_singleton. intros ->.
      pose proof (proj2 (next_rowid_above (papers_seq db) (row_id <$> papers db)) _ Hi).
      lia.
  - by rewrite insert_paper_not_accepted.
Qed.

Lemma batch_loop_wf (found : list PaperData) :
  ∀ (clock : nat → clock_reading) (db : database) (success_count : Z),
  store_wf db → store_wf (batch_loop clock found db success_count).2.
Proof.
  induction found as [|paper rest IH]; intros clock db success_count Hwf; [done|].
  simpl. pose proof (insert_paper_wf (clock 0%nat) paper db Hwf) as Hwf'.
  destruct (insert_paper (clock 0%nat) paper db) as [ok db']. by apply IH.
Qed.

Lemma log_crawl_history_wf (clk : clock_reading) (conference_ : option string)
    (year_ count : Z) (status : string) (error_message : option string)
    (db : database) :
  store_wf db →
  store_wf (store_after
              (log_crawl_history clk conference_ year_ count status error_message db)
              db).
Proof.
  intros Hwf.
  destruct (log_crawl_history _ _ _ _ _ _ _) as [db'|e] eqn:Hlog; [|done].
  apply log_crawl_history_Return in Hlog as (c & y64 & _ & _ & Hp & _ & Hh).
  destruct Hwf as (Huniq & Hids & Hhist). unfold store_wf, papers_unique. simpl.
  rewrite Hp, Hh. split_and!; [done|done|].
  rewrite fmap_app. apply NoDup_app. split_and!; [done| |apply NoDup_singleton].
  intros i Hi. simpl. rewrite list_elem_of_singleton. intros ->.
  pose proof (proj2 (next_rowid_above (crawl_history_seq db)
                       (h_id <$> crawl_history db)) _ Hi).
  lia.
Qed.

(** X4. The writers of the store keep it well formed: starting from the
    tables that [init_database] creates, [insert_paper],
    [insert_papers_batch] and [log_crawl_history] each preserve that no two
    papers share (title, conference, year) and that the ids of both tables
    are pairwise distinct, whether the statement runs or raises. *)
Theorem store_writers_keep_wf (db : database) :
  store_wf init_database
  ∧ (store_wf db →
     (∀ clk paper_data, store_wf (insert_paper clk paper_data db).2)
     ∧ (∀ clock found, store_wf (insert_papers_batch clock found db).2)
     ∧ (∀ clk conference_name year_ count status error_message,
          store_wf (store_after
                      (log_crawl_history clk conference_name year_ count status
                         error_message db) db))).
Proof.
  split.
  - unfold store_wf, papers_unique. simpl. split_and!; constructor.
  - intros Hwf. split_and!.
    + intros. by apply insert_paper_wf.
    + intros. by apply batch_loop_wf.
    + intros. by apply log_crawl_history_wf.
Qed.

Lemma store_writers_keep_wf_witness :
  store_wf sample_db
  ∧ store_wf (insert_papers_batch sample_clocks sample_papers sample_db).2.
Proof.
  assert (H : store_wf sample_db).
  { unfold store_wf, papers_unique.
    split_and!; apply (bool_decide_unpack _); vm_compute; exact I. }
  split; [exact H|].
  apply (proj2 (store_writers_keep_wf sample_db) H).
Defined.

(** X5. [insert_papers_batch] returns the number of records of the batch
    that the store accepts, those whose title, conference and year are all
    non-null and whose year fits 64 bits, a number between 0 and the length
    of the batch; it does not touch table [crawl_history]. *)
Theorem insert_papers_batch_count (clock : nat → clock_reading)
    (found : list PaperData) (db : database) :
  (insert_papers_batch clock found db).1 = count_rows (filter accepted found)
  ∧ (∀ paper, accepted paper
       ↔ storable paper ∧ ∀ y, get (year paper) = Some y → fits_int64 y = true)
  ∧ 0 ≤ (insert_papers_batch clock found db).1 ≤ count_rows found
  ∧ crawl_history (insert_papers_batch clock found db).2 = crawl_history db.
Proof.
  unfold insert_papers_batch.
  destruct (batch_loop_count found clock db 0) as (Hn & Hh & _).
  rewrite Hn, Hh. split_and!; try done; unfold count_rows;
    [apply accepted_storable|lia|].
  pose proof (length_filter accepted found). lia.
Qed.

(** The keys in the table after one upsert. *)
Lemma insert_paper_keys (clk : clock_reading) (paper_data : PaperData) (db : database) :
  row_key <$> papers (insert_paper clk paper_data db).2
  = match stored_key paper_data with
    | Some k =>
        if decide (k ∈ row_key <$> papers db)
        then row_key <$> papers db
        else (row_key <$> papers db) ++ [k]
    | None => row_key <$> papers db
    end.
Proof.
  destruct (stored_key paper_data) as [[[t c] y]|] eqn:Hkey.
  - destruct (insert_paper_accepted clk paper_data db t c y Hkey)
      as (y64 & db' & <- & -> & Hrows & _). simpl. rewrite Hrows.
    apply upserted_rows_keys.
  - by rewrite insert_paper_not_accepted.
Qed.

Lemma difference_cons_old (k0 : natural_key) (X K : gset natural_key) :
  k0 ∈ K → ({[k0]} ∪ X) ∖ K = X ∖ K.
Proof.
  intros Hold. apply set_eq. intros x.
  rewrite !elem_of_difference, elem_of_union, elem_of_singleton.
  split; [|tauto]. intros [[->|Hx] HK]; [done|]. by split.
Qed.

Lemma size_difference_cons_new (k0 : natural_key) (X K : gset natural_key) :
  k0 ∉ K → size (({[k0]} ∪ X) ∖ K) = S (size (X ∖ (K ∪ {[k0]}))).
Proof.
  intros Hnew.
  assert (Hsplit : ({[k0]} ∪ X) ∖ K = {[k0]} ∪ X ∖ (K ∪ {[k0]})).
  { apply set_eq. intros x.
    rewrite elem_of_difference, !elem_of_union, elem_of_difference,
      elem_of_union, elem_of_singleton.
    destruct (decide (x = k0)) as [->|Hne]; [tauto|]. tauto. }
  rewrite Hsplit, size_union, size_singleton; [done|].
  intros x Hx [_ Hnot]%elem_of_difference. apply Hnot, elem_of_union. by right.
Qed.

Lemma new_keys_step (k0 : natural_key) (ks : list natural_key) (db db1 : database) :
  row_key <$> papers db1
  = (if decide (k0 ∈ row_key <$> papers db)
     then row_key <$> papers db
     else (row_key <$> papers db) ++ [k0]) →
  (length (row_key <$> papers db1) + size (new_keys ks db1))%nat
  = (length (row_key <$> papers db) + size (new_keys (k0 :: ks) db))%nat.
Proof.
  intros Hkeys. unfold new_keys. rewrite Hkeys. simpl.
  destruct (decide (k0 ∈ row_key <$> papers db)) as [Hin|Hnotin].
  - rewrite difference_cons_old; [done|]. by apply elem_of_list_to_set.
  - rewrite size_difference_cons_new by (by rewrite elem_of_list_to_set).
    rewrite length_app, list_to_set_app_L. simpl.
    rewrite (right_id_L ∅ (∪) {[k0]}). lia.
Qed.

Lemma batch_loop_keys (found : list PaperData) :
  ∀ (clock : nat → clock_reading) (db : database) (success_count : Z),
  let db' := (batch_loop clock found db success_count).2 in
  (∀ k, k ∈ row_key <$> papers db'
        ↔ k ∈ row_key <$> papers db ∨ k ∈ omap stored_key found)
  ∧ length (papers db')
    = (length (papers db) + size (new_keys (omap stored_key found) db))%nat.
Proof.
  induction found as [|paper rest IH]; intros clock db success_count; simpl.
  - split.
    + intros k. rewrite elem_of_nil. tauto.
    + unfold new_keys. simpl. rewrite empty_difference_L, size_empty. lia.
  - pose proof (insert_paper_keys (clock 0%nat) paper db) as Hkeys.
    destruct (insert_paper (clock 0%nat) paper db) as [ok db1]. simpl in Hkeys.
    destruct (IH (λ i, clock (S i)) db1
                (if ok then success_count + 1 else success_count)) as (IHin & IHlen).
    clear IH. rewrite IHlen. clear IHlen.
    destruct (stored_key paper) as [k0|] eqn:Hk0; simpl.
    + split.
      * intros k. rewrite IHin, Hkeys, elem_of_cons. clear IHin Hkeys.
        destruct (decide (k0 ∈ row_key <$> papers db)) as [Hin|Hnotin].
        -- split; [tauto|]. intros [?|[->|?]]; tauto.
        -- rewrite elem_of_app, list_elem_of_singleton. tauto.
      * pose proof (new_keys_step k0 (omap stored_key rest) db db1 Hkeys) as Hstep.
        rewrite !length_fmap in Hstep. exact Hstep.
    + split.
      * intros k. by rewrite IHin, Hkeys.
      * unfold new_keys. by rewrite Hkeys, <- !(length_fmap row_key), Hkeys.
Qed.

(** X6. A batch adds one row for each distinct key that the store does
    not hold yet, and nothing else: afterwards the keys in the table are
    those from before and those of the accepted records of the batch, and
    total_papers has grown by the number of distinct new keys. *)
Theorem insert_papers_batch_distinct_keys (clock : nat → clock_reading)
    (found : list PaperData) (db : database) :
  let db' := (insert_papers_batch clock found db).2 in
  (∀ t c y, paper_exists t c y db' = Return true
            ↔ paper_exists t c y db = Return true ∨ (t, c, y) ∈ omap stored_key found)
  ∧ total_papers (get_statistics db')
    = total_papers (get_statistics db)
      + Z.of_nat (size (new_keys (omap stored_key found) db)).
Proof.
  intros db'. subst db'. unfold insert_papers_batch.
  destruct (batch_loop_keys found clock db 0) as (Hin & Hlen). split.
  - intros t c y. rewrite !paper_exists_iff. apply Hin.
  - unfold get_statistics, count_rows. simpl. rewrite Hlen. lia.
Qed.

(** Five records, three of them under two keys, one without a title and
    one of the year 2 ^ 63, stored into the fresh database: two rows. *)
Example insert_papers_batch_sample :
  let db' := (insert_papers_batch sample_clocks
                (sample_papers ++ [untitled_paper; dblp_paper "Z" "A" "CCS" (2 ^ 63)])
                init_database) in
  db'.1 = 3 ∧ total_papers (get_statistics db'.2) = 2.
Proof. vm_compute. done. Qed.

(** * Further properties of the query and of the statistics *)

Section QueryMore.
Variable engine : sqlite_engine.
Implicit Types (db : database) (row : paper_row) (rows : list paper_row).

Lemma StronglySorted_take {A} (R : relation A) (l : list A) (n : nat) :
  StronglySorted R l → StronglySorted R (take n l).
Proof.
  intros Hl. rewrite <- (take_drop n l) in Hl.
  by apply StronglySorted_app_1_l in Hl.
Qed.

Lemma apply_limit_Return {A} (limit : option Z) (l out : list A) :
  apply_limit limit l = Return out → ∃ k : nat, out = take k l.
Proof.
  unfold apply_limit. destruct limit as [n|].
  - destruct (fits_int64 n); [|done]. intros [= <-].
    destruct (n <? 0); [|by eexists]. exists (length l). by rewrite take_ge.
  - intros [= <-]. exists (length l). by rewrite take_ge.
Qed.

Lemma matches_build_query (conference_ : option string) (year_ : option Z)
    (limit : option Z) row :
  matches (build_query conference_ year_ limit) row = true
  ↔ (∀ c, conference_ = Some c → c ≠ EmptyString → row_conference row = c)
    ∧ (∀ y, year_ = Some y → y ≠ 0 → int64_value (row_year row) = y).
Proof.
  unfold matches, build_query. simpl. rewrite andb_true_iff.
  assert (Hc : match (if truthy_str conference_ then conference_ else None) with
               | Some c => bool_decide (row_conference row = c)
               | None => true
               end = true
               ↔ ∀ c, conference_ = Some c → c ≠ EmptyString → row_conference row = c).
  { destruct conference_ as [c|]; simpl; [|by split].
    destruct (decide (c = EmptyString)) as [->|Hne].
    - rewrite bool_decide_eq_true_2 by done. simpl. split; [|done].
      intros _ c [= <-] Hc. done.
    - rewrite bool_decide_eq_false_2 by done. simpl. rewrite bool_decide_eq_true.
      split; [by intros ? ? [= <-] _ | intros H; by apply H]. }
  assert (Hy : match (if truthy_int year_ then year_ else None) with
               | Some y => bool_decide (int64_value (row_year row) = y)
               | None => true
               end = true
               ↔ ∀ y, year_ = Some y → y ≠ 0 → int64_value (row_year row) = y).
  { destruct year_ as [y|]; simpl; [|by split].
    destruct (decide (y = 0)) as [->|Hne].
    - simpl. split; [|done]. intros _ y [= <-] Hy. done.
    - rewrite (proj2 (Z.eqb_neq _ _) Hne). simpl. rewrite bool_decide_eq_true.
      split; [by intros ? ? [= <-] _ | intros H; by apply H]. }
  by rewrite Hc, Hy.
Qed.

(** The rows that the statement selects, in table order. *)
Lemma where_year_binds (conference_ : option string) (year_ limit : option Z) :
  (∀ y, year_ = Some y → fits_int64 y = true) →
  ∃ bound, bind_optional_int (where_year (build_query conference_ year_ limit))
           = Return bound.
Proof.
  intros Hfits. unfold build_query. simpl.
  destruct (truthy_int year_); [|by eexists].
  destruct year_ as [y|]; [|by eexists]. simpl.
  destruct (bind_int_fits y (Hfits y eq_refl)) as (y64 & _ & ->). by eexists.
Qed.

Lemma where_year_overflow (conference_ : option string) (y : Z) (limit : option Z) db :
  y ≠ 0 → fits_int64 y = false →
  get_papers engine conference_ (Some y) limit db = Raise int_too_large.
Proof.
  intros Hne Hfits. unfold get_papers, execute_select, build_query. simpl.
  rewrite (proj2 (Z.eqb_neq _ _) Hne). simpl. by rewrite bind_int_overflow.
Qed.

(** What [get_papers] returns is cut out of an arrangement of the
    matching rows that is sorted newest first. *)
Lemma get_papers_Return (conference_ : option string) (year_ limit : option Z) db rows :
  get_papers engine conference_ year_ limit db = Return rows →
  ∃ sorted,
    sorted ≡ₚ filter (λ row, matches (build_query conference_ year_ limit) row = true)
                (papers db)
    ∧ StronglySorted newer_first sorted
    ∧ apply_limit (limit_clause (build_query conference_ year_ limit)) sorted
      = Return rows.
Proof.
  unfold get_papers, execute_select.
  destruct (bind_optional_int _); simpl; [|done]. intros Hlimit.
  eexists. split; [apply order_by_permutation|]. split; [apply order_by_sorted|done].
Qed.

Lemma get_papers_binds (conference_ : option string) (year_ limit : option Z) db :
  (∀ y, year_ = Some y → fits_int64 y = true) →
  get_papers engine conference_ year_ limit db
  = apply_limit (limit_clause (build_query conference_ year_ limit))
      (order_by_created_at_desc engine (build_query conference_ year_ limit)
         (filter (λ row, matches (build_query conference_ year_ limit) row = true)
            (papers db))).
Proof.
  intros Hfits. unfold get_papers, execute_select.
  by destruct (where_year_binds conference_ year_ limit Hfits) as [bound ->].
Qed.

(** The rows matched do not depend on the limit. *)
Lemma matches_limit (conference_ : option string) (year_ limit limit' : option Z) db :
  filter (λ row, matches (build_query conference_ year_ limit) row = true) (papers db)
  = filter (λ row, matches (build_query conference_ year_ limit') row = true) (papers db).
Proof. done. Qed.
End QueryMore.

(** X7. The filters of [get_papers]. A year filter in force (a year other
    than 0) is bound to the statement, and the call raises [OverflowError]
    when it does not fit 64 bits. Otherwise, without a limit, [get_papers]
    returns exactly the stored rows that meet the filters in force (a
    conference other than the empty string, a year other than 0), each as
    often as it is stored; and whatever [get_papers] returns, with or
    without limit, is ordered newest first by creation time and consists of
    stored rows. *)
Theorem get_papers_filtered (engine : sqlite_engine) (conference_ : option string)
    (year_ limit : option Z) (db : database) :
  let selected row :=
    matches (build_query conference_ year_ None) row = true in
  (∀ row, selected row
     ↔ (∀ c, conference_ = Some c → c ≠ EmptyString → row_conference row = c)
       ∧ (∀ y, year_ = Some y → y ≠ 0 → int64_value (row_year row) = y))
  ∧ (∀ y, year_ = Some y → y ≠ 0 → fits_int64 y = false →
       get_papers engine conference_ year_ limit db = Raise int_too_large)
  ∧ ((∀ y, year_ = Some y → fits_int64 y = true) →
     ∃ rows,
       get_papers engine conference_ year_ None db = Return rows
       ∧ rows ≡ₚ filter selected (papers db)
       ∧ (∀ row, row ∈ rows ↔ row ∈ papers db ∧ selected row))
  ∧ (∀ rows,
       get_papers engine conference_ year_ limit db = Return rows →
       StronglySorted newer_first rows ∧ rows ⊆+ papers db).
Proof.
  intros selected. split_and!.
  - intros row. apply matches_build_query.
  - intros y -> Hne Hfits. by apply where_year_overflow.
  - intros Hfits. rewrite (get_papers_binds engine _ _ None db Hfits). simpl.
    eexists. split; [done|]. split; [apply order_by_permutation|].
    intros row. rewrite order_by_permutation, list_elem_of_filter. tauto.
  - intros rows (sorted & Hperm & Hsorted & Hlimit)%get_papers_Return.
    apply apply_limit_Return in Hlimit as [k ->]. split.
    + by apply StronglySorted_take.
    + etrans; [apply sublist_submseteq, sublist_take|].
      rewrite Hperm. apply sublist_submseteq, sublist_filter.
Qed.

Lemma get_papers_filtered_witness :
  (∀ y, Some 2023 = Some y → fits_int64 y = true)
  ∧ ∃ rows,
      get_papers merge_sort_engine (Some "CCS") (Some 2023) None sample_db = Return rows
      ∧ (∀ row, row ∈ rows
           ↔ row ∈ papers sample_db
             ∧ matches (build_query (Some "CCS") (Some 2023) None) row = true).
Proof.
  assert (H : ∀ y, Some 2023 = Some y → fits_int64 y = true) by (by intros ? [= <-]).
  split; [exact H|].
  destruct (get_papers_filtered merge_sort_engine (Some "CCS") (Some 2023) None sample_db)
    as (_ & _ & Hrows & _).
  destruct (Hrows H) as (rows & Hrun & _ & Hin). by exists rows.
Defined.

(** X8. The limit of [get_papers], for a call that returns [matching]
    without limit. A limit n from 1 to 2 ^ 63 - 1 returns min(n, number of
    matching rows) rows: the first n of some arrangement of the matching
    rows that is sorted newest first (which rows of equal creation time come
    first is up to the engine). A negative limit down to - 2 ^ 63 returns
    every matching row, and the limit 0 is no limit at all. A limit beyond
    the 64-bit integers makes the statement fail with "datatype
    mismatch". *)
Theorem get_papers_limit (engine : sqlite_engine) (conference_ : option string)
    (year_ : option Z) (n : Z) (db : database) (matching : list paper_row) :
  get_papers engine conference_ year_ None db = Return matching →
  (0 < n ≤ INT64_MAX →
   ∃ rows rest,
     get_papers engine conference_ year_ (Some n) db = Return rows
     ∧ rows ++ rest ≡ₚ matching
     ∧ StronglySorted newer_first (rows ++ rest)
     ∧ Z.of_nat (length rows) = Z.min n (Z.of_nat (length matching)))
  ∧ (INT64_MIN ≤ n < 0 →
     ∃ rows,
       get_papers engine conference_ year_ (Some n) db = Return rows
       ∧ rows ≡ₚ matching
       ∧ StronglySorted newer_first rows)
  ∧ (n = 0 → get_papers engine conference_ year_ (Some n) db = Return matching)
  ∧ (n < INT64_MIN ∨ INT64_MAX < n →
     get_papers engine conference_ year_ (Some n) db = Raise datatype_mismatch).
Proof.
  intros Hall.
  assert (Hbinds : ∃ bound,
            bind_optional_int (where_year (build_query conference_ year_ None))
            = Return bound).
  { unfold get_papers, execute_select in Hall.
    destruct (bind_optional_int _) as [bound|]; [by exists bound|done]. }
  destruct Hbinds as [bound Hbound].
  assert (Hmatching : matching
            ≡ₚ filter (λ row, matches (build_query conference_ year_ None) row = true)
                 (papers db)).
  { unfold get_papers, execute_select in Hall. rewrite Hbound in Hall. simpl in Hall.
    injection Hall as <-. apply order_by_permutation. }
  assert (Hrun : n ≠ 0 →
            get_papers engine conference_ year_ (Some n) db
            = apply_limit (Some n)
                (order_by_created_at_desc engine (build_query conference_ year_ (Some n))
                   (filter (λ row, matches (build_query conference_ year_ None) row = true)
                      (papers db)))).
  { intros Hne. unfold get_papers, execute_select.
    change (where_year (build_query conference_ year_ (Some n)))
      with (where_year (build_query conference_ year_ None)).
    rewrite Hbound. simpl. by rewrite (proj2 (Z.eqb_neq _ _) Hne). }
  set (sorted := order_by_created_at_desc engine (build_query conference_ year_ (Some n))
                   (filter (λ row, matches (build_query conference_ year_ None) row = true)
                      (papers db))) in *.
  assert (Hsorted : sorted ≡ₚ matching).
  { unfold sorted. by rewrite order_by_permutation, Hmatching. }
  split_and!.
  - intros Hpos. exists (take (Z.to_nat n) sorted), (drop (Z.to_nat n) sorted).
    rewrite Hrun by lia. unfold apply_limit.
    rewrite (proj2 (fits_int64_spec n)) by (unfold INT64_MIN; lia).
    rewrite (proj2 (Z.ltb_ge n 0)) by lia.
    split; [done|]. rewrite take_drop. split; [done|].
    split; [apply order_by_sorted|].
    rewrite length_take, Nat2Z.inj_min, Z2Nat.id by lia.
    by rewrite (Permutation_length Hsorted).
  - intros Hneg. exists sorted. rewrite Hrun by lia. unfold apply_limit.
    rewrite (proj2 (fits_int64_spec n)) by (unfold INT64_MAX; lia).
    rewrite (proj2 (Z.ltb_lt n 0)) by lia.
    split; [done|]. split; [done|apply order_by_sorted].
  - by intros ->.
  - intros Hout. rewrite Hrun by (unfold INT64_MIN, INT64_MAX in Hout; lia).
    unfold apply_limit.
    destruct (fits_int64 n) eqn:Hfits; [|done].
    apply fits_int64_spec in Hfits. lia.
Qed.

Lemma get_papers_limit_witness :
  0 < 1 ≤ INT64_MAX
  ∧ (∃ matching,
       get_papers merge_sort_engine None None None sample_db = Return matching
       ∧ ∃ rows rest,
           get_papers merge_sort_engine None None (Some 1) sample_db = Return rows
           ∧ rows ++ rest ≡ₚ matching
           ∧ Z.of_nat (length rows) = Z.min 1 (Z.of_nat (length matching)))
  ∧ row_ids (get_papers merge_sort_engine None None (Some 1) sample_db) = Return [2].
Proof.
  assert (H1 : 0 < 1 ≤ INT64_MAX) by (unfold INT64_MAX; lia).
  split; [exact H1|]. split; [|reflexivity].
  eexists. split; [reflexivity|].
  destruct (get_papers_limit merge_sort_engine None None 1 sample_db _ eq_refl)
    as (Hpos & _).
  destruct (Hpos H1) as (rows & rest & Hrun & Hperm & _ & Hlen).
  by exists rows, rest.
Defined.

(** The limits of the sample store: the newest row, every row, and the
    two ways the call raises. *)
Example get_papers_limits_sample :
  row_ids (get_papers merge_sort_engine None None (Some 1) sample_db) = Return [2]
  ∧ row_ids (get_papers merge_sort_engine None None (Some (-1)) sample_db)
    = Return [2; 1]
  ∧ get_papers merge_sort_engine None None (Some (2 ^ 63)) sample_db
    = Raise datatype_mismatch
  ∧ get_papers merge_sort_engine None (Some (2 ^ 63)) (Some 1) sample_db
    = Raise int_too_large.
Proof. vm_compute. done. Qed.

Section StatisticsMore.
Implicit Types (db : database) (row : paper_row) (rows : list paper_row).

(** The number of rows of one conference. *)
Abbreviation conference_count c rows :=
  (count_rows (filter (λ row, row_conference row = c) rows)).

Lemma group_by_conference_keys rows :
  (group_by_conference rows).*1 = remove_dups (row_conference <$> rows).
Proof.
  unfold group_by_conference. rewrite <- list_fmap_compose.
  rewrite <- (list_fmap_id (remove_dups _)) at 2. by apply list_fmap_ext.
Qed.

Lemma sum_counts_permutation (l l' : list (string * Z)) :
  l ≡ₚ l' →
  foldr (λ kv acc, kv.2 + acc) 0 l = foldr (λ kv acc, kv.2 + acc) 0 l'.
Proof. induction 1; simpl; lia. Qed.

(** The counts of the conferences in [confs] add up to the number of
    rows, when [confs] lists each conference of the rows once. *)
Lemma sum_conference_counts (confs : list string) : ∀ rows,
  NoDup confs →
  (∀ row, row ∈ rows → row_conference row ∈ confs) →
  foldr (λ kv acc, kv.2 + acc) 0 ((λ c, (c, conference_count c rows)) <$> confs)
  = count_rows rows.
Proof.
  induction confs as [|c confs IH]; intros rows Hnd Hall.
  - destruct rows as [|row rows]; [done|].
    specialize (Hall row (list_elem_of_here _ _)). by apply elem_of_nil in Hall.
  - apply NoDup_cons in Hnd as [Hc Hnd]. rewrite fmap_cons. cbn [foldr snd].
    pose proof (filter_app_complement (λ row, row_conference row = c) rows) as Hsplit.
    apply Permutation_length in Hsplit. rewrite length_app in Hsplit.
    assert (Hext : (λ c', (c', conference_count c' rows)) <$> confs
                   = (λ c', (c', conference_count c'
                                   (filter (λ row, ¬ row_conference row = c) rows)))
                       <$> confs).
    { apply list_fmap_ext. intros i c' Hi. f_equal. unfold count_rows. f_equal. f_equal.
      rewrite list_filter_filter. apply list_filter_iff. intros row.
      split; [|tauto]. intros ->. split; [done|]. intros ->.
      apply Hc. by eapply list_elem_of_lookup_2. }
    rewrite Hext, (IH (filter (λ row, ¬ row_conference row = c) rows) Hnd).
    + unfold count_rows. lia.
    + intros row [Hne Hrow]%list_elem_of_filter.
      specialize (Hall row Hrow). apply elem_of_cons in Hall as [?|?]; done.
Qed.

Lemma max_created_at_spec rows :
  match max_created_at rows with
  | None => rows = []
  | Some m =>
      (∃ row, row ∈ rows ∧ row_created_at row = m)
      ∧ ∀ row, row ∈ rows → row_created_at row ≤ m
  end.
Proof.
  induction rows as [|r rows IH]; [done|]. simpl.
  destruct (max_created_at rows) as [m|].
  - destruct IH as [(row & Hrow & Hm) Hmax]. split.
    + destruct (Z.max_spec (row_created_at r) m) as [[_ ->]|[_ ->]].
      * exists row. split; [by right|done].
      * exists r. split; [by left|done].
    + intros row' [->|Hin]%elem_of_cons; [lia|]. specialize (Hmax _ Hin). lia.
  - subst rows. split.
    + exists r. split; [by left|done].
    + intros row' [->|Hin]%elem_of_cons; [done|]. by apply elem_of_nil in Hin.
Qed.
End StatisticsMore.

(** X9. The per-conference counts of the statistics: a conference has an
    entry exactly when some stored paper belongs to it, the entry is the
    (positive) number of its papers, and the entries add up to
    total_papers. *)
Theorem statistics_by_conference (db : database) :
  (∀ c, by_conference (get_statistics db) !! c
        = if decide (c ∈ row_conference <$> papers db)
          then Some (count_rows (filter (λ row, row_conference row = c) (papers db)))
          else None)
  ∧ (∀ c n, by_conference (get_statistics db) !! c = Some n → 0 < n)
  ∧ sum_counts (by_conference (get_statistics db)) = total_papers (get_statistics db).
Proof.
  assert (Hnd : NoDup (group_by_conference (papers db)).*1).
  { rewrite group_by_conference_keys. apply NoDup_remove_dups. }
  assert (Hlookup : ∀ c, by_conference (get_statistics db) !! c
        = if decide (c ∈ row_conference <$> papers db)
          then Some (count_rows (filter (λ row, row_conference row = c) (papers db)))
          else None).
  { intros c. unfold get_statistics. simpl. destruct (decide _) as [Hin|Hnotin].
    - apply elem_of_list_to_map_1; [done|]. unfold group_by_conference.
      apply list_elem_of_fmap. exists c. split; [done|].
      by apply elem_of_remove_dups.
    - apply not_elem_of_list_to_map_1. rewrite group_by_conference_keys.
      by rewrite elem_of_remove_dups. }
  split_and!; [done| |].
  - intros c n. rewrite Hlookup. destruct (decide _) as [Hin|]; [|done].
    intros [= <-]. apply list_elem_of_fmap in Hin as (row & -> & Hrow).
    assert (Hf : row ∈ filter (λ r, row_conference r = row_conference row) (papers db))
      by (by apply list_elem_of_filter).
    unfold count_rows. destruct (filter _ _); [by apply elem_of_nil in Hf|]. simpl. lia.
  - unfold sum_counts, get_statistics. simpl.
    rewrite (sum_counts_permutation _ _ (map_to_list_to_map _ Hnd)).
    unfold group_by_conference. apply sum_conference_counts.
    + apply NoDup_remove_dups.
    + intros row Hrow. apply elem_of_remove_dups. by apply list_elem_of_fmap_2.
Qed.

(** X10. last_update is the creation time of the newest stored paper: it
    is absent exactly on the empty table, otherwise it is the created_at
    of some row and no row is newer; it is the created_at of the first row
    that the unfiltered [get_papers] returns, whichever order the engine
    gives to rows of equal creation time. *)
Theorem statistics_last_update (engine : sqlite_engine) (db : database) :
  match last_update (get_statistics db) with
  | None => papers db = []
  | Some m =>
      (∃ row, row ∈ papers db ∧ row_created_at row = m)
      ∧ ∀ row, row ∈ papers db → row_created_at row ≤ m
  end
  ∧ ∃ rows,
      get_papers engine None None None db = Return rows
      ∧ row_created_at <$> head rows = last_update (get_statistics db).
Proof.
  pose proof (max_created_at_spec (papers db)) as Hmax.
  split; [exact Hmax|].
  destruct (get_papers_unfiltered engine db) as (rows & Hq & Hperm & Hsorted).
  exists rows. split; [done|]. clear Hq.
  unfold get_statistics. simpl.
  destruct rows as [|first rest]; simpl.
  - apply Permutation_nil_l in Hperm. rewrite <- Hperm. done.
  - destruct (max_created_at (papers db)) as [m|].
    + destruct Hmax as [(row & Hrow & Hm) Hle]. f_equal.
      apply StronglySorted_inv in Hsorted as [_ Hfirst].
      assert (Hin : first ∈ papers db) by (rewrite <- Hperm; by left).
      specialize (Hle _ Hin).
      rewrite <- Hperm in Hrow. apply elem_of_cons in Hrow as [->|Hrest]; [lia|].
      rewrite Forall_forall in Hfirst. specialize (Hfirst _ Hrest).
      unfold newer_first in Hfirst. lia.
    + rewrite Hmax in Hperm. by apply Permutation_nil_r in Hperm.
Qed.

(** The statistics of the sample store. *)
Example statistics_sample :
  let stats := get_statistics sample_db in
  total_papers stats = 2
  ∧ by_conference stats !! "CCS" = Some 1
  ∧ by_conference stats !! "NDSS" = None
  ∧ last_update stats = Some 20.
Proof. vm_compute. done. Qed.


(** * Further properties of the fetcher *)

Section FetcherMore.
Variable transport : nat → string → http_result.
Variables retry_times delay : Z.
Variable url : string.

Lemma requested_backoff_events (a k : nat) :
  requested (backoff_events url a k) = replicate k url.
Proof.
  revert a. induction k as [|k IH]; intros a; [done|].
  rewrite backoff_events_S. simpl. by rewrite IH.
Qed.

Lemma requested_app (evs1 evs2 : list event) :
  requested (evs1 ++ evs2) = requested evs1 ++ requested evs2.
Proof. unfold requested. apply omap_app. Qed.



(** The events up to and with the call of attempt [j]. *)
Lemma requested_attempts (j : nat) (tail : list event) :
  requested (backoff_events url 0 j ++ EvGet url :: tail)
  = replicate (S j) url ++ requested tail.
Proof.
  rewrite requested_app, requested_backoff_events.
  change (requested (EvGet url :: tail)) with (url :: requested tail).
  by rewrite replicate_S_end, <- app_assoc.
Qed.

(** A run of [fetch_page] with [retry_times >= 1] ends with the call of
    some attempt [j], followed by the politeness sleep when it returns. *)
Lemma fetch_page_ends n :
  1 ≤ retry_times →
  ∃ j : nat,
    Z.of_nat j < retry_times ∧ (j ≤ 34)%nat
    ∧ (∀ i : nat, (i < j)%nat →
         is_Some (attempt_error (transport (sent n + i)%nat url)))
    ∧ ((∃ text,
          attempt_body (transport (sent n + j)%nat url) = Some text
          ∧ sleep_error delay = None
          ∧ fetch_page transport retry_times delay url n
            = (Return text, after_success url delay n j))
       ∨ (∃ e,
            fetch_page transport retry_times delay url n
            = (Raise e, after_attempts url n j))).
Proof.
  intros Hretry.
  destruct (fetch_page_cases transport retry_times delay url n Hretry)
    as (j & Hj & Hj34 & Hfail & Hcases).
  exists j. split_and!; [done..|].
  destruct Hcases as [(text & Hbody & Hrun)|[(e & _ & _ & Hrun)
                      |[(e & _ & _ & Hrun)|(e & _ & _ & _ & Hrun)]]]; eauto.
  destruct (sleep_error delay) as [e|] eqn:He; [eauto|]. left. by exists text.
Qed.
End FetcherMore.

Lemma attempt_body_Some (r : http_result) (text : string) :
  attempt_body r = Some text
  ↔ ∃ status_code, r = Response status_code text
                   ∧ (status_code < 400 ∨ 600 ≤ status_code).
Proof.
  destruct r as [e|status_code body]; simpl.
  - split; [done|]. by intros (? & [=] & _).
  - unfold raise_for_status.
    destruct (400 <=? status_code) eqn:H1; destruct (status_code <? 600) eqn:H2; simpl;
      try apply Z.leb_le in H1; try apply Z.leb_gt in H1;
      try apply Z.ltb_lt in H2; try apply Z.ltb_ge in H2;
      (split; [intros [= <-]; try (exists status_code; split; [done|lia])
              | intros (st & [= <- <-] & Hst); try done; lia]).
Qed.

(** The events of a run of [fetch_page]: calls for the one URL, at most
    [retry_times] of them. *)
Lemma fetch_page_events (transport : nat → string → http_result)
    (retry_times delay : Z) (url : string) (n : network) :
  let n' := (fetch_page transport retry_times delay url n).2 in
  ∃ evs,
    trace n' = trace n ++ evs
    ∧ (sent n ≤ sent n')%nat
    ∧ requested evs = replicate (sent n' - sent n) url
    ∧ Z.of_nat (sent n' - sent n) ≤ Z.max 0 retry_times.
Proof.
  intros n'. subst n'.
  destruct (Z_lt_le_dec retry_times 1) as [Hnone|Hretry].
  - rewrite fetch_page_no_attempt by lia. exists []. simpl.
    rewrite app_nil_r, Nat.sub_diag. split_and!; [done|done|done|lia].
  - destruct (fetch_page_ends transport retry_times delay url n Hretry)
      as (j & Hj & _ & _ & [(text & _ & _ & ->)|(e & ->)]);
      cbn [snd after_success after_attempts sent trace]; eexists;
      (split; [reflexivity|]); (split; [lia|]);
      rewrite requested_attempts; cbn [requested omap]; rewrite app_nil_r;
      (split; [f_equal; lia|lia]).
Qed.

(** X11. Whatever the transport answers, [fetch_page] sends at most
    [retry_times] requests (none when [retry_times <= 0]), all of them to
    the URL it was given, and only adds to the record of events. *)
Theorem fetch_page_request_bound (transport : nat → string → http_result)
    (retry_times delay : Z) (url : string) (n : network) :
  let n' := (fetch_page transport retry_times delay url n).2 in
  ∃ evs,
    trace n' = trace n ++ evs
    ∧ (sent n ≤ sent n')%nat
    ∧ requested evs = replicate (sent n' - sent n) url
    ∧ Z.of_nat (sent n' - sent n) ≤ Z.max 0 retry_times.
Proof. apply fetch_page_events. Qed.

(** X12. What [fetch_page] returns is the body of a response that passed
    [raise_for_status]: when it returns a text, either [retry_times <= 0]
    and the text is empty with nothing sent, or the text is the body of the
    last response received, whose status is outside 400..599, every earlier
    attempt having failed. *)
Theorem fetch_page_returns_body (transport : nat → string → http_result)
    (retry_times delay : Z) (url : string) (n n' : network) (text : string) :
  fetch_page transport retry_times delay url n = (Return text, n') →
  (retry_times ≤ 0 ∧ text = EmptyString ∧ n' = n)
  ∨ (1 ≤ retry_times ∧ 0 ≤ delay
     ∧ ∃ (j : nat) (status_code : Z),
         Z.of_nat j < retry_times
         ∧ sent n' = (sent n + S j)%nat
         ∧ transport (sent n + j)%nat url = Response status_code text
         ∧ (status_code < 400 ∨ 600 ≤ status_code)
         ∧ ∀ i : nat, (i < j)%nat →
             is_Some (attempt_error (transport (sent n + i)%nat url))).
Proof.
  intros Hrun. destruct (Z_lt_le_dec retry_times 1) as [Hnone|Hretry].
  - left. rewrite fetch_page_no_attempt in Hrun by lia.
    injection Hrun as <- <-. split_and!; [lia|done|done].
  - right.
    destruct (fetch_page_ends transport retry_times delay url n Hretry)
      as (j & Hj & _ & Hfail & [(body & Hbody & Hdelay & Hrun1)|(e & Hrun1)]);
      rewrite Hrun1 in Hrun; [|done].
    injection Hrun as <- <-.
    apply attempt_body_Some in Hbody as (status_code & Hresp & Hstatus).
    apply sleep_error_None in Hdelay.
    split_and!; [done|lia|]. exists j, status_code. split_and!; done.
Qed.

Lemma fetch_page_returns_body_witness :
  ∃ n',
    fetch_page flaky 3 1 "u" idle_network = (Return "<html/>", n')
    ∧ ∃ (j : nat) (status_code : Z),
        flaky j "u" = Response status_code "<html/>"
        ∧ (status_code < 400 ∨ 600 ≤ status_code).
Proof.
  eexists. split; [vm_compute; reflexivity|].
  destruct (fetch_page_returns_body flaky 3 1 "u" idle_network _ "<html/>" eq_refl)
    as [(Hle & _)|(_ & _ & j & status_code & _ & _ & Hresp & Hstatus & _)]; [lia|].
  exists j, status_code. split; [exact Hresp | exact Hstatus].
Defined.





(** * Further properties of the crawler manager *)

Section ManagerMore.
Variable clock : nat → clock_reading.
Implicit Types (self : CrawlerManager) (w : world) (db : database).

Lemma store_extends_refl db : store_extends db db.
Proof. unfold store_extends. split_and!; [done|done|lia|done]. Qed.

Lemma store_extends_trans db1 db2 db3 :
  store_extends db1 db2 → store_extends db2 db3 → store_extends db1 db3.
Proof.
  intros (Hp1 & Hk1 & Hl1 & Hw1) (Hp2 & Hk2 & Hl2 & Hw2). unfold store_extends.
  split_and!; [by etrans|auto|lia|auto].
Qed.

Lemma insert_papers_batch_extends (found : list PaperData) (clk : nat → clock_reading) db :
  store_extends db (insert_papers_batch clk found db).2.
Proof.
  unfold insert_papers_batch.
  destruct (batch_loop_keys found clk db 0) as (Hin & Hlen).
  destruct (batch_loop_count found clk db 0) as (_ & Hh & _).
  unfold store_extends. split_and!.
  - by rewrite Hh.
  - intros t c y. rewrite !paper_exists_iff, Hin. tauto.
  - unfold get_statistics, count_rows. simpl. lia.
  - apply batch_loop_wf.
Qed.

Lemma log_crawl_history_extends clk (conference_ : option string) (year_ count : Z)
    status error_message db :
  store_extends db
    (store_after (log_crawl_history clk conference_ year_ count status error_message db)
       db).
Proof.
  pose proof (log_crawl_history_wf clk conference_ year_ count status error_message db)
    as Hwf.
  destruct (log_crawl_history _ _ _ _ _ _ _) as [db'|e] eqn:Hlog;
    [|apply store_extends_refl].
  apply log_crawl_history_Return in Hlog as (c & y64 & _ & _ & Hp & _ & Hh).
  simpl in *. unfold store_extends. split_and!.
  - rewrite Hh. by apply prefix_app_r.
  - intros t c' y. by rewrite !paper_exists_iff, Hp.
  - unfold get_statistics. simpl. rewrite Hp. lia.
  - done.
Qed.

(** The rows that a call of [log_crawl_history] adds to the log. *)
Lemma log_crawl_history_rows clk (conference_ : option string) (year_ count : Z)
    status error_message db :
  ∃ rows,
    crawl_history
      (store_after (log_crawl_history clk conference_ year_ count status error_message db)
         db)
    = crawl_history db ++ rows
    ∧ attempt_pair <$> rows = option_list (loggable (conference_, year_)).
Proof.
  destruct conference_ as [conference_name|].
  - destruct (fits_int64 year_) eqn:Hfits.
    + destruct (log_crawl_history_fits clk conference_name year_ count status
                  error_message db Hfits) as (y64 & db' & Hval & -> & _ & _ & Hh).
      eexists [_]. split; [exact Hh|]. simpl. rewrite Hfits. simpl.
      unfold attempt_pair. simpl. by rewrite Hval.
    + rewrite log_crawl_history_overflow by done. exists []. simpl.
      rewrite app_nil_r, Hfits. done.
  - rewrite log_crawl_history_null. exists []. simpl. by rewrite app_nil_r.
Qed.

(** What one call of [crawl_conference] does to the store. *)
Lemma crawl_conference_effect self (conference_ : option string) (year_ : Z) w :
  let w' := (crawl_conference clock self conference_ year_ w).2 in
  store_extends (db w) (db w')
  ∧ ∃ rows,
      crawl_history (db w') = crawl_history (db w) ++ rows
      ∧ attempt_pair <$> rows `sublist_of` option_list (loggable (conference_, year_))
      ∧ ((∀ c y n, Forall has_key_fields (crawled_papers self c y n)) →
         attempt_pair <$> rows = option_list (loggable (conference_, year_))).
Proof.
  intros w'. subst w'. destruct conference_ as [conference_name|].
  2:{ rewrite crawl_conference_null_name. cbn [snd].
      split; [apply store_extends_refl|]. exists []. by rewrite app_nil_r. }
  rewrite crawl_conference_crawled. cbv zeta.
  destruct (_deduplicate_papers _) as [[|paper unique]|e] eqn:Hdedup.
  - pose proof (log_crawl_history_extends (clock (ticks w)) (Some conference_name)
                  year_ 0 "empty" None (db w)) as Hext.
    destruct (log_crawl_history_rows (clock (ticks w)) (Some conference_name)
                year_ 0 "empty" None (db w)) as (rows & Hh & Hpairs).
    destruct (log_crawl_history _ _ _ _ _ _ _); cbn [snd db store_after] in *;
      (split; [done|]); exists rows; rewrite Hpairs; done.
  - set (batch := insert_papers_batch _ _ _).
    pose proof (insert_papers_batch_extends (paper :: unique)
                  (λ i, clock (ticks w + i)%nat) (db w)) as Hext1.
    fold batch in Hext1.
    assert (Hh1 : crawl_history batch.2 = crawl_history (db w)).
    { unfold batch, insert_papers_batch.
      by destruct (batch_loop_count (paper :: unique) (λ i, clock (ticks w + i)%nat)
                     (db w) 0) as (_ & ? & _). }
    pose proof (log_crawl_history_extends
                  (clock (ticks w + length (paper :: unique))%nat)
                  (Some conference_name) year_ batch.1 "success" None batch.2) as Hext2.
    destruct (log_crawl_history_rows
                (clock (ticks w + length (paper :: unique))%nat)
                (Some conference_name) year_ batch.1 "success" None batch.2)
      as (rows & Hh & Hpairs).
    rewrite Hh1 in Hh.
    destruct (log_crawl_history _ _ _ _ _ _ _); cbn [snd db store_after] in *;
      (split; [by eapply store_extends_trans|]); exists rows; rewrite Hpairs; done.
  - cbn [snd db]. split; [apply store_extends_refl|].
    exists []. rewrite app_nil_r. split; [done|]. split; [apply sublist_nil_l|].
    intros Hkeys.
    exfalso. specialize (Hkeys conference_name year_ (net w)).
    apply dedup_returns_first_occurrences in Hkeys as (Hret & _). congruence.
Qed.



End ManagerMore.

(** The only exception of the deduplicator is the [KeyError] of one of
    its three subscripts. *)
Lemma dedup_loop_Raise_KeyError (found : list PaperData) :
  ∀ (seen : gset dedup_key) (unique : list PaperData) (e : exn),
  dedup_loop found seen unique = Raise e →
  ∃ key, e = KeyError key ∧ key ∈ ["title"; "conference"; "year"].
Proof.
  induction found as [|paper rest IH]; intros seen unique e; simpl; [done|].
  unfold paper_key.
  destruct (title paper) as [|t]; simpl.
  { intros [= <-]. exists "title". split; [done|]. by left. }
  destruct (conference paper) as [|c]; simpl.
  { intros [= <-]. exists "conference". split; [done|]. right. by left. }
  destruct (year paper) as [|y]; simpl.
  { intros [= <-]. exists "year". split; [done|]. right. right. by left. }
  destruct (decide _); apply IH.
Qed.

Section CrawlersRecords.
Variable P : Z → PaperData → Prop.

Lemma run_crawlers_Forall (cs : list crawler) :
  Forall (returns_records P) cs →
  ∀ (year_ : Z) (all_papers : list PaperData) (n : network),
  Forall (P year_) all_papers → Forall (P year_) (run_crawlers cs year_ all_papers n).1.
Proof.
  induction 1 as [|crawler_ cs Hc _ IH]; intros year_ all_papers n Hacc; [done|].
  simpl. specialize (Hc year_ n).
  destruct (crawler_ year_ n) as [[found|e] n1]; simpl in Hc; apply IH; [|done].
  by apply Forall_app.
Qed.

Lemma crawled_papers_Forall (self : CrawlerManager) :
  map_Forall (λ _ cs, Forall (returns_records P) cs) (crawlers self) →
  ∀ (conference_name : string) (year_ : Z) (n : network),
  Forall (P year_) (crawled_papers self conference_name year_ n).
Proof.
  intros Hall conference_name year_ n. unfold crawled_papers.
  apply run_crawlers_Forall; [|done].
  destruct (crawlers self !! conference_name) as [cs|] eqn:Hcs; simpl; [|done].
  by apply (Hall _ _ Hcs).
Qed.

Lemma CrawlerManager_init_Forall (dblp : string → crawler) (ndss usenix sp : crawler) :
  (∀ c, returns_records P (dblp c)) →
  returns_records P ndss → returns_records P usenix → returns_records P sp →
  map_Forall (λ _ cs, Forall (returns_records P) cs)
    (crawlers (CrawlerManager_init dblp ndss usenix sp)).
Proof.
  intros Hdblp Hndss Husenix Hsp. unfold CrawlerManager_init. simpl.
  repeat (apply map_Forall_insert_2; [repeat constructor; done|]).
  apply map_Forall_empty.
Qed.

Lemma offline_crawler_returns (found : list PaperData) :
  (∀ year_, Forall (P year_) found) → returns_records P (offline_crawler found).
Proof. intros Hfound year_ n. apply Hfound. Qed.
End CrawlersRecords.

Lemma sample_manager_key_fields (conference_name : string) (year_ : Z) (n : network) :
  Forall has_key_fields (crawled_papers sample_manager conference_name year_ n).
Proof.
  apply (crawled_papers_Forall (λ _, has_key_fields)).
  apply CrawlerManager_init_Forall;
    intros; apply offline_crawler_returns; intros; repeat constructor; discriminate.
Qed.

(** X15. [crawl_conference] only adds to the store, whatever the crawlers
    do: the crawl log keeps its rows and gains at most one, for this
    conference and year; every paper stored before is still stored and
    total_papers does not drop; a well-formed store stays well formed. *)
Theorem crawl_conference_extends_store (clock : nat → clock_reading)
    (self : CrawlerManager) (conference_name : string) (year_ : Z) (w : world) :
  let w' := (crawl_conference clock self (Some conference_name) year_ w).2 in
  store_extends (db w) (db w')
  ∧ ∃ rows,
      crawl_history (db w') = crawl_history (db w) ++ rows
      ∧ attempt_pair <$> rows `sublist_of` [(conference_name, year_)].
Proof.
  intros w'. subst w'.
  destruct (crawl_conference_effect clock self (Some conference_name) year_ w)
    as (Hext & rows & Hh & Hsub & _).
  split; [done|]. exists rows. split; [done|].
  etrans; [exact Hsub|]. simpl. destruct (fits_int64 year_); [done|].
  apply sublist_nil_l.
Qed.

(** X16. A crawled dictionary without the key title, conference or year
    makes [crawl_conference] raise the [KeyError] of the deduplicator:
    nothing is stored, not even the other records, and no crawl attempt is
    logged; only the network has been used. *)
Theorem crawl_conference_key_error (clock : nat → clock_reading)
    (self : CrawlerManager) (conference_name : string) (year_ : Z) (w : world) :
  ¬ Forall has_key_fields (crawled_papers self conference_name year_ (net w)) →
  ∃ key w',
    crawl_conference clock self (Some conference_name) year_ w
    = (Raise (KeyError key), w')
    ∧ key ∈ ["title"; "conference"; "year"]
    ∧ db w' = db w
    ∧ net w' = (run_crawlers (default [] (crawlers self !! conference_name))
                  year_ [] (net w)).2.
Proof.
  intros Hbad. rewrite crawl_conference_crawled. cbv zeta.
  destruct (_deduplicate_papers _) as [unique|e] eqn:Hdedup.
  - exfalso. apply Hbad. apply deduplicate_Return_iff. by exists unique.
  - destruct (dedup_loop_Raise_KeyError _ _ _ _ Hdedup) as (key & -> & Hkey).
    exists key. eexists. split; [reflexivity|]. done.
Qed.

Lemma crawl_conference_key_error_witness :
  ¬ Forall has_key_fields (crawled_papers yearless_manager "CCS" 2023 (net sample_world))
  ∧ ∃ key w',
      crawl_conference sample_clocks yearless_manager (Some "CCS") 2023 sample_world
      = (Raise (KeyError key), w')
      ∧ db w' = db sample_world.
Proof.
  assert (H : ¬ Forall has_key_fields
                  (crawled_papers yearless_manager "CCS" 2023 (net sample_world))).
  { vm_compute. intros Hall. apply Forall_cons in Hall as [(_ & _ & Hy) _]. by apply Hy. }
  split; [exact H|].
  destruct (crawl_conference_key_error sample_clocks yearless_manager "CCS" 2023
              sample_world H) as (key & w' & Hrun & _ & Hdb & _).
  exists key, w'. split; [exact Hrun | exact Hdb].
Defined.



(** A configuration with a year of 2 ^ 63, an entry whose name is null
    and an entry whose years are a single integer: one attempt is logged,
    and the call raises at the third entry, before the fourth. *)
Example crawl_all_odd_configuration :
  let run := crawl_all sample_clocks sample_manager (Bound (Some odd_conferences))
               sample_world in
  run.1 = Raise (TypeError "'int' object is not iterable")
  ∧ attempt_pair <$> crawl_history (db run.2) = [("CCS", 2023)]
  ∧ scheduled_pairs odd_conferences
    = [(Some "CCS", 2023); (Some "CCS", 2 ^ 63); (None, 2023)].
Proof. vm_compute. done. Qed.

(** * Deduplication across crawlers and what ends up stored *)

Section FirstWins.
Implicit Types (paper : PaperData) (before found : list PaperData).
Implicit Types (db : database) (row : paper_row).

Lemma first_occurrences_after_app (l1 : list PaperData) : ∀ before l2,
  first_occurrences_after before (l1 ++ l2)
  = first_occurrences_after before l1 ++ first_occurrences_after (before ++ l1) l2.
Proof.
  induction l1 as [|paper l1 IH]; intros before l2; simpl.
  - by rewrite app_nil_r.
  - rewrite IH, <- !app_assoc. done.
Qed.

Lemma first_occurrences_after_filter (l : list PaperData) : ∀ b1 b2,
  first_occurrences_after (b1 ++ b2) l
  = filter (λ paper, key_of paper ∉ key_of <$> b1) (first_occurrences_after b2 l).
Proof.
  induction l as [|paper l IH]; intros b1 b2; simpl; [done|].
  rewrite filter_app, <- IH, <- app_assoc. f_equal.
  rewrite fmap_app.
  destruct (decide (key_of paper ∈ key_of <$> b2)) as [H2|H2].
  - rewrite decide_True by (apply elem_of_app; by right). done.
  - destruct (decide (key_of paper ∈ key_of <$> b1)) as [H1|H1].
    + rewrite decide_True by (apply elem_of_app; by left).
      by rewrite filter_cons_False by (intros H; by apply H).
    + rewrite decide_False by (rewrite elem_of_app; tauto).
      by rewrite filter_cons_True by done.
Qed.

Lemma stored_key_key_of paper1 paper2 k :
  stored_key paper1 = Some k → stored_key paper2 = Some k →
  key_of paper1 = key_of paper2.
Proof.
  destruct k as [[t c] y].
  intros (Ht1 & Hc1 & Hy1 & _)%stored_key_Some (Ht2 & Hc2 & Hy2 & _)%stored_key_Some.
  unfold key_of. congruence.
Qed.

Lemma key_of_stored_key paper1 paper2 :
  key_of paper1 = key_of paper2 → stored_key paper1 = stored_key paper2.
Proof. unfold key_of, stored_key. by intros [= -> -> ->]. Qed.

Lemma omap_stored_key_NoDup found :
  NoDup (key_of <$> found) → NoDup (omap stored_key found).
Proof.
  induction found as [|paper found IH]; simpl; [constructor|].
  intros [Hnotin Hnd]%NoDup_cons.
  destruct (stored_key paper) as [k|] eqn:Hk; [|by apply IH].
  apply NoDup_cons. split; [|by apply IH].
  intros (q & Hq & Hkq)%list_elem_of_omap. apply Hnotin.
  rewrite (stored_key_key_of paper q k Hk Hkq). by apply list_elem_of_fmap_2.
Qed.

(** An upsert of another key leaves the row in the table as it is. *)
Lemma insert_paper_other_rows clk paper db row :
  row ∈ papers db →
  stored_key paper ≠ Some (row_key row) →
  row ∈ papers (insert_paper clk paper db).2.
Proof.
  intros Hrow Hother. destruct (stored_key paper) as [[[t c] y]|] eqn:Hkey.
  - destruct (insert_paper_accepted clk paper db t c y Hkey)
      as (y64 & db' & Hval & -> & Hrows & _). simpl. rewrite Hrows.
    unfold upserted_rows. rewrite Hval.
    destruct (existsb _ _).
    + unfold updated_rows. apply list_elem_of_fmap. exists row. split; [|done].
      destruct (has_key (t, c, y) row) eqn:Hk; [|done].
      apply has_key_true in Hk. rewrite Hk in Hother. done.
    + apply elem_of_app. by left.
  - by rewrite insert_paper_not_accepted.
Qed.

(** The upsert of an accepted record leaves a row that holds it. *)
Lemma insert_paper_holds clk paper db :
  accepted paper →
  ∃ row, row ∈ papers (insert_paper clk paper db).2 ∧ holds_record row paper.
Proof.
  intros [[[t c] y] Hkey].
  destruct (insert_paper_accepted clk paper db t c y Hkey)
    as (y64 & db' & Hval & -> & Hrows & _). simpl. rewrite Hrows.
  unfold upserted_rows. rewrite Hval.
  destruct (existsb _ _) eqn:Hex.
  - apply existsb_has_key, list_elem_of_fmap in Hex as (row & Hk & Hrow).
    exists (do_update (bind_values paper (datetime_now clk)) row). split.
    + unfold updated_rows. apply list_elem_of_fmap. exists row. split; [|done].
      by rewrite (proj2 (has_key_true _ _)).
    + unfold holds_record. rewrite do_update_key, <- Hk. done.
  - eexists. split; [apply elem_of_app; right; by left|].
    unfold holds_record, row_key. simpl. rewrite Hval. done.
Qed.

Lemma batch_loop_other_rows found : ∀ (clk : nat → clock_reading) db (count : Z) row,
  row ∈ papers db →
  row_key row ∉ omap stored_key found →
  row ∈ papers (batch_loop clk found db count).2.
Proof.
  induction found as [|paper rest IH]; intros clk db count row Hrow Hother; [done|].
  simpl in *.
  pose proof (insert_paper_other_rows (clk 0%nat) paper db row Hrow) as Hstep.
  destruct (insert_paper (clk 0%nat) paper db) as [ok db']. simpl in Hstep.
  destruct (stored_key paper) as [k|] eqn:Hk.
  - apply not_elem_of_cons in Hother as [Hne Hrest].
    apply IH; [|done]. apply Hstep. congruence.
  - apply IH; [|done]. by apply Hstep.
Qed.

(** After a batch of records with pairwise distinct keys, each accepted
    record of the batch is held by a row. *)
Lemma batch_loop_holds found : ∀ (clk : nat → clock_reading) db (count : Z) paper,
  NoDup (omap stored_key found) →
  paper ∈ found → accepted paper →
  ∃ row, row ∈ papers (batch_loop clk found db count).2 ∧ holds_record row paper.
Proof.
  induction found as [|first rest IH]; intros clk db count paper Hnd Hin Hs.
  - by apply elem_of_nil in Hin.
  - simpl in *.
    pose proof (insert_paper_holds (clk 0%nat) first db) as Hheld.
    destruct (insert_paper (clk 0%nat) first db) as [ok db']. simpl in Hheld.
    apply elem_of_cons in Hin as [->|Hin].
    + destruct (Hheld Hs) as (row & Hrow & Hholds). exists row. split; [|done].
      apply batch_loop_other_rows; [done|].
      destruct Hholds as (Hkey & _). rewrite Hkey in Hnd.
      by apply NoDup_cons in Hnd as [? _].
    + apply IH; [|done|done].
      destruct (stored_key first); [by apply NoDup_cons in Hnd as [_ ?]|done].
Qed.
End FirstWins.

(** X18. Deduplicating the concatenation of two crawlers' results keeps
    the deduplicated records of the first crawler and, of the second, only
    those whose key the first crawler did not find: on a shared key the
    record of the earlier crawler wins. *)
Theorem deduplicate_app (found1 found2 : list PaperData) :
  Forall has_key_fields (found1 ++ found2) →
  ∃ unique1 unique2,
    _deduplicate_papers found1 = Return unique1
    ∧ _deduplicate_papers found2 = Return unique2
    ∧ _deduplicate_papers (found1 ++ found2)
      = Return (unique1
                ++ filter (λ paper, key_of paper ∉ key_of <$> found1) unique2).
Proof.
  intros Hall. pose proof Hall as [H1 H2]%Forall_app.
  exists (first_occurrences found1), (first_occurrences found2).
  split; [by apply dedup_returns_first_occurrences|].
  split; [by apply dedup_returns_first_occurrences|].
  rewrite (proj1 (dedup_returns_first_occurrences _ Hall)). f_equal.
  unfold first_occurrences. rewrite first_occurrences_after_app. f_equal.
  simpl. rewrite <- (app_nil_r found1) at 1. apply first_occurrences_after_filter.
Qed.

Lemma deduplicate_app_witness :
  Forall has_key_fields ([dblp_paper "X" "A" "CCS" 2023] ++ sample_papers)
  ∧ _deduplicate_papers ([dblp_paper "X" "A" "CCS" 2023] ++ sample_papers)
    = Return [dblp_paper "X" "A" "CCS" 2023; dblp_paper "Y" "A" "CCS" 2023].
Proof.
  assert (H : Forall has_key_fields ([dblp_paper "X" "A" "CCS" 2023] ++ sample_papers))
    by (repeat constructor; discriminate).
  split; [exact H|].
  destruct (deduplicate_app [dblp_paper "X" "A" "CCS" 2023] sample_papers H)
    as (unique1 & unique2 & H1 & H2 & ->).
  vm_compute in H1, H2. injection H1 as <-. injection H2 as <-.
  vm_compute. reflexivity.
Defined.

(** X19. What [crawl_conference] leaves in the store: when the crawled
    records carry the three key fields, every crawled record that the
    upsert accepts (title, conference and year not null, the year a 64-bit
    integer) has its key stored afterwards, and the row under that key holds
    the fields of the first crawled record with that key. This holds also
    when the call raises at the logging of the attempt: the papers are
    committed before. *)
Theorem crawl_conference_stores_first (clock : nat → clock_reading)
    (self : CrawlerManager) (conference_name : string) (year_ : Z) (w : world)
    (paper : PaperData) :
  let found := crawled_papers self conference_name year_ (net w) in
  let w' := (crawl_conference clock self (Some conference_name) year_ w).2 in
  Forall has_key_fields found →
  paper ∈ found →
  accepted paper →
  ∃ first row,
    first ∈ first_occurrences found
    ∧ key_of first = key_of paper
    ∧ row ∈ papers (db w')
    ∧ holds_record row first.
Proof.
  intros found w' Hkeys Hin Hs. subst w'.
  destruct (dedup_returns_first_occurrences found Hkeys) as (Hret & Hsub & Hnd).
  destruct (first_occurrences_after_covers found [] paper Hin) as [Hb|Hk].
  { simpl in Hb. by apply elem_of_nil in Hb. }
  apply list_elem_of_fmap in Hk as (first & Hkey & Hfirst).
  fold (first_occurrences found) in Hfirst.
  assert (Hs' : accepted first).
  { unfold accepted in *. by rewrite <- (key_of_stored_key _ _ Hkey). }
  exists first. rewrite crawl_conference_crawled. fold found. rewrite Hret. cbv zeta.
  destruct (first_occurrences found) as [|p0 unique] eqn:Hu.
  { by apply elem_of_nil in Hfirst. }
  destruct (batch_loop_holds (p0 :: unique) (λ i, clock (ticks w + i)%nat) (db w) 0
              first (omap_stored_key_NoDup _ Hnd) Hfirst Hs') as (row & Hrow & Hholds).
  exists row. split_and!; [done|done| |done].
  destruct (log_crawl_history _ _ _ _ _ _ _) as [db2|e] eqn:Hlog; cbn [snd db].
  - apply log_crawl_history_Return in Hlog as (? & ? & _ & _ & Hp & _).
    rewrite Hp. done.
  - done.
Qed.

Lemma crawl_conference_stores_first_witness :
  let found := crawled_papers sample_manager "CCS" 2023 (net sample_world) in
  Forall has_key_fields found
  ∧ dblp_paper "X" "A" "CCS" 2023 ∈ found
  ∧ accepted (dblp_paper "X" "A" "CCS" 2023)
  ∧ ∃ first row,
      first ∈ first_occurrences found
      ∧ row ∈ papers (db (crawl_conference sample_clocks sample_manager (Some "CCS")
                            2023 sample_world).2)
      ∧ holds_record row first.
Proof.
  intros found.
  assert (H1 : Forall has_key_fields found) by apply sample_manager_key_fields.
  assert (H2 : dblp_paper "X" "A" "CCS" 2023 ∈ found) by (vm_compute; by left).
  assert (H3 : accepted (dblp_paper "X" "A" "CCS" 2023)) by (by eexists).
  split_and!; [exact H1 | exact H2 | exact H3 |].
  destruct (crawl_conference_stores_first sample_clocks sample_manager "CCS" 2023
              sample_world _ H1 H2 H3) as (first & row & Hf & _ & Hrow & Hholds).
  exists first, row. split_and!; done.
Defined.

(** * Properties of the crawlers *)

Section CrawlersProperties.
Variable bs : html_library.
Variable transport : nat → string → http_result.
Implicit Types (self : BaseCrawler) (paper : PaperData) (n : network).

Lemma truthy_str_Some (o : option string) :
  truthy_str o = true ↔ ∃ t, o = Some t ∧ t ≠ EmptyString.
Proof.
  destruct o as [t|]; simpl.
  - rewrite negb_true_iff, bool_decide_eq_false. split.
    + intros Hne. by exists t.
    + by intros (t' & [= <-] & Hne).
  - split; [done|]. by intros (t & [=] & _).
Qed.

Lemma prefix_append (a s : string) :
  String.prefix a s = true ↔ ∃ b, s = a +:+ b.
Proof.
  revert s. induction a as [|x a IH]; intros s.
  - destruct s; simpl; (split; [intros _; by eexists|done]).
  - destruct s as [|y s]; simpl.
    + split; [done|]. by intros (b & [=]).
    + destruct (Ascii.ascii_dec x y) as [->|Hne].
      * rewrite IH. split; intros (b & Hb); exists b.
        -- by rewrite Hb.
        -- by injection Hb.
      * split; [done|]. intros (b & [= ? _]). done.
Qed.

(** [contains] is the substring test. *)
Lemma contains_spec (needle s : string) :
  contains needle s = true ↔ ∃ a b, s = a +:+ needle +:+ b.
Proof.
  induction s as [|x s IH].
  - cbn [contains]. rewrite orb_false_r, prefix_append. split.
    + intros (b & Hb). by exists EmptyString, b.
    + intros ([|y a] & b & Hab); [by exists b|done].
  - cbn [contains]. rewrite orb_true_iff, prefix_append, IH. split.
    + intros [(b & Hb)|(a & b & Hab)].
      * by exists EmptyString, b.
      * exists (String x a), b. by rewrite Hab.
    + intros ([|y a] & b & Hab).
      * left. by exists b.
      * right. injection Hab as -> Hs. by exists a, b.
Qed.

Lemma first_pdf_href_spec (ee_tags : list (element bs)) (href : string) :
  first_pdf_href bs ee_tags = Some href →
  contains ".pdf" href = true
  ∧ ∃ ee_tag, ee_tag ∈ ee_tags ∧ attr bs "href" ee_tag = Some href.
Proof.
  induction ee_tags as [|ee_tag rest IH]; simpl; [done|].
  destruct (contains ".pdf" (default EmptyString (attr bs "href" ee_tag))) eqn:Hpdf.
  - intros [= <-]. split; [done|]. exists ee_tag. split; [by left|].
    destruct (attr bs "href" ee_tag); [done|]. by vm_compute in Hpdf.
  - intros (Hc & ee & Hin & Hattr)%IH. split; [done|]. exists ee. split; [by right|done].
Qed.

Lemma paper_dict_crawled_record (title_ : option string) authors_ conference_name
    (year_ : Z) abstract_ pdf_url_ paper_url_ doi_ :
  truthy_str title_ = true →
  crawled_record conference_name year_
    (paper_dict title_ authors_ (Some conference_name) year_ abstract_ pdf_url_
       paper_url_ doi_).
Proof.
  intros (t & -> & Hne)%truthy_str_Some. unfold crawled_record, paper_dict. simpl.
  split_and!; try done. by exists t.
Qed.

Lemma dblp_parse_entry_spec self (entry : element bs) (year_ : Z) paper :
  dblp_parse_entry bs self entry year_ = Some paper →
  crawled_record (self_conference_name self) year_ paper
  ∧ abstract paper = Bound None
  ∧ titled bs entry
  ∧ get (title paper) = get_text bs <$> find bs (by_class "span" "title") entry
  ∧ get (authors paper) = Some (String.concat ", " (author_names bs entry))
  ∧ (∀ href, get (pdf_url paper) = Some href →
       contains ".pdf" href = true
       ∧ ∃ ee_tag, ee_tag ∈ find_all bs (by_class "a" "ee") entry
                   ∧ attr bs "href" ee_tag = Some href)
  ∧ get (paper_url paper)
    = head (find_all bs (by_class "a" "ee") entry) ≫= attr bs "href".
Proof.
  unfold dblp_parse_entry.
  destruct (truthy_str (get_text bs <$> find bs (by_class "span" "title") entry))
    eqn:Htitle; simpl; [|done].
  intros [= <-]. split_and!.
  - by apply paper_dict_crawled_record.
  - done.
  - done.
  - done.
  - done.
  - simpl. apply first_pdf_href_spec.
  - done.
Qed.

(** One record for each entry with a title, in the order of the page. *)
Lemma dblp_entries_records self (year_ : Z) (entries : list (element bs)) :
  Forall2 (λ entry paper, dblp_parse_entry bs self entry year_ = Some paper)
    (filter (titled bs) entries)
    (omap (λ entry, dblp_parse_entry bs self entry year_) entries).
Proof.
  induction entries as [|entry rest IH]; [constructor|].
  rewrite filter_cons. cbn [omap list_omap].
  destruct (decide (titled bs entry)) as [Ht|Ht].
  - destruct (dblp_parse_entry bs self entry year_) as [paper|] eqn:Hp.
    + by constructor.
    + exfalso. unfold dblp_parse_entry in Hp. unfold titled in Ht.
      rewrite Ht in Hp. done.
  - destruct (dblp_parse_entry bs self entry year_) as [paper|] eqn:Hp; [|done].
    exfalso. apply Ht. unfold titled. unfold dblp_parse_entry in Hp.
    by destruct (truthy_str _).
Qed.

Lemma ndss_parse_paper_spec (item : element bs) (year_ : Z) paper :
  ndss_parse_paper bs item year_ = Some paper →
  crawled_record "NDSS" year_ paper
  ∧ abstract paper = Bound None ∧ paper_url paper = Bound None
  ∧ doi paper = Bound None.
Proof.
  unfold ndss_parse_paper.
  destruct (truthy_str _) eqn:Htitle; [|done]. intros [= <-].
  split_and!; try done. by apply paper_dict_crawled_record.
Qed.

Lemma usenix_parse_paper_spec (item : element bs) (year_ : Z) paper :
  usenix_parse_paper bs item year_ = Some paper →
  crawled_record "USENIX Security" year_ paper
  ∧ pdf_url paper = Bound None ∧ doi paper = Bound None
  ∧ ∀ link, get (paper_url paper) = Some link →
      ∃ href, href ≠ EmptyString ∧ link = "https://www.usenix.org" +:+ href.
Proof.
  unfold usenix_parse_paper.
  destruct (truthy_str _) eqn:Htitle; [|done]. intros [= <-].
  split_and!; try done; [by apply paper_dict_crawled_record|].
  simpl. intros link.
  destruct (_ ≫= attr bs "href") as [href|]; [|done].
  destruct (bool_decide (href = EmptyString)) eqn:He; [done|].
  apply bool_decide_eq_false in He. intros [= <-]. by exists href.
Qed.

Lemma sp_parse_paper_spec (item : element bs) (year_ : Z) paper :
  sp_parse_paper bs item year_ = Some paper →
  crawled_record "S&P" year_ paper
  ∧ abstract paper = Bound None ∧ paper_url paper = Bound None
  ∧ doi paper = Bound None.
Proof.
  unfold sp_parse_paper.
  destruct (truthy_str _) eqn:Htitle; [|done]. intros [= <-].
  split_and!; try done. by apply paper_dict_crawled_record.
Qed.

(** The shared body returns in every case; what it returns are parsed
    items, none when the page could not be fetched, and its network use is
    that of [fetch_page]. *)
Lemma crawl_page_spec self (url : string) (items : selector)
    (parse_item : element bs → option PaperData) n :
  ∃ found,
    crawl_page bs transport self url items parse_item n
    = (Return found,
       (fetch_page transport (self_retry_times self) (self_delay self) url n).2)
    ∧ Forall (λ paper, ∃ item, parse_item item = Some paper) found
    ∧ (∀ e, (fetch_page transport (self_retry_times self) (self_delay self) url n).1
            = Raise e → found = []).
Proof.
  unfold crawl_page.
  destruct (fetch_page _ _ _ _ _) as [[html|e] n1]; simpl.
  - eexists. split; [done|]. split; [|done].
    apply Forall_forall. intros paper (item & _ & Hitem)%list_elem_of_omap.
    by exists item.
  - exists []. split; [done|]. split; done.
Qed.
End CrawlersProperties.

Section CrawlersNetwork.
Variable bs : html_library.
Variable transport : nat → string → http_result.
Implicit Types (self : BaseCrawler) (paper : PaperData) (n : network).

Lemma crawled_record_storable conference_name (year_ : Z) paper :
  crawled_record conference_name year_ paper → has_key_fields paper ∧ storable paper.
Proof.
  intros ((t & _ & Ht) & Hc & Hy & _). unfold has_key_fields, storable.
  rewrite Ht, Hc, Hy. simpl. split_and!; eauto.
Qed.

(** A crawled record of a year that fits 64 bits is accepted by the
    upsert. *)
Lemma crawled_record_accepted conference_name (year_ : Z) paper :
  crawled_record conference_name year_ paper → fits_int64 year_ = true →
  accepted paper.
Proof.
  intros ((t & _ & Ht) & Hc & Hy & _) Hfits. exists (t, conference_name, year_).
  apply stored_key_Some. rewrite Ht, Hc, Hy. done.
Qed.

(** The network use of the shared body of the crawlers. *)
Lemma crawl_page_network self (url : string) (items : selector)
    (parse_item : element bs → option PaperData) n :
  let run := crawl_page bs transport self url items parse_item n in
  (∃ evs,
     trace run.2 = trace n ++ evs
     ∧ (sent n ≤ sent run.2)%nat
     ∧ requested evs = replicate (sent run.2 - sent n) url
     ∧ Z.of_nat (sent run.2 - sent n) ≤ Z.max 0 (self_retry_times self))
  ∧ (1 ≤ self_retry_times self →
     (∀ i : nat, Z.of_nat i < self_retry_times self →
        is_Some (attempt_error (transport (sent n + i)%nat url))) →
     run.1 = Return []).
Proof.
  intros run. subst run.
  destruct (crawl_page_spec bs transport self url items parse_item n)
    as (found & -> & _ & Hraise). cbn [fst snd]. split.
  - apply fetch_page_events.
  - intros Hretry Hfail.
    destruct (fetch_page_all_fail_raises transport (self_retry_times self)
                (self_delay self) url n Hretry Hfail) as [e He].
    by rewrite (Hraise e He).
Qed.

Lemma dblp_url_Some (conference_name : string) (year_ : Z) :
  is_Some (dblp_url conference_name year_)
  ↔ conference_name ∈ ["NDSS"; "USENIX Security"; "CCS"; "S&P"].
Proof.
  unfold dblp_url. rewrite !elem_of_cons, elem_of_nil.
  repeat (destruct (decide _) as [->|?]; [split; [tauto|eauto]|]).
  split; [by intros [? [=]]|]. intros [?|[?|[?|[?|[]]]]]; done.
Qed.

Lemma DBLPCrawler_crawl_spec self (year_ : Z) n :
  ∃ found,
    (DBLPCrawler_crawl bs transport self year_ n).1 = Return found
    ∧ Forall (λ paper, ∃ entry, dblp_parse_entry bs self entry year_ = Some paper) found.
Proof.
  unfold DBLPCrawler_crawl.
  destruct (dblp_url _ _) as [url|]; [|by exists []].
  destruct (crawl_page_spec bs transport self url (by_class "li" "entry")
              (λ entry, dblp_parse_entry bs self entry year_) n)
    as (found & -> & Hfound & _).
  by exists found.
Qed.

(** The records of a page that was fetched. *)
Lemma DBLPCrawler_crawl_fetched self (year_ : Z) n (url html : string) n1 :
  dblp_url (self_conference_name self) year_ = Some url →
  fetch_page transport (self_retry_times self) (self_delay self) url n
  = (Return html, n1) →
  (DBLPCrawler_crawl bs transport self year_ n).1
  = Return (omap (λ entry, dblp_parse_entry bs self entry year_)
              (find_all bs (by_class "li" "entry") (parse_html bs html))).
Proof.
  intros Hurl Hfetch. unfold DBLPCrawler_crawl, crawl_page. by rewrite Hurl, Hfetch.
Qed.
End CrawlersNetwork.

(** X20. [DBLPCrawler.crawl] returns in every case (a failed fetch is
    swallowed), and each record it returns has all eight keys, a non-empty
    title, the crawler's conference and the year asked for, so its key
    columns are not null and the store accepts it when the year fits 64
    bits; its abstract is None, and a pdf_url, when there is one, has ".pdf"
    in it. When the page was fetched, the records are those of the entries
    of the page that have a non-empty title, one for each, in page order:
    the title is the text of the entry's title element, the authors are the
    names of the entry's author elements joined by ", ", a pdf_url is the
    href of one of the entry's links, and the paper_url is the href of the
    first of them. *)
Theorem DBLPCrawler_crawl_records (bs : html_library)
    (transport : nat → string → http_result) (self : BaseCrawler) (year_ : Z)
    (n : network) :
  ∃ found,
    (DBLPCrawler_crawl bs transport self year_ n).1 = Return found
    ∧ Forall (λ paper,
                crawled_record (self_conference_name self) year_ paper
                ∧ storable paper
                ∧ (fits_int64 year_ = true → accepted paper)
                ∧ abstract paper = Bound None
                ∧ ∀ href, get (pdf_url paper) = Some href →
                    ∃ a b, href = a +:+ ".pdf" +:+ b) found
    ∧ ∀ (url html : string) (n1 : network),
        dblp_url (self_conference_name self) year_ = Some url →
        fetch_page transport (self_retry_times self) (self_delay self) url n
        = (Return html, n1) →
        Forall2 (λ entry paper,
                   get (title paper)
                   = get_text bs <$> find bs (by_class "span" "title") entry
                   ∧ get (authors paper)
                     = Some (String.concat ", " (author_names bs entry))
                   ∧ (∀ href, get (pdf_url paper) = Some href →
                        ∃ ee_tag, ee_tag ∈ find_all bs (by_class "a" "ee") entry
                                  ∧ attr bs "href" ee_tag = Some href)
                   ∧ get (paper_url paper)
                     = head (find_all bs (by_class "a" "ee") entry) ≫= attr bs "href")
          (filter (titled bs) (find_all bs (by_class "li" "entry") (parse_html bs html)))
          found.
Proof.
  destruct (DBLPCrawler_crawl_spec bs transport self year_ n) as (found & Hrun & Hfound).
  exists found. split; [done|]. split.
  - eapply Forall_impl; [exact Hfound|]. simpl.
    intros paper (entry & (Hrec & Habs & _ & _ & _ & Hpdf & _)%dblp_parse_entry_spec).
    split_and!; try done.
    + by eapply crawled_record_storable.
    + by eapply crawled_record_accepted.
    + intros href Hhref. apply contains_spec. by apply Hpdf.
  - intros url html n1 Hurl Hfetch.
    rewrite (DBLPCrawler_crawl_fetched bs transport self year_ n url html n1 Hurl Hfetch)
      in Hrun.
    injection Hrun as <-.
    eapply Forall2_impl; [apply dblp_entries_records|]. simpl.
    intros entry paper (_ & _ & _ & Ht & Ha & Hpdf & Hurl')%dblp_parse_entry_spec.
    split_and!; try done.
    intros href Hhref. by apply Hpdf.
Qed.

Lemma DBLPCrawler_crawl_records_witness :
  let self := BaseCrawler_init "CCS" None in
  let url := "https://dblp.org/db/conf/ccs/ccs2023.html" in
  dblp_url (self_conference_name self) 2023 = Some url
  ∧ fetch_page reachable (self_retry_times self) (self_delay self) url idle_network
    = (Return "<html/>",
       (fetch_page reachable (self_retry_times self) (self_delay self) url
          idle_network).2)
  ∧ ∃ found,
      (DBLPCrawler_crawl sample_html reachable self 2023 idle_network).1 = Return found
      ∧ Forall2 (λ entry paper,
                   get (title paper) = Some entry
                   ∧ get (authors paper)
                     = Some (String.concat ", " (author_names sample_html entry)))
          ["Paper One"; "Paper Two"] found.
Proof.
  intros self url.
  assert (H1 : dblp_url (self_conference_name self) 2023 = Some url) by reflexivity.
  assert (H2 : fetch_page reachable (self_retry_times self) (self_delay self) url
                 idle_network
               = (Return "<html/>",
                  (fetch_page reachable (self_retry_times self) (self_delay self) url
                     idle_network).2)) by reflexivity.
  split; [exact H1|]. split; [exact H2|].
  destruct (DBLPCrawler_crawl_records sample_html reachable self 2023 idle_network)
    as (found & Hrun & _ & Hpage).
  exists found. split; [exact Hrun|].
  specialize (Hpage url "<html/>" _ H1 H2).
  eapply Forall2_impl; [exact Hpage|]. simpl.
  intros entry paper (Ht & Ha & _). split; [exact Ht | exact Ha].
Defined.

(** X21. The crawlers of the NDSS, USENIX Security and S&P sites return
    in every case, and each record they return has all eight keys, a
    non-empty title, the name of their conference and the year asked for,
    so its title, conference and year are not null; none carries a doi, and
    a paper_url of the USENIX crawler starts with the address of the USENIX
    site. *)
Theorem site_crawlers_records (bs : html_library)
    (transport : nat → string → http_result) (self : BaseCrawler) (year_ : Z)
    (n : network) :
  (∃ found,
     (NDSSCrawler_crawl bs transport self year_ n).1 = Return found
     ∧ Forall (λ paper, crawled_record "NDSS" year_ paper ∧ storable paper
                        ∧ doi paper = Bound None) found)
  ∧ (∃ found,
       (USENIXSecurityCrawler_crawl bs transport self year_ n).1 = Return found
       ∧ Forall (λ paper, crawled_record "USENIX Security" year_ paper
                          ∧ storable paper ∧ doi paper = Bound None
                          ∧ ∀ link, get (paper_url paper) = Some link →
                              ∃ href, link = "https://www.usenix.org" +:+ href) found)
  ∧ (∃ found,
       (SPCrawler_crawl bs transport self year_ n).1 = Return found
       ∧ Forall (λ paper, crawled_record "S&P" year_ paper ∧ storable paper
                          ∧ doi paper = Bound None) found).
Proof.
  split_and!.
  - destruct (crawl_page_spec bs transport self (ndss_url year_) (by_class "div" "paper")
                (λ item, ndss_parse_paper bs item year_) n) as (found & Hrun & Hfound & _).
    exists found. unfold NDSSCrawler_crawl. rewrite Hrun. split; [done|].
    eapply Forall_impl; [exact Hfound|]. simpl.
    intros paper (item & (Hrec & _ & _ & Hdoi)%ndss_parse_paper_spec).
    split_and!; [done| |done]. by eapply crawled_record_storable.
  - destruct (crawl_page_spec bs transport self (usenix_url year_)
                (by_class "div" "views-row")
                (λ item, usenix_parse_paper bs item year_) n) as (found & Hrun & Hfound & _).
    exists found. unfold USENIXSecurityCrawler_crawl. rewrite Hrun. split; [done|].
    eapply Forall_impl; [exact Hfound|]. simpl.
    intros paper (item & (Hrec & _ & Hdoi & Hlink)%usenix_parse_paper_spec).
    split_and!; [done| |done|]; [by eapply crawled_record_storable|].
    intros link (href & _ & ->)%Hlink. by exists href.
  - destruct (crawl_page_spec bs transport self (sp_url year_) (by_class "div" "paper")
                (λ item, sp_parse_paper bs item year_) n) as (found & Hrun & Hfound & _).
    exists found. unfold SPCrawler_crawl. rewrite Hrun. split; [done|].
    eapply Forall_impl; [exact Hfound|]. simpl.
    intros paper (item & (Hrec & _ & _ & Hdoi)%sp_parse_paper_spec).
    split_and!; [done| |done]. by eapply crawled_record_storable.
Qed.

(** The crawlers on the sample page: two records each. *)
Example crawlers_sample :
  let self := BaseCrawler_init "CCS" None in
  (λ paper, (get (title paper), get (conference paper), get (pdf_url paper)))
    <$> default [] (match (DBLPCrawler_crawl sample_html reachable self 2023
                             idle_network).1 with
                    | Return found => Some found
                    | Raise _ => None
                    end)
  = [(Some "Paper One", Some "CCS", Some "/papers/Paper One.pdf");
     (Some "Paper Two", Some "CCS", Some "/papers/Paper Two.pdf")]
  ∧ (DBLPCrawler_crawl sample_html unreachable self 2023 idle_network).1 = Return []
  ∧ sent (DBLPCrawler_crawl sample_html unreachable self 2023 idle_network).2 = 3%nat.
Proof. vm_compute. done. Qed.

(** X22. The network use of [DBLPCrawler.crawl]: for a conference other
    than the four it knows it touches nothing and returns no record;
    otherwise it requests only the conference's DBLP page of that year, at
    most [retry_times] times, and when every attempt fails it returns the
    empty list instead of raising. *)
Theorem DBLPCrawler_crawl_network (bs : html_library)
    (transport : nat → string → http_result) (self : BaseCrawler) (year_ : Z)
    (n : network) :
  let run := DBLPCrawler_crawl bs transport self year_ n in
  match dblp_url (self_conference_name self) year_ with
  | None =>
      (self_conference_name self ∉ ["NDSS"; "USENIX Security"; "CCS"; "S&P"])
      ∧ run = (Return [], n)
  | Some url =>
      (self_conference_name self ∈ ["NDSS"; "USENIX Security"; "CCS"; "S&P"])
      ∧ (∃ evs,
           trace run.2 = trace n ++ evs
           ∧ (sent n ≤ sent run.2)%nat
           ∧ requested evs = replicate (sent run.2 - sent n) url
           ∧ Z.of_nat (sent run.2 - sent n) ≤ Z.max 0 (self_retry_times self))
      ∧ (1 ≤ self_retry_times self →
         (∀ i : nat, Z.of_nat i < self_retry_times self →
            is_Some (attempt_error (transport (sent n + i)%nat url))) →
         run.1 = Return [])
  end.
Proof.
  intros run. subst run. unfold DBLPCrawler_crawl.
  pose proof (dblp_url_Some (self_conference_name self) year_) as Hsome.
  destruct (dblp_url (self_conference_name self) year_) as [url|].
  - split; [apply Hsome; eauto|]. apply crawl_page_network.
  - split; [|done]. intros Hin%Hsome. by destruct Hin.
Qed.

(** X23. The network use of the site crawlers: [CCSCrawler.crawl] returns
    no record and touches nothing; the NDSS, USENIX Security and S&P
    crawlers request only their own page for the year, at most
    [retry_times] times, and return the empty list when every attempt
    fails. *)
Theorem site_crawlers_network (bs : html_library)
    (transport : nat → string → http_result) (self : BaseCrawler) (year_ : Z)
    (n : network) :
  CCSCrawler_crawl self year_ n = (Return [], n)
  ∧ ∀ (crawl : crawler) (url : string),
      (crawl, url) ∈ [(NDSSCrawler_crawl bs transport self, ndss_url year_);
                      (USENIXSecurityCrawler_crawl bs transport self, usenix_url year_);
                      (SPCrawler_crawl bs transport self, sp_url year_)] →
      (∃ evs,
         trace (crawl year_ n).2 = trace n ++ evs
         ∧ (sent n ≤ sent (crawl year_ n).2)%nat
         ∧ requested evs = replicate (sent (crawl year_ n).2 - sent n) url
         ∧ Z.of_nat (sent (crawl year_ n).2 - sent n) ≤ Z.max 0 (self_retry_times self))
      ∧ (1 ≤ self_retry_times self →
         (∀ i : nat, Z.of_nat i < self_retry_times self →
            is_Some (attempt_error (transport (sent n + i)%nat url))) →
         (crawl year_ n).1 = Return []).
Proof.
  split; [done|]. intros crawl url Hin.
  rewrite !elem_of_cons, elem_of_nil in Hin.
  destruct Hin as [[= -> ->]|[[= -> ->]|[[= -> ->]|[]]]]; apply crawl_page_network.
Qed.

Lemma site_crawlers_network_witness :
  let self := BaseCrawler_init "NDSS" None in
  1 ≤ self_retry_times self
  ∧ (∀ i : nat, Z.of_nat i < self_retry_times self →
       is_Some (attempt_error (unreachable (sent idle_network + i)%nat (ndss_url 2023))))
  ∧ (NDSSCrawler_crawl sample_html unreachable self 2023 idle_network).1 = Return [].
Proof.
  intros self.
  assert (H1 : 1 ≤ self_retry_times self) by (vm_compute; discriminate).
  assert (H2 : ∀ i : nat, Z.of_nat i < self_retry_times self →
            is_Some (attempt_error (unreachable (sent idle_network + i)%nat
                                      (ndss_url 2023)))) by (intros; simpl; eauto).
  split_and!; [exact H1 | exact H2 |].
  destruct (site_crawlers_network sample_html unreachable self 2023 idle_network)
    as (_ & Hsite).
  apply (Hsite (NDSSCrawler_crawl sample_html unreachable self) (ndss_url 2023));
    [by left | exact H1 | exact H2].
Defined.

Lemma append_inj_r (s : string) : ∀ a b : string, a +:+ s = b +:+ s → a = b.
Proof.
  assert (Hlen : ∀ a b : string,
            String.length (a +:+ b) = (String.length a + String.length b)%nat).
  { intros a b. induction a as [|x a IH]; simpl; [done|]. by rewrite IH. }
  induction a as [|x a IH]; intros [|y b] Heq.
  - done.
  - apply (f_equal String.length) in Heq. rewrite !Hlen in Heq. simpl in Heq. lia.
  - apply (f_equal String.length) in Heq. rewrite !Hlen in Heq. simpl in Heq. lia.
  - change (String x (a +:+ s) = String y (b +:+ s)) in Heq.
    injection Heq as -> Heq. f_equal. by apply IH.
Qed.

Lemma url_year_inj (before after : string) (y y' : Z) :
  before +:+ pretty y +:+ after = before +:+ pretty y' +:+ after → y = y'.
Proof.
  intros Heq. apply String.app_inj in Heq. apply append_inj_r in Heq.
  by apply (inj pretty) in Heq.
Qed.

(** X24. The pages the crawlers ask for: the DBLP, NDSS and S&P addresses
    differ for different years, while the USENIX address is built from the
    year modulo 100, so two years get the same USENIX page exactly when
    they agree modulo 100. *)
Theorem crawler_urls (y y' : Z) :
  (∀ c, is_Some (dblp_url c y) → dblp_url c y = dblp_url c y' → y = y')
  ∧ (ndss_url y = ndss_url y' → y = y')
  ∧ (sp_url y = sp_url y' → y = y')
  ∧ (usenix_url y = usenix_url y' ↔ y `mod` 100 = y' `mod` 100).
Proof.
  split_and!.
  - intros c Hsome. unfold dblp_url in *.
    repeat (destruct (decide _);
            [intros Heq; apply (inj Some) in Heq; by eapply url_year_inj|]).
    by destruct Hsome as [? [=]].
  - apply url_year_inj.
  - apply url_year_inj.
  - unfold usenix_url. split; [apply url_year_inj | by intros ->].
Qed.

(** The USENIX address of 2023, and of 2005 and 1905 alike. *)
Example usenix_url_sample :
  usenix_url 2023
  = "https://www.usenix.org/conference/usenixsecurity23/technical-sessions"
  ∧ usenix_url 2005
    = "https://www.usenix.org/conference/usenixsecurity5/technical-sessions"
  ∧ usenix_url 1905 = usenix_url 2005.
Proof. vm_compute. done. Qed.

(** * The manager with the registered crawlers *)






Section Registry.
Variable bs : html_library.
Variable transport : nat → string → http_result.
Variable crawler_config : option (gmap string Z).




End Registry.






(** The shipped configuration against the sample pages: three attempts,
    each with two papers found. *)
Example registered_crawlers_sample :
  let w' := (crawl_all sample_clocks (registered_crawlers sample_html reachable None)
               (Bound (Some sample_conferences)) sample_world).2 in
  (λ row, (h_conference row, int64_value (h_year row), h_papers_count row, h_status row))
    <$> crawl_history (db w')
  = [("CCS", 2022, 2, "success"); ("CCS", 2023, 2, "success");
     ("S&P", 2023, 2, "success")]
  ∧ total_papers (get_statistics (db w')) = 6.
Proof. vm_compute. done. Qed.

(** * Upsert, then query *)

Lemma NoDup_fmap_eq {A B} (f : A → B) (l : list A) (x y : A) :
  NoDup (f <$> l) → x ∈ l → y ∈ l → f x = f y → x = y.
Proof.
  intros Hnd (i & Hi)%list_elem_of_lookup (j & Hj)%list_elem_of_lookup Hf.
  assert (i = j) as ->; [|congruence].
  eapply (NoDup_lookup _ i j (f x)); [done|..]; rewrite list_lookup_fmap.
  - by rewrite Hi.
  - rewrite Hj. simpl. by rewrite Hf.
Qed.

(** X27. Upsert, then query: after the upsert of a record that the
    store accepts (title, conference and year not null, the year a 64-bit
    integer), [get_papers] for that conference and year (without limit)
    returns, and among its rows is one that holds the record; in a store
    that meets the UNIQUE constraint it is the only returned row with that
    key. For a record with an empty conference or the year 0 the filter is
    ignored and the row is returned all the same. *)
Theorem insert_paper_then_get_papers (engine : sqlite_engine) (clk : clock_reading)
    (paper_data : PaperData) (db : database) (t c : string) (y : Z) :
  stored_key paper_data = Some (t, c, y) →
  ∃ rows row,
    get_papers engine (Some c) (Some y) None (insert_paper clk paper_data db).2
    = Return rows
    ∧ row ∈ rows
    ∧ row_key row = (t, c, y)
    ∧ holds_record row paper_data
    ∧ (papers_unique db →
       ∀ row', row' ∈ rows → row_key row' = (t, c, y) → row' = row).
Proof.
  intros Hkey.
  assert (Hs : accepted paper_data) by (by eexists).
  destruct (insert_paper_holds clk paper_data db Hs) as (row & Hrow & Hholds).
  assert (Hk : row_key row = (t, c, y)).
  { destruct Hholds as (Hk & _). congruence. }
  apply stored_key_Some in Hkey as (_ & _ & _ & Hfits).
  rewrite (get_papers_binds engine (Some c) (Some y) None)
    by (by intros ? [= <-]).
  cbn [build_query limit_clause truthy_int apply_limit].
  eexists _, row. split; [reflexivity|].
  assert (Hmem : ∀ r,
            r ∈ order_by_created_at_desc engine
                  {| where_conference := if truthy_str (Some c) then Some c else None;
                     where_year := if truthy_int (Some y) then Some y else None;
                     limit_clause := None |}
                  (filter (λ row0, matches (build_query (Some c) (Some y) None) row0 = true)
                     (papers (insert_paper clk paper_data db).2))
            ↔ r ∈ papers (insert_paper clk paper_data db).2
              ∧ matches (build_query (Some c) (Some y) None) r = true).
  { intros r. rewrite order_by_permutation, list_elem_of_filter. tauto. }
  split_and!; [|done|done|].
  - apply Hmem. split; [done|]. apply matches_build_query.
    unfold row_key in Hk. injection Hk as Ht Hc Hy.
    split; by intros ? [= <-] _.
  - intros Huniq row' Hrow' Hk'.
    apply (NoDup_fmap_eq row_key (papers (insert_paper clk paper_data db).2)).
    + by apply insert_paper_unique.
    + by apply Hmem.
    + done.
    + congruence.
Qed.

Lemma insert_paper_then_get_papers_witness :
  stored_key (dblp_paper "Z" "A" "CCS" 2024) = Some ("Z", "CCS", 2024)
  ∧ ∃ rows row,
      get_papers merge_sort_engine (Some "CCS") (Some 2024) None
        (insert_paper sample_clock (dblp_paper "Z" "A" "CCS" 2024) sample_db).2
      = Return rows
      ∧ row ∈ rows
      ∧ row_key row = ("Z", "CCS", 2024)
      ∧ holds_record row (dblp_paper "Z" "A" "CCS" 2024).
Proof.
  assert (H : stored_key (dblp_paper "Z" "A" "CCS" 2024) = Some ("Z", "CCS", 2024))
    by reflexivity.
  split; [exact H|].
  destruct (insert_paper_then_get_papers merge_sort_engine sample_clock _ sample_db
              _ _ _ H) as (rows & row & Hrun & Hrow & Hk & Hholds & _).
  exists rows, row. split_and!; done.
Defined.
